(** * zane-omega: the progress / unlock state-derivation engine

    A shallow embedding of the client-side logic of the e-learning
    front-end: the CSV readers ([lib/csv], [lib/learning.ts]), the
    progress calculator, the lesson unlock scheduler ([lib/lessonUnlock])
    and the lesson-completion rules of the chapter page.

    Conventions.
    - A JavaScript string is the list of its UTF-16 code units.
    - A JavaScript number that the program uses as a count, an index or an
      XP amount is an integer of [Z]; where the program can obtain a value
      that is not an integer ([NaN], a double beyond 2^53) the model says
      so with a constructor of its own.
    - A [Date] is its time value: milliseconds since the epoch, in [Z].
      Local time is UTC plus a fixed offset [LocalTZA] (no daylight
      saving shift), which every definition on local fields takes as an
      argument.
    - [console.warn] is modelled by the list of the messages written.
    - Web Storage is a finite map from keys to items. *)

From Stdlib Require Import ZArith NArith List Bool Lia String Ascii QArith.
From Stdlib Require Import DecimalString Sorted.
From stdpp Require Import gmap.
From Equations Require Import Equations.
Import ListNotations.
Open Scope Z_scope.

(** ** JavaScript strings *)

Module JS.

Definition jsstring : Type := list N.

(** An ASCII string literal of the source, as code units. *)
Definition js (s : string) : jsstring := map N_of_ascii (list_ascii_of_string s).

(** [a === b] on strings. *)
Fixpoint streq (a b : jsstring) : bool :=
  match a, b with
  | [], [] => true
  | x :: a', y :: b' => N.eqb x y && streq a' b'
  | _, _ => false
  end.

(** [Array.prototype.includes] on an array of strings. *)
Definition includes (l : list jsstring) (x : jsstring) : bool :=
  existsb (streq x) l.

(** [Array.prototype.indexOf] on an array of strings; [-1] when absent. *)
Fixpoint indexOf_from (i : Z) (l : list jsstring) (x : jsstring) : Z :=
  match l with
  | [] => -1
  | y :: l' => if streq y x then i else indexOf_from (i + 1) l' x
  end.
Definition indexOf (l : list jsstring) (x : jsstring) : Z := indexOf_from 0 l x.

(** WhiteSpace and LineTerminator code units: what [trim], the [\s] class
    and the numeric parsers skip. *)
Definition isWhiteSpace (c : N) : bool :=
  existsb (N.eqb c)
    [0x09; 0x0A; 0x0B; 0x0C; 0x0D; 0x20; 0xA0; 0x1680; 0x2028; 0x2029;
     0x202F; 0x205F; 0x3000; 0xFEFF]%N
  || (N.leb 0x2000 c && N.leb c 0x200A).

Fixpoint trimStart (s : jsstring) : jsstring :=
  match s with
  | c :: s' => if isWhiteSpace c then trimStart s' else s
  | [] => []
  end.

Definition trimEnd (s : jsstring) : jsstring := rev (trimStart (rev s)).

(** [String.prototype.trim]. *)
Definition trim (s : jsstring) : jsstring := trimEnd (trimStart s).

(** Truthiness of a string: non-empty. *)
Definition truthy (s : jsstring) : bool :=
  match s with [] => false | _ => true end.

(** [Number.prototype.toString] of a non-negative integer, in decimal. *)
Definition natToString (n : nat) : jsstring :=
  js (NilZero.string_of_uint (Nat.to_uint n)).

(** The names an ordinary object created by [{}] inherits from
    [Object.prototype] in a browser. Reading one of them through
    [obj[name]] gives the inherited member (a function, or the prototype
    object for [__proto__]), which is truthy, unless the object has a
    property of its own under that name. *)
Definition objectPrototypeNames : list jsstring :=
  map js ["constructor"; "hasOwnProperty"; "isPrototypeOf";
          "propertyIsEnumerable"; "toLocaleString"; "toString"; "valueOf";
          "__proto__"; "__defineGetter__"; "__defineSetter__";
          "__lookupGetter__"; "__lookupSetter__"]%string.

Definition inheritedName (k : jsstring) : bool := includes objectPrototypeNames k.

(** [Array.from(new Set(l))]: the first occurrence of each string, in
    order. *)
Definition setOf (l : list jsstring) : list jsstring :=
  fold_left (fun acc x => if includes acc x then acc else acc ++ [x]) l [].

(** [s.split(sep)] for a one-unit separator. *)
Fixpoint splitAcc (sep : N) (s : jsstring) (cur : jsstring) : list jsstring :=
  match s with
  | [] => [cur]
  | c :: s' => if N.eqb c sep then cur :: splitAcc sep s' [] else splitAcc sep s' (cur ++ [c])
  end.
Definition split (sep : N) (s : jsstring) : list jsstring := splitAcc sep s [].

(** An ordinary object used as a map from names to values: its own
    properties, listed in creation order (the order [Object.keys] gives
    for names that are not array indices). *)
Definition object (V : Type) : Type := list (jsstring * V).

Fixpoint getOwn {V} (o : object V) (key : jsstring) : option V :=
  match o with
  | [] => None
  | (k, v) :: o' => if streq k key then Some v else getOwn o' key
  end.

(** [o[key] = v] for a name other than [__proto__]. *)
Fixpoint putOwn {V} (o : object V) (key : jsstring) (v : V) : object V :=
  match o with
  | [] => [(key, v)]
  | (k, w) :: o' =>
      if streq k key then (k, v) :: o' else (k, w) :: putOwn o' key v
  end.

(** [Object.keys(o)] *)
Definition keys {V} (o : object V) : list jsstring := map fst o.

(** What the program writes with [console.warn]. *)
Inductive warning :=
| LessonNotInSchedule (lessonId : jsstring)
| DuplicateQuestionIds (uniq : list jsstring).

End JS.
Import JS.

(** ** Web Storage

    [sessionStorage] and [localStorage] hold text. Under its list keys the
    program only ever stores [JSON.stringify] of an array of strings and
    reads it back with [JSON.parse], a round trip that is the identity on
    such arrays: the model keeps the array. Any other stored text (the
    flag ["true"], a score) is [Text].

    The model describes the list functions on the storages where the text
    under the list key is absent, empty or such an array. Another text
    under a list key, which only a writer outside this program can put
    there, is outside the model: [JSON.parse] throws on some of these
    texts and on others gives a value that is not an array (a string,
    which has an [includes] of its own, a number, an object), and the
    functions below give [None], no description, for all of them. No
    property of this development says what the program does there. *)

Module Storage.

Inductive item :=
| JSONArray (l : list jsstring)
| Text (s : jsstring).

Abbreviation storage := (gmap jsstring item).

Definition getItem (st : storage) (key : jsstring) : option item := st !! key.

Definition setItem (st : storage) (key : jsstring) (v : item) : storage :=
  <[key := v]> st.

(** [x ? JSON.parse(x) : []] and [JSON.parse(x || '[]')] for the result
    [x] of [getItem]: [null] and the empty string are falsy. [None] is
    not a result of the source: it marks a stored text that is not the
    JSON text of an array of strings, on which the model is silent. *)
Definition parseList (x : option item) : option (list jsstring) :=
  match x with
  | None => Some []
  | Some (Text []) => Some []
  | Some (JSONArray l) => Some l
  | Some (Text (_ :: _)) => None
  end.

(** [getItem(key) === 'true'] *)
Definition isTrue (x : option item) : bool :=
  match x with
  | Some (Text s) => streq s (js "true")
  | _ => false
  end.

End Storage.
Import Storage.

(** ** lib/csv: tasks and progress *)

Module Csv.

(** *** The CSV reader *)

Definition quote : N := 0x22.
Definition comma : N := 0x2C.
Definition CR : N := 0x0D.
Definition LF : N := 0x0A.
Definition BOM : N := 0xFEFF.

(** The state of the reader's loop: [rows], [curRow], [curField],
    [inQuotes]. *)
Record ParseState := {
  rows : list (list jsstring);
  curRow : list jsstring;
  curField : jsstring;
  inQuotes : bool
}.

(** The [for] loop over the code units of the text; the recursion is on
    what is left of the text from index [i]. An [i++] in the body is a
    call on the tail of the rest. *)
Fixpoint parseLoop (text : jsstring) (st : ParseState) : ParseState :=
  match text with
  | [] => st
  | ch :: rest =>
      if N.eqb ch quote then
        match rest with
        | next :: rest' =>
            if inQuotes st && N.eqb next quote
            then parseLoop rest'
                   {| rows := rows st; curRow := curRow st;
                      curField := curField st ++ [quote];
                      inQuotes := inQuotes st |}
            else parseLoop rest
                   {| rows := rows st; curRow := curRow st;
                      curField := curField st;
                      inQuotes := negb (inQuotes st) |}
        | [] =>
            parseLoop rest
              {| rows := rows st; curRow := curRow st;
                 curField := curField st;
                 inQuotes := negb (inQuotes st) |}
        end
      else if negb (inQuotes st) && N.eqb ch comma then
        parseLoop rest
          {| rows := rows st; curRow := curRow st ++ [curField st];
             curField := []; inQuotes := inQuotes st |}
      else if negb (inQuotes st) && N.eqb ch CR then
        let st' := {| rows := rows st ++ [curRow st ++ [curField st]];
                      curRow := []; curField := [];
                      inQuotes := inQuotes st |} in
        match rest with
        | next :: rest' =>
            if N.eqb next LF then parseLoop rest' st' else parseLoop rest st'
        | [] => parseLoop rest st'
        end
      else if negb (inQuotes st) && N.eqb ch LF then
        parseLoop rest
          {| rows := rows st ++ [curRow st ++ [curField st]];
             curRow := []; curField := []; inQuotes := inQuotes st |}
      else
        parseLoop rest
          {| rows := rows st; curRow := curRow st;
             curField := curField st ++ [ch]; inQuotes := inQuotes st |}
  end.

(** [r.length === 1 && r[0] === ''] *)
Definition isEmptyRow (r : list jsstring) : bool :=
  match r with
  | [f] => negb (truthy f)
  | _ => false
  end.

(** [while (rows.length && <last row is empty>) rows.pop()], on the
    reversed array. *)
Fixpoint popEmptyRev (revRows : list (list jsstring)) : list (list jsstring) :=
  match revRows with
  | r :: more => if isEmptyRow r then popEmptyRev more else revRows
  | [] => []
  end.

Definition popTrailingEmpty (rows : list (list jsstring)) : list (list jsstring) :=
  rev (popEmptyRev (rev rows)).

Definition stripBOM (csvText : jsstring) : jsstring :=
  match csvText with
  | c :: rest => if N.eqb c BOM then rest else csvText
  | [] => []
  end.

Definition parseCSV (csvText : jsstring) : list (list jsstring) :=
  let st := parseLoop (stripBOM csvText)
              {| rows := []; curRow := []; curField := []; inQuotes := false |} in
  let rows :=
    if truthy (curField st) || (0 <? length (curRow st))%nat
    then rows st ++ [curRow st ++ [curField st]]
    else rows st in
  popTrailingEmpty rows.

(** *** Typed rows *)

(** The result of [parseInt]. [Num z] is the integer [z], exactly
    (magnitude at most 2^53; [-0] and [+0] are both [Num 0]). [Big z]
    stands for the double the runtime gives for digits of value [z] beyond
    2^53: the nearest double, an approximation of it past 20 significant
    digits, or an infinity; the model does not compute it. *)
Inductive Number :=
| NaN
| Num (z : Z)
| Big (z : Z).

(** The value of a code unit as a digit: [0-9], [a-z], [A-Z]. *)
Definition digitValue (c : N) : option Z :=
  if N.leb 0x30 c && N.leb c 0x39 then Some (Z.of_N c - 0x30)
  else if N.leb 0x61 c && N.leb c 0x7A then Some (Z.of_N c - 0x61 + 10)
  else if N.leb 0x41 c && N.leb c 0x5A then Some (Z.of_N c - 0x41 + 10)
  else None.

(** The digits of the longest prefix made of digits of the radix. *)
Fixpoint radixDigits (radix : Z) (s : jsstring) : list Z :=
  match s with
  | [] => []
  | c :: s' =>
      match digitValue c with
      | Some d => if d <? radix then d :: radixDigits radix s' else []
      | None => []
      end
  end.

Definition mathInt (radix : Z) (digits : list Z) : Z :=
  fold_left (fun acc d => acc * radix + d) digits 0.

Definition toNumber (z : Z) : Number :=
  if Z.abs z <=? 2 ^ 53 then Num z else Big z.

(** The sign, and the text after a leading [+] or [-]. *)
Definition stripSign (str : jsstring) : Z * jsstring :=
  match str with
  | c :: str' =>
      if N.eqb c 0x2D then (-1, str')
      else if N.eqb c 0x2B then (1, str')
      else (1, str)
  | [] => (1, str)
  end.

(** The radix, and the text after a leading [0x] or [0X]. *)
Definition stripPrefix (str : jsstring) : Z * jsstring :=
  match str with
  | z :: x :: str' =>
      if N.eqb z 0x30 && (N.eqb x 0x78 || N.eqb x 0x58) then (16, str')
      else (10, str)
  | _ => (10, str)
  end.

(** [parseInt(string)] with no radix: leading white space, a sign, a
    [0x] prefix for hexadecimal, then the longest run of digits. *)
Definition parseInt (inputString : jsstring) : Number :=
  let '(sign, str) := stripSign (trimStart inputString) in
  let '(R, str) := stripPrefix str in
  match radixDigits R str with
  | [] => NaN
  | digits => toNumber (sign * mathInt R digits)
  end.

(** [n || 0]: [NaN] and zero are falsy. *)
Definition orZero (n : Number) : Number :=
  match n with
  | NaN => Num 0
  | Num 0 => Num 0
  | _ => n
  end.

(** A property value of a row object: a string, or the number of the
    [xp] column. *)
Inductive jsvalue :=
| VString (s : jsstring)
| VNumber (n : Number).

(** A row object ([const task: any = {}]). *)
Definition TaskRow : Type := object jsvalue.

(** [task[key] = v] for a string or number [v]. Assigning a primitive to
    [__proto__] of an ordinary object changes nothing. *)
Definition setProp (o : TaskRow) (key : jsstring) (v : jsvalue) : TaskRow :=
  if streq key (js "__proto__") then o else putOwn o key v.

(** ['key' in task]: an own or an inherited property. *)
Definition hasProp (o : TaskRow) (key : jsstring) : bool :=
  match getOwn o key with
  | Some _ => true
  | None => inheritedName key
  end.

(** [rawHeaders.forEach((header, index) => ...)] from index [index] on. *)
Fixpoint fillRow (rawHeaders : list jsstring) (index : nat) (row : list jsstring)
    (task : TaskRow) : TaskRow :=
  match rawHeaders with
  | [] => task
  | header :: more =>
      let value := nth index row [] in
      let task' :=
        if streq header (js "xp")
        then setProp task header (VNumber (orZero (parseInt value)))
        else setProp task header (VString value) in
      fillRow more (S index) row task'
  end.

Definition parseTaskRows (csvData : list (list jsstring)) : list TaskRow :=
  match csvData with
  | [] => []
  | headerRow :: rows =>
      let rawHeaders := map trim headerRow in
      map (fun row =>
             let task := fillRow rawHeaders 0 row [] in
             if negb (hasProp task (js "instructions"))
             then setProp task (js "instructions") (VString [])
             else task)
          rows
  end.

(** *** Tasks and progress *)

Record Resources := {
  pdfs : list jsstring;
  forms : list jsstring;
  answerKey : jsstring
}.

(** [interface Task]. [xp] is the XP amount of the task, an integer: the
    model covers the tasks whose [xp] is one, which is what the sheet
    gives when it has a column headed [xp] with cells of at most 15
    digits. A task from a sheet without such a column has no [xp]
    ([undefined]), and a cell of some hundred digits gives an infinity:
    the sums of the program over such tasks are [NaN] or infinite, and no
    property of this development speaks of them. Which tasks are counted
    and summed does not depend on [xp]. *)
Record Task := {
  id : jsstring;
  title : jsstring;
  scenario : jsstring;
  lessonId : jsstring;
  chapterId : jsstring;
  courseId : jsstring;
  resources : Resources;
  xp : Z;
  instructions : option jsstring
}.

(** [interface Lesson]. *)
Record Lesson := {
  lesson_id : jsstring;
  lesson_name : jsstring;
  lesson_chapterId : jsstring;
  lesson_courseId : jsstring;
  tasks : list Task
}.

(** [interface Chapter]. *)
Record Chapter := {
  chapter_id : jsstring;
  chapter_name : jsstring;
  chapter_courseId : jsstring;
  lessons : list Lesson
}.

(** The object [calculateProgress] returns. The two percentages are the
    exact quotients; the double rounding of [/] and [*] is not modelled. *)
Record ProgressStats := {
  totalTasks : Z;
  completedTasks : Z;
  completionPercentage : Q;
  totalXP : Z;
  earnedXP : Z;
  xpPercentage : Q
}.

(** [tasks.reduce((sum, task) => sum + task.xp, 0)]: the sum of doubles
    is the sum of integers as long as it stays within 2^53. *)
Definition sumXP (ts : list Task) : Z :=
  fold_left (fun sum task => sum + xp task) ts 0.

Definition percentage (part whole : Z) : Q :=
  if 0 <? whole then (inject_Z part / inject_Z whole) * inject_Z 100 else 0%Q.

Definition calculateProgress (tasks : list Task) (completedTaskIds : list jsstring)
  : ProgressStats :=
  let totalTasks := Z.of_nat (length tasks) in
  let totalXP := sumXP tasks in
  let completedTasksInThisSet :=
    List.filter (fun task => includes completedTaskIds (id task)) tasks in
  let completedTasks := Z.of_nat (length completedTasksInThisSet) in
  let earnedXP := sumXP completedTasksInThisSet in
  {| totalTasks := totalTasks;
     completedTasks := completedTasks;
     completionPercentage := percentage completedTasks totalTasks;
     totalXP := totalXP;
     earnedXP := earnedXP;
     xpPercentage := percentage earnedXP totalXP |}.

(** *** Completed tasks in [sessionStorage] *)

Definition completedKey (courseId : jsstring) : jsstring :=
  js "course_" ++ courseId ++ js "_completed_tasks".

Definition getCompletedTasks (sessionStorage : storage) (courseId : jsstring)
  : option (list jsstring) :=
  parseList (getItem sessionStorage (completedKey courseId)).

(** Returns the storage after the call. *)
Definition markTaskCompleted (sessionStorage : storage) (courseId taskId : jsstring)
  : option storage :=
  match parseList (getItem sessionStorage (completedKey courseId)) with
  | None => None
  | Some completedTasks =>
      if negb (includes completedTasks taskId)
      then Some (setItem sessionStorage (completedKey courseId)
                   (JSONArray (completedTasks ++ [taskId])))
      else Some sessionStorage
  end.

Definition isTaskCompleted (sessionStorage : storage) (courseId taskId : jsstring)
  : option bool :=
  match getCompletedTasks sessionStorage courseId with
  | None => None
  | Some completedTasks => Some (includes completedTasks taskId)
  end.

(** *** The course tree *)

(** [interface Course]. *)
Record Course := {
  course_id : jsstring;
  course_name : jsstring;
  chapters : list Chapter
}.

(** A row as [interface TaskRow] types it: every column a string, [xp] a
    number (an integer, as [parseTaskRows] leaves it), [instructions]
    optional. *)
Record TaskRowFields := {
  row_courseId : jsstring;
  row_courseName : jsstring;
  row_chapterId : jsstring;
  row_chapterName : jsstring;
  row_lessonId : jsstring;
  row_lessonName : jsstring;
  row_taskId : jsstring;
  row_taskTitle : jsstring;
  row_scenario : jsstring;
  row_pdfUrls : jsstring;
  row_tallyUrls : jsstring;
  row_answerKeyUrl : jsstring;
  row_xp : Z;
  row_instructions : option jsstring
}.

(** [s.split(/[;|,]/)] *)
Definition isUrlSeparator (c : N) : bool :=
  N.eqb c 0x3B || N.eqb c 0x7C || N.eqb c 0x2C.

Fixpoint splitWhen (sep : N -> bool) (s : jsstring) (cur : jsstring) : list jsstring :=
  match s with
  | [] => [cur]
  | c :: s' => if sep c then cur :: splitWhen sep s' [] else splitWhen sep s' (cur ++ [c])
  end.

Definition splitUrls (s : jsstring) : list jsstring :=
  if negb (truthy s) then []
  else List.filter truthy (map trim (splitWhen isUrlSeparator s [])).

(** [s.replace(/\\n/g, '\n')]: a backslash followed by the letter n
    becomes a line feed. *)
Fixpoint unescapeNewlines (s : jsstring) : jsstring :=
  match s with
  | [] => []
  | c :: s' =>
      if N.eqb c 0x5C then
        match s' with
        | d :: s'' => if N.eqb d 0x6E then LF :: unescapeNewlines s''
                      else c :: unescapeNewlines s'
        | [] => [c]
        end
      else c :: unescapeNewlines s'
  end.

(** The [task] object built from a row. *)
Definition taskOfRow (taskRow : TaskRowFields) : Task :=
  {| id := row_taskId taskRow;
     title := row_taskTitle taskRow;
     scenario := row_scenario taskRow;
     lessonId := row_lessonId taskRow;
     chapterId := row_chapterId taskRow;
     courseId := row_courseId taskRow;
     resources :=
       {| pdfs := splitUrls (row_pdfUrls taskRow);
          forms := splitUrls (row_tallyUrls taskRow);
          answerKey := if truthy (row_answerKeyUrl taskRow)
                       then row_answerKeyUrl taskRow else [] |};
     xp := row_xp taskRow;
     instructions :=
       match row_instructions taskRow with
       | Some i => if truthy i then Some (unescapeNewlines i) else None
       | None => None
       end |}.

(** The three [Map]s of [organizeTasks]. A [Map] with string keys is an
    insertion-ordered association list, as an object is. The objects the
    maps hold are shared: a course holds in [chapters] the very chapter
    objects of [chapterMap], a chapter in [lessons] the lesson objects of
    [lessonMap]. Each such object is created together with its entry in
    its map, so it is named by its key there; the arrays [chapters] and
    [lessons] are kept as lists of these keys, and a push to an object
    reached through a map is an update of the entry. *)
Record CourseObject := {
  co_id : jsstring;
  co_name : jsstring;
  co_chapters : list jsstring
}.

Record ChapterObject := {
  cho_id : jsstring;
  cho_name : jsstring;
  cho_courseId : jsstring;
  cho_lessons : list jsstring
}.

Record Maps := {
  courseMap : object CourseObject;
  chapterMap : object ChapterObject;
  lessonMap : object Lesson
}.

(** [map.get(key)!.field.push(x)]: the object under [key] is replaced by
    the one with the pushed element; the order of the map is kept. *)
Definition update {V} (m : object V) (key : jsstring) (f : V -> V) : object V :=
  match getOwn m key with
  | Some v => putOwn m key (f v)
  | None => m
  end.

Definition has {V} (m : object V) (key : jsstring) : bool :=
  match getOwn m key with Some _ => true | None => false end.

Definition chapterKeyOf (courseId chapterId : jsstring) : jsstring :=
  courseId ++ js "-" ++ chapterId.

Definition lessonKeyOf (courseId chapterId lessonId : jsstring) : jsstring :=
  courseId ++ js "-" ++ chapterId ++ js "-" ++ lessonId.

Definition ensureCourse (m : Maps) (taskRow : TaskRowFields) : Maps :=
  if negb (has (courseMap m) (row_courseId taskRow)) then
    {| courseMap := putOwn (courseMap m) (row_courseId taskRow)
                      {| co_id := row_courseId taskRow;
                         co_name := row_courseName taskRow;
                         co_chapters := [] |};
       chapterMap := chapterMap m;
       lessonMap := lessonMap m |}
  else m.

Definition ensureChapter (m : Maps) (taskRow : TaskRowFields) : Maps :=
  let chapterKey := chapterKeyOf (row_courseId taskRow) (row_chapterId taskRow) in
  if negb (has (chapterMap m) chapterKey) then
    {| courseMap := update (courseMap m) (row_courseId taskRow)
                      (fun course =>
                         {| co_id := co_id course; co_name := co_name course;
                            co_chapters := co_chapters course ++ [chapterKey] |});
       chapterMap := putOwn (chapterMap m) chapterKey
                       {| cho_id := row_chapterId taskRow;
                          cho_name := row_chapterName taskRow;
                          cho_courseId := row_courseId taskRow;
                          cho_lessons := [] |};
       lessonMap := lessonMap m |}
  else m.

Definition ensureLesson (m : Maps) (taskRow : TaskRowFields) : Maps :=
  let chapterKey := chapterKeyOf (row_courseId taskRow) (row_chapterId taskRow) in
  let lessonKey :=
    lessonKeyOf (row_courseId taskRow) (row_chapterId taskRow) (row_lessonId taskRow) in
  if negb (has (lessonMap m) lessonKey) then
    {| courseMap := courseMap m;
       chapterMap := update (chapterMap m) chapterKey
                       (fun chapter =>
                          {| cho_id := cho_id chapter; cho_name := cho_name chapter;
                             cho_courseId := cho_courseId chapter;
                             cho_lessons := cho_lessons chapter ++ [lessonKey] |});
       lessonMap := putOwn (lessonMap m) lessonKey
                      {| lesson_id := row_lessonId taskRow;
                         lesson_name := row_lessonName taskRow;
                         lesson_chapterId := row_chapterId taskRow;
                         lesson_courseId := row_courseId taskRow;
                         tasks := [] |} |}
  else m.

Definition pushTask (m : Maps) (taskRow : TaskRowFields) : Maps :=
  let lessonKey :=
    lessonKeyOf (row_courseId taskRow) (row_chapterId taskRow) (row_lessonId taskRow) in
  {| courseMap := courseMap m;
     chapterMap := chapterMap m;
     lessonMap := update (lessonMap m) lessonKey
                    (fun lesson =>
                       {| lesson_id := lesson_id lesson; lesson_name := lesson_name lesson;
                          lesson_chapterId := lesson_chapterId lesson;
                          lesson_courseId := lesson_courseId lesson;
                          tasks := tasks lesson ++ [taskOfRow taskRow] |}) |}.

(** The callback of [tasks.forEach]. *)
Definition addRow (m : Maps) (taskRow : TaskRowFields) : Maps :=
  pushTask (ensureLesson (ensureChapter (ensureCourse m taskRow) taskRow) taskRow) taskRow.

(** The objects as they are read after the loop. *)
Definition lessonsOf (m : Maps) (lessonKeys : list jsstring) : list Lesson :=
  flat_map (fun key => match getOwn (lessonMap m) key with
                       | Some lesson => [lesson]
                       | None => []
                       end) lessonKeys.

Definition chapterOf (m : Maps) (chapter : ChapterObject) : Chapter :=
  {| chapter_id := cho_id chapter;
     chapter_name := cho_name chapter;
     chapter_courseId := cho_courseId chapter;
     lessons := lessonsOf m (cho_lessons chapter) |}.

Definition chaptersOf (m : Maps) (chapterKeys : list jsstring) : list Chapter :=
  flat_map (fun key => match getOwn (chapterMap m) key with
                       | Some chapter => [chapterOf m chapter]
                       | None => []
                       end) chapterKeys.

Definition courseOf (m : Maps) (course : CourseObject) : Course :=
  {| course_id := co_id course;
     course_name := co_name course;
     chapters := chaptersOf m (co_chapters course) |}.

(** [Array.from(courseMap.values())] *)
Definition organizeTasks (tasks : list TaskRowFields) : list Course :=
  let m := fold_left addRow tasks
             {| courseMap := []; chapterMap := []; lessonMap := [] |} in
  map (fun entry => courseOf m (snd entry)) (courseMap m).

Definition findChapter (courses : list Course) (courseId chapterId : jsstring)
  : option Chapter :=
  match find (fun c => streq (course_id c) courseId) courses with
  | None => None
  | Some course => find (fun ch => streq (chapter_id ch) chapterId) (chapters course)
  end.

Definition findLesson (courses : list Course) (courseId chapterId lessonId : jsstring)
  : option Lesson :=
  match findChapter courses courseId chapterId with
  | None => None
  | Some chapter => find (fun l => streq (lesson_id l) lessonId) (lessons chapter)
  end.

(** The [for] loop of [findTask] over the lessons of the chapter. *)
Fixpoint findTaskIn (lessons : list Lesson) (taskId : jsstring) : option Task :=
  match lessons with
  | [] => None
  | lesson :: more =>
      match find (fun t => streq (id t) taskId) (tasks lesson) with
      | Some task => Some task
      | None => findTaskIn more taskId
      end
  end.

Definition findTask (courses : list Course) (courseId chapterId taskId : jsstring)
  : option Task :=
  match findChapter courses courseId chapterId with
  | None => None
  | Some chapter => findTaskIn (lessons chapter) taskId
  end.

End Csv.

(** ** lib/learning.ts: topics and quiz *)

Module Learning.

(** *** The CSV reader of the learning sheets *)

Record ParseState := {
  rows : list (list jsstring);
  currentRow : list jsstring;
  currentField : jsstring;
  insideQuotes : bool
}.

(** The [for] loop; [char] is the head of the text left, [nextChar] the
    unit after it ([undefined] at the end of the text). The two tests on
    a quote of the source are the two branches under the test that
    [char] is a quote. *)
Fixpoint parseLoop (text : jsstring) (st : ParseState) : ParseState :=
  match text with
  | [] => st
  | char :: rest =>
      if N.eqb char Csv.quote then
        let toggled := {| rows := rows st; currentRow := currentRow st;
                          currentField := currentField st;
                          insideQuotes := negb (insideQuotes st) |} in
        match rest with
        | nextChar :: rest' =>
            if insideQuotes st && N.eqb nextChar Csv.quote
            then parseLoop rest'
                   {| rows := rows st; currentRow := currentRow st;
                      currentField := currentField st ++ [Csv.quote];
                      insideQuotes := insideQuotes st |}
            else parseLoop rest toggled
        | [] => parseLoop rest toggled
        end
      else if N.eqb char Csv.comma && negb (insideQuotes st) then
        parseLoop rest
          {| rows := rows st; currentRow := currentRow st ++ [currentField st];
             currentField := []; insideQuotes := insideQuotes st |}
      else if (N.eqb char Csv.LF || N.eqb char Csv.CR) && negb (insideQuotes st) then
        let st' := {| rows := rows st ++ [map trim (currentRow st ++ [currentField st])];
                      currentRow := []; currentField := [];
                      insideQuotes := insideQuotes st |} in
        match rest with
        | nextChar :: rest' =>
            if N.eqb char Csv.CR && N.eqb nextChar Csv.LF
            then parseLoop rest' st' else parseLoop rest st'
        | [] => parseLoop rest st'
        end
      else
        parseLoop rest
          {| rows := rows st; currentRow := currentRow st;
             currentField := currentField st ++ [char];
             insideQuotes := insideQuotes st |}
  end.

(** [rows.reduce((m, r) => Math.max(m, r.length), 0)] *)
Definition maxCols (rows : list (list jsstring)) : nat :=
  fold_left (fun m r => Nat.max m (length r)) rows 0%nat.

(** The last step: a row shorter than [maxCols] gets empty fields
    appended. *)
Definition normalize (rows : list (list jsstring)) : list (list jsstring) :=
  let maxCols := maxCols rows in
  map (fun r =>
         if (length r <? maxCols)%nat
         then r ++ repeat [] (maxCols - length r)
         else r)
      rows.

(** The rows before the last step. *)
Definition parseRows (csvText : jsstring) : list (list jsstring) :=
  let st := parseLoop (Csv.stripBOM csvText)
              {| rows := []; currentRow := []; currentField := [];
                 insideQuotes := false |} in
  let currentRow := currentRow st ++ [currentField st] in
  let rows :=
    if (1 <? length currentRow)%nat
       || ((length currentRow =? 1)%nat && truthy (nth 0 currentRow []))
    then rows st ++ [map trim currentRow]
    else rows st in
  Csv.popTrailingEmpty rows.

Definition parseCSV (csvText : jsstring) : list (list jsstring) :=
  if negb (truthy csvText) then [] else normalize (parseRows csvText).

(** *** Quiz questions *)

(** [interface QuizRow]; a field marked [?] may be [undefined]. *)
Record QuizRow := {
  courseId : jsstring;
  chapterId : jsstring;
  lessonId : jsstring;
  topicId : jsstring;
  questionId : jsstring;
  question : jsstring;
  optionA : option jsstring;
  optionB : option jsstring;
  optionC : option jsstring;
  optionD : option jsstring;
  options : option jsstring;
  correctOption : option jsstring
}.

Record QuizQuestion := {
  id : jsstring;
  q_question : jsstring;
  q_options : list jsstring;
  correctIndex : Z;
  q_lessonId : jsstring;
  q_topicId : jsstring
}.

(** [x ?? ''] *)
Definition orEmpty (x : option jsstring) : jsstring :=
  match x with Some s => s | None => [] end.

(** [s.replace(/\r?\n|\r/g, ' ')] *)
Fixpoint collapseNewlines (s : jsstring) : jsstring :=
  match s with
  | [] => []
  | c :: s' =>
      if N.eqb c Csv.CR then
        match s' with
        | d :: s'' =>
            if N.eqb d Csv.LF then 0x20%N :: collapseNewlines s''
            else 0x20%N :: collapseNewlines s'
        | [] => 0x20%N :: collapseNewlines s'
        end
      else if N.eqb c Csv.LF then 0x20%N :: collapseNewlines s'
      else c :: collapseNewlines s'
  end.

(** [[A-D]] under the [i] flag. *)
Definition isLetterAD (c : N) : bool :=
  (N.leb 0x41 c && N.leb c 0x44) || (N.leb 0x61 c && N.leb c 0x64).

(** [opt.replace(/^([A-D]\)|[A-D]\.)\s*/i, '')] *)
Definition stripMarker (opt : jsstring) : jsstring :=
  match opt with
  | c :: p :: rest =>
      if isLetterAD c && (N.eqb p 0x29 || N.eqb p 0x2E)
      then trimStart rest else opt
  | _ => opt
  end.

Definition parseOptions (row : QuizRow) : list jsstring :=
  match options row with
  | Some o =>
      if truthy o && truthy (trim o)
      then List.filter truthy
             (map (fun opt => stripMarker (trim opt))
                  (split 0x7C (collapseNewlines o)))
      else List.filter truthy
             (map (fun opt => trim (orEmpty opt))
                  [optionA row; optionB row; optionC row; optionD row])
  | None =>
      List.filter truthy
        (map (fun opt => trim (orEmpty opt))
             [optionA row; optionB row; optionC row; optionD row])
  end.

Section OrganizeQuiz.

(** [String.prototype.toUpperCase] is the runtime's Unicode mapping, and
    [randomSuffix n] is the text of the [n]-th evaluation of
    [Math.random().toString(36).slice(2, 9)]. *)
Variable toUpperCase : jsstring -> jsstring.
Variable randomSuffix : nat -> jsstring.

(** What the callback of [quizRows.map] reads and writes besides its row:
    [seenIds], [duplicates], and the number of random draws so far. *)
Record QuizState := {
  seenIds : list jsstring;
  duplicates : list jsstring;
  draws : nat
}.

Definition letters : list jsstring := [js "A"; js "B"; js "C"; js "D"].

Definition organizeRow (st : QuizState) (row : QuizRow) : QuizQuestion * QuizState :=
  let options := parseOptions row in
  let correctLetter := toUpperCase (trim (orEmpty (correctOption row))) in
  let correctIndex := indexOf letters correctLetter in
  let '(seen', dups') :=
    if truthy (questionId row) then
      if includes (seenIds st) (questionId row)
      then (seenIds st, duplicates st ++ [questionId row])
      else (seenIds st ++ [questionId row], duplicates st)
    else (seenIds st, duplicates st) in
  let '(id, draws') :=
    if truthy (questionId row) then (questionId row, draws st)
    else ((if truthy (lessonId row) then lessonId row else js "lesson")
            ++ js "_" ++ randomSuffix (draws st), S (draws st)) in
  ({| id := id;
      q_question := question row;
      q_options := options;
      correctIndex := if 0 <=? correctIndex then correctIndex else 0;
      q_lessonId := lessonId row;
      q_topicId := topicId row |},
   {| seenIds := seen'; duplicates := dups'; draws := draws' |}).

Fixpoint mapRows (st : QuizState) (quizRows : list QuizRow)
  : list QuizQuestion * QuizState :=
  match quizRows with
  | [] => ([], st)
  | row :: more =>
      let '(q, st') := organizeRow st row in
      let '(qs, st'') := mapRows st' more in
      (q :: qs, st'')
  end.

(** The questions, and what was written to the console. *)
Definition organizeQuiz (quizRows : list QuizRow) : list QuizQuestion * list warning :=
  let '(questions, st) :=
    mapRows {| seenIds := []; duplicates := []; draws := 0 |} quizRows in
  (questions,
   match duplicates st with
   | [] => []
   | _ => [DuplicateQuestionIds (setOf (duplicates st))]
   end).

End OrganizeQuiz.

(** *** Watched topics in [localStorage] *)

Definition watchedKey (lessonId : jsstring) : jsstring :=
  js "lesson_" ++ lessonId ++ js "_watchedTopics".

Definition getWatchedTopics (localStorage : storage) (lessonId : jsstring)
  : option (list jsstring) :=
  parseList (getItem localStorage (watchedKey lessonId)).

(** Returns the storage after the call. *)
Definition markTopicWatched (localStorage : storage) (lessonId topicId : jsstring)
  : option storage :=
  match getWatchedTopics localStorage lessonId with
  | None => None
  | Some watched =>
      if negb (includes watched topicId)
      then Some (setItem localStorage (watchedKey lessonId)
                   (JSONArray (watched ++ [topicId])))
      else Some localStorage
  end.

(** *** The YouTube id of a video URL *)

(** The three alternatives of the first pattern, in order. *)
Definition youtubeMarkers : list jsstring :=
  [js "youtube.com/watch?v="; js "youtu.be/"; js "youtube.com/embed/"].

(** A unit outside the class [[^&\n?#]]. *)
Definition isDelimiter (c : N) : bool :=
  N.eqb c 0x26 || N.eqb c 0x0A || N.eqb c 0x3F || N.eqb c 0x23.

(** What is left of [s] after the literal [p], when [s] starts with it. *)
Fixpoint afterLiteral (p s : jsstring) : option jsstring :=
  match p, s with
  | [], _ => Some s
  | a :: p', b :: s' => if N.eqb a b then afterLiteral p' s' else None
  | _ :: _, [] => None
  end.

(** The greedy [[^&\n?#]+]: the longest run of units of the class. *)
Fixpoint classRun (s : jsstring) : jsstring :=
  match s with
  | c :: s' => if isDelimiter c then [] else c :: classRun s'
  | [] => []
  end.

(** The first pattern tried at the start of [s]: the alternatives in
    order, each followed by at least one unit of the class; the result is
    the capture group. *)
Fixpoint matchMarkers (markers : list jsstring) (s : jsstring) : option jsstring :=
  match markers with
  | [] => None
  | marker :: more =>
      match afterLiteral marker s with
      | Some rest =>
          match classRun rest with
          | [] => matchMarkers more s
          | run => Some run
          end
      | None => matchMarkers more s
      end
  end.

(** The first pattern is not anchored: the leftmost start that matches. *)
Fixpoint matchUrl (s : jsstring) : option jsstring :=
  match matchMarkers youtubeMarkers s with
  | Some id => Some id
  | None =>
      match s with
      | [] => None
      | _ :: s' => matchUrl s'
      end
  end.

(** [[a-zA-Z0-9_-]] *)
Definition isIdUnit (c : N) : bool :=
  (N.leb 0x61 c && N.leb c 0x7A) || (N.leb 0x41 c && N.leb c 0x5A)
  || (N.leb 0x30 c && N.leb c 0x39) || N.eqb c 0x5F || N.eqb c 0x2D.

(** The second pattern: the whole text is eleven units of the class. *)
Definition matchDirectId (s : jsstring) : option jsstring :=
  if (length s =? 11)%nat && forallb isIdUnit s then Some s else None.

Definition extractYouTubeId (url : jsstring) : option jsstring :=
  if negb (truthy url) then None
  else
    match matchUrl url with
    | Some id => Some id
    | None => matchDirectId url
    end.

(** *** Topics *)

(** [interface Topic]. [order] is the integer the sheet gives. *)
Record Topic := {
  topic_id : jsstring;
  topic_title : jsstring;
  topic_videoUrl : jsstring;
  topic_description : jsstring;
  topic_order : Z;
  topic_lessonId : jsstring;
  topic_chapterId : jsstring;
  topic_courseId : jsstring;
  topic_youtubeId : option jsstring
}.

(** [interface TopicRow]. *)
Record TopicRow := {
  tr_courseId : jsstring;
  tr_chapterId : jsstring;
  tr_lessonId : jsstring;
  tr_topicId : jsstring;
  tr_topicTitle : jsstring;
  tr_videoUrl : jsstring;
  tr_description : jsstring;
  tr_order : Z
}.

(** The callback of [topicRows.map]. *)
Definition topicOfRow (row : TopicRow) : Topic :=
  {| topic_id := tr_topicId row;
     topic_title := tr_topicTitle row;
     topic_videoUrl := tr_videoUrl row;
     topic_description := tr_description row;
     topic_order := tr_order row;
     topic_lessonId := tr_lessonId row;
     topic_chapterId := tr_chapterId row;
     topic_courseId := tr_courseId row;
     topic_youtubeId := extractYouTubeId (tr_videoUrl row) |}.

(** [.sort((a, b) => a.order - b.order)]. [Array.prototype.sort] is
    stable, and the comparison function orders the topics by their
    integer [order]: the result is the one list that is sorted and keeps
    topics of equal [order] in their order. It is built here by inserting
    each topic, from the last to the first, in front of the first topic
    of the sorted rest whose [order] is not smaller. *)
Fixpoint insertByOrder (t : Topic) (sorted : list Topic) : list Topic :=
  match sorted with
  | [] => [t]
  | u :: more =>
      if topic_order t <=? topic_order u then t :: sorted
      else u :: insertByOrder t more
  end.

Definition sortByOrder (topics : list Topic) : list Topic :=
  fold_right insertByOrder [] topics.

Definition organizeTopics (topicRows : list TopicRow) : list Topic :=
  sortByOrder (map topicOfRow topicRows).

(** [topics.filter(topic => topic.lessonId === lessonId)] *)
Definition getTopicsForLesson (topics : list Topic) (lessonId : jsstring) : list Topic :=
  List.filter (fun topic => streq (topic_lessonId topic) lessonId) topics.

(** *** The quiz of a lesson *)

(** [quiz.filter(question => question.lessonId === lessonId)] *)
Definition getQuizForLesson (quiz : list QuizQuestion) (lessonId : jsstring)
  : list QuizQuestion :=
  List.filter (fun question => streq (q_lessonId question) lessonId) quiz.

(** *** The passed flag of a quiz in [localStorage] *)

Definition quizPassedKey (lessonId : jsstring) : jsstring :=
  js "lesson_" ++ lessonId ++ js "_quizPassed".

(** [passed.toString()] *)
Definition booleanToString (b : bool) : jsstring :=
  if b then js "true" else js "false".

Definition isQuizPassed (localStorage : storage) (lessonId : jsstring) : bool :=
  isTrue (getItem localStorage (quizPassedKey lessonId)).

(** Returns the storage after the call. *)
Definition setQuizPassed (localStorage : storage) (lessonId : jsstring) (passed : bool)
  : storage :=
  setItem localStorage (quizPassedKey lessonId) (Text (booleanToString passed)).

End Learning.

(** ** Loops *)

Module Loop.

Section DoWhile.

Context {A : Type}.
Variable body : A -> A.
Variable cond : A -> bool.

(** The condition never holds after two turns in a row: the loop stops
    after the second turn at the latest. *)
Hypothesis cond_once : forall s, cond (body s) = true -> cond (body (body s)) = false.

Definition inspect {B} (b : B) : {c | b = c} := exist _ b eq_refl.

(** [do { s = body(s) } while (cond(s))]: the state after the loop. *)
Equations? doWhile (s : A) : A
  by wf (if cond (body s) then 1%nat else 0%nat) lt :=
  doWhile s with inspect (cond (body s)) := {
    | exist _ true _ => doWhile (body s)
    | exist _ false _ => body s }.
Proof. rewrite e. rewrite cond_once; auto. Qed.

End DoWhile.

End Loop.
Import Loop.

(** ** Dates: the ECMAScript time functions

    A time value is a number of milliseconds since 1970-01-01T00:00Z.
    Time values stay within the range of [Date]; the invalid date ([NaN])
    is [None] where the program can produce it. *)

Module JSDate.

Definition msPerDay : Z := 86400000.

Definition Day (t : Z) : Z := t / msPerDay.
Definition TimeWithinDay (t : Z) : Z := t mod msPerDay.

Definition DayFromYear (y : Z) : Z :=
  365 * (y - 1970) + (y - 1969) / 4 - (y - 1901) / 100 + (y - 1601) / 400.

(** The largest year whose first day is not after day [d]. *)
Definition YearFromDay (d : Z) : Z :=
  let y := 1970 + (d * 400) / 146097 in
  if DayFromYear (y + 1) <=? d then y + 1
  else if DayFromYear y <=? d then y
  else y - 1.

Definition InLeapYear (y : Z) : Z :=
  if (y mod 4 =? 0) && (negb (y mod 100 =? 0) || (y mod 400 =? 0)) then 1 else 0.

(** Day within the year of the first day of each month, January first. *)
Definition monthStarts (leap : Z) : list Z :=
  [0; 31; 59 + leap; 90 + leap; 120 + leap; 151 + leap; 181 + leap;
   212 + leap; 243 + leap; 273 + leap; 304 + leap; 334 + leap].

(** The last month (0 to 11) that starts on or before day [dayInYear]. *)
Fixpoint monthOf (starts : list Z) (dayInYear : Z) (m : Z) : Z :=
  match starts with
  | _ :: ((next :: _) as more) =>
      if next <=? dayInYear then monthOf more dayInYear (m + 1) else m
  | _ => m
  end.

Definition YearFromTime (t : Z) : Z := YearFromDay (Day t).

Definition MonthFromTime (t : Z) : Z :=
  let y := YearFromTime t in
  monthOf (monthStarts (InLeapYear y)) (Day t - DayFromYear y) 0.

(** The day number of the first day of month [m] (0 to 11) of year [y]. *)
Definition DayOfMonthStart (y m : Z) : Z :=
  DayFromYear y + nth (Z.to_nat m) (monthStarts (InLeapYear y)) 0.

Definition DateFromTime (t : Z) : Z :=
  Day t - DayOfMonthStart (YearFromTime t) (MonthFromTime t) + 1.

Definition WeekDay (t : Z) : Z := (Day t + 4) mod 7.

Definition MakeDay (year month date : Z) : Z :=
  DayOfMonthStart (year + month / 12) (month mod 12) + date - 1.

Definition MakeDate (day time : Z) : Z := day * msPerDay + time.

(** [new Date('YYYY-MM-DD')]: a date-only text is midnight UTC of that
    day; [month] counts from 1 as in the text. *)
Definition dateOnly (year month day : Z) : Z :=
  MakeDate (MakeDay year (month - 1) day) 0.

(** The UTC calendar date of a time value, as [toISOString] shows it. *)
Definition isoDate (t : Z) : Z * Z * Z :=
  (YearFromTime t, MonthFromTime t + 1, DateFromTime t).

Section Local.

(** The offset of local time from UTC, in milliseconds. It is one
    constant: the model describes the program in a zone without a clock
    change over the dates at hand. Where the clock changes, local days of
    23 or 25 hours occur, which [setDate] and [setHours] of the runtime
    follow and the definitions below do not. *)
Variable LocalTZA : Z.

Definition LocalTime (t : Z) : Z := t + LocalTZA.
Definition UTC (t : Z) : Z := t - LocalTZA.

Definition getDate (d : Z) : Z := DateFromTime (LocalTime d).
Definition getDay (d : Z) : Z := WeekDay (LocalTime d).

(** [d.setDate(date)]: the new time value of [d], at the same local time
    of day. Under the fixed offset the next date is 24 hours later. *)
Definition setDate (d : Z) (date : Z) : Z :=
  let t := LocalTime d in
  UTC (MakeDate (MakeDay (YearFromTime t) (MonthFromTime t) date) (TimeWithinDay t)).

(** [d.setHours(0, 0, 0, 0)]: the new time value of [d]; an invalid date
    stays invalid. *)
Definition setHours0 (d : option Z) : option Z :=
  match d with
  | Some d => Some (UTC (MakeDate (Day (LocalTime d)) 0))
  | None => None
  end.

(** [a >= b] on two dates: false when either is invalid. *)
Definition dateGe (a b : option Z) : bool :=
  match a, b with
  | Some a, Some b => b <=? a
  | _, _ => false
  end.

End Local.

End JSDate.
Import JSDate.

(** ** lib/lessonUnlock: the unlock scheduler *)

Module LessonUnlock.

(** An element of [generateLessonIds()]. *)
Record LessonInfo := {
  id : jsstring;
  chapterNumber : Z;
  lessonNumber : Z;
  globalIndex : Z
}.

(** A value of the [unlockSchedule] object. *)
Record ScheduleEntry := {
  lesson : LessonInfo;
  unlockDate : Z;
  isFirstLesson : bool
}.

Definition lessonId (chapter lesson : nat) : jsstring :=
  js "les_" ++ natToString chapter ++ js "_" ++ natToString lesson.

(** One inner [for] loop: lessons 1 to [count] of a chapter, pushed after
    [lessons]; [lessonIndex] is the length of [lessons]. *)
Definition pushChapter (lessons : list LessonInfo) (chapter count : nat)
  : list LessonInfo :=
  fold_left
    (fun lessons i =>
       lessons ++ [{| id := lessonId chapter i;
                      chapterNumber := Z.of_nat chapter;
                      lessonNumber := Z.of_nat i;
                      globalIndex := Z.of_nat (length lessons) |}])
    (seq 1 count) lessons.

Definition generateLessonIds : list LessonInfo :=
  let lessons := pushChapter [] 1 9 in
  fold_left
    (fun lessons chapter =>
       let lessonsInChapter := if (chapter =? 5)%nat then 11%nat else 10%nat in
       pushChapter lessons chapter lessonsInChapter)
    (seq 2 11) lessons.

Section System.

Variable LocalTZA : Z.

(** One turn of the body of the [do ... while]:
    [currentDate.setDate(currentDate.getDate() + 1)]. *)
Definition nextDay (currentDate : Z) : Z :=
  setDate LocalTZA currentDate (getDate LocalTZA currentDate + 1).

Lemma monthOf_range (leap dayInYear : Z) :
  0 <= monthOf (monthStarts leap) dayInYear 0 <= 11.
Proof.
  unfold monthStarts. simpl.
  repeat match goal with
         | |- context [if ?c then _ else _] => destruct c
         end; lia.
Qed.

Lemma MakeDay_next (t : Z) :
  MakeDay (YearFromTime t) (MonthFromTime t) (DateFromTime t + 1) = Day t + 1.
Proof.
  unfold MakeDay, DateFromTime.
  assert (H : 0 <= MonthFromTime t <= 11) by apply monthOf_range.
  rewrite Z.div_small, Z.mod_small by lia.
  rewrite Z.add_0_r. lia.
Qed.

Lemma nextDay_eq (d : Z) : nextDay d = d + msPerDay.
Proof.
  unfold nextDay, setDate, getDate. rewrite MakeDay_next.
  unfold UTC, MakeDate, LocalTime, Day, TimeWithinDay.
  pose proof (Z.div_mod (d + LocalTZA) msPerDay) as H.
  unfold msPerDay in *. lia.
Qed.

Lemma getDay_nextDay (d : Z) :
  getDay LocalTZA (nextDay d) = (getDay LocalTZA d + 1) mod 7.
Proof.
  rewrite nextDay_eq. unfold getDay, WeekDay, LocalTime, Day.
  replace (d + msPerDay + LocalTZA) with (d + LocalTZA + 1 * msPerDay) by lia.
  rewrite Z.div_add by (unfold msPerDay; lia).
  rewrite Zplus_mod_idemp_l. f_equal. lia.
Qed.

Lemma sunday_once (d : Z) :
  (getDay LocalTZA (nextDay d) =? 0) = true ->
  (getDay LocalTZA (nextDay (nextDay d)) =? 0) = false.
Proof.
  intros H. apply Z.eqb_eq in H. apply Z.eqb_neq.
  rewrite getDay_nextDay, H. discriminate.
Qed.

(** [do { currentDate.setDate(currentDate.getDate() + 1) }
     while (currentDate.getDay() === 0)]: the time value of
    [currentDate] after the loop. *)
Definition nextNonSunday (currentDate : Z) : Z :=
  doWhile nextDay (fun d => getDay LocalTZA d =? 0) sunday_once currentDate.

(** The [forEach] of [generateUnlockSchedule], from element [index] on:
    [currentDate] is shared by all turns. *)
Fixpoint scheduleLoop (courseStartDate : Z) (lessons : list LessonInfo)
    (index : nat) (currentDate : Z) (schedule : object ScheduleEntry)
  : object ScheduleEntry :=
  match lessons with
  | [] => schedule
  | lesson :: more =>
      if (index =? 0)%nat then
        scheduleLoop courseStartDate more (S index) currentDate
          (putOwn schedule (id lesson)
             {| lesson := lesson; unlockDate := courseStartDate;
                isFirstLesson := true |})
      else
        let currentDate := nextNonSunday currentDate in
        scheduleLoop courseStartDate more (S index) currentDate
          (putOwn schedule (id lesson)
             {| lesson := lesson; unlockDate := currentDate;
                isFirstLesson := false |})
  end.

(** The object: [courseStartDate] is the time value of
    [new Date(courseStartDate)]. *)
Record LessonUnlockSystem := {
  courseStartDate : Z;
  unlockSchedule : object ScheduleEntry
}.

Definition generateUnlockSchedule (courseStartDate : Z) : object ScheduleEntry :=
  scheduleLoop courseStartDate generateLessonIds 0 courseStartDate [].

Definition new (courseStartDate : Z) : LessonUnlockSystem :=
  {| courseStartDate := courseStartDate;
     unlockSchedule := generateUnlockSchedule courseStartDate |}.

(** What [this.unlockSchedule[lessonId]] evaluates to: an entry of the
    schedule, a member inherited from [Object.prototype], or [undefined]
    ([None]). *)
Inductive member :=
| Entry (e : ScheduleEntry)
| Inherited.

Definition getMember (schedule : object ScheduleEntry) (lessonId : jsstring)
  : option member :=
  match getOwn schedule lessonId with
  | Some e => Some (Entry e)
  | None => if inheritedName lessonId then Some Inherited else None
  end.

(** [lesson.unlockDate] passed to [new Date]: an inherited member has no
    such property, and [new Date(undefined)] is the invalid date. *)
Definition unlockDateOf (m : member) : option Z :=
  match m with
  | Entry e => Some (unlockDate e)
  | Inherited => None
  end.

(** The result, and what is written to the console. *)
Definition isLessonUnlockedById (this : LessonUnlockSystem) (lessonId : jsstring)
    (currentDate : Z) : bool * list warning :=
  match getMember (unlockSchedule this) lessonId with
  | None => (true, [LessonNotInSchedule lessonId])
  | Some lesson =>
      let today := setHours0 LocalTZA (Some currentDate) in
      let unlockDate := setHours0 LocalTZA (unlockDateOf lesson) in
      (dateGe today unlockDate, [])
  end.

(** [null] is [None]; [Some None] is the [undefined] that reading
    [unlockDate] of an inherited member gives. *)
Definition getLessonUnlockDate (this : LessonUnlockSystem) (lessonId : jsstring)
  : option (option Z) :=
  match getMember (unlockSchedule this) lessonId with
  | Some lesson => Some (unlockDateOf lesson)
  | None => None
  end.

(** [lessons.some(lesson => this.isLessonUnlockedById(lesson.id, currentDate))]:
    stops at the first lesson that is unlocked. *)
Fixpoint someUnlocked (this : LessonUnlockSystem) (lessons : list Csv.Lesson)
    (currentDate : Z) : bool * list warning :=
  match lessons with
  | [] => (false, [])
  | lesson :: more =>
      let '(unlocked, w) := isLessonUnlockedById this (Csv.lesson_id lesson) currentDate in
      if unlocked then (true, w)
      else let '(r, w') := someUnlocked this more currentDate in (r, w ++ w')
  end.

Definition isChapterUnlocked (this : LessonUnlockSystem) (chapterNumber : Z)
    (lessons : list Csv.Lesson) (currentDate : Z) : bool * list warning :=
  someUnlocked this lessons currentDate.

(** [Math.ceil(a / b)] for integers [a] and [b > 0]. The program divides
    the difference of two local midnights, a whole number of days under a
    fixed offset, so the quotient of doubles is exact. (Across a clock
    change the two midnights are an hour more or less apart and
    [Math.ceil] rounds the quotient up: 49 hours count as 3 days. This is
    outside the model.) *)
Definition ceilDiv (a b : Z) : Z := - ((- a) / b).

(** [getDaysUntilUnlock], under the fixed offset: [!unlockDate] holds for
    [null] and for [undefined]. *)
Definition getDaysUntilUnlock (this : LessonUnlockSystem) (lessonId : jsstring)
    (currentDate : Z) : Z :=
  match getLessonUnlockDate this lessonId with
  | Some (Some unlockDate) =>
      match setHours0 LocalTZA (Some currentDate), setHours0 LocalTZA (Some unlockDate) with
      | Some today, Some unlock =>
          let diffTime := unlock - today in
          let diffDays := ceilDiv diffTime (1000 * 60 * 60 * 24) in
          Z.max 0 diffDays
      | _, _ => 0
      end
  | _ => 0
  end.

(** [Object.keys(this.unlockSchedule)] *)
Definition getAllLessonIds (this : LessonUnlockSystem) : list jsstring :=
  keys (unlockSchedule this).

(** [export const lessonUnlockSystem = new LessonUnlockSystem('2025-07-24')] *)
Definition lessonUnlockSystem : LessonUnlockSystem := new (dateOnly 2025 7 24).

Definition isLessonUnlocked (lessonId : jsstring) (currentDate : Z) :=
  isLessonUnlockedById lessonUnlockSystem lessonId currentDate.

End System.

End LessonUnlock.

(** ** The chapter page: lesson completion *)

Module ChapterPage.

Section Page.

(** What the component reads: the [courseId] of the route, the two
    storages, and the [lessonHasLearning] state object (lesson id to
    boolean). *)
Variable courseId : jsstring.
Variable localStorage sessionStorage : storage.
Variable lessonHasLearning : object bool.

(** The merged, duplicate-free list of the completed task ids of the
    course: [[...new Set([...localStorageTasks, ...sessionStorageTasks])]]. *)
Definition allCompletedTasks : option (list jsstring) :=
  match parseList (getItem localStorage (Csv.completedKey courseId)) with
  | None => None
  | Some localStorageTasks =>
      match Csv.getCompletedTasks sessionStorage courseId with
      | None => None
      | Some sessionStorageTasks =>
          Some (setOf (localStorageTasks ++ sessionStorageTasks))
      end
  end.

Definition getLessonCompletedTasks (lesson : Csv.Lesson) : option (list jsstring) :=
  match allCompletedTasks with
  | None => None
  | Some allCompletedTasks =>
      let lessonTaskIds := map Csv.id (Csv.tasks lesson) in
      Some (List.filter (fun taskId => includes lessonTaskIds taskId) allCompletedTasks)
  end.

Definition getCompletedLessonsList : option (list jsstring) :=
  parseList (getItem localStorage (js "course_" ++ courseId ++ js "_completed_lessons")).

Definition isLessonLearningDone (lessonId : jsstring) : bool :=
  isTrue (getItem localStorage (js "lesson_" ++ lessonId ++ js "_learningDone")).

(** [lessonHasLearning[lessonId]], as a condition. *)
Definition hasLearningContent (lessonId : jsstring) : bool :=
  match getOwn lessonHasLearning lessonId with
  | Some b => b
  | None => inheritedName lessonId
  end.

Definition hasTasks (lesson : Csv.Lesson) : bool :=
  (0 <? length (Csv.tasks lesson))%nat.

(** [isLessonLearningDone(lesson.id) || completedLessonsList.includes(lesson.id)] *)
Definition learningDone (completedLessonsList : list jsstring) (lesson : Csv.Lesson) : bool :=
  isLessonLearningDone (Csv.lesson_id lesson)
  || includes completedLessonsList (Csv.lesson_id lesson).

(** [lessonHasLearning[lesson.id] || learningDone] *)
Definition hasLearning (completedLessonsList : list jsstring) (lesson : Csv.Lesson) : bool :=
  hasLearningContent (Csv.lesson_id lesson) || learningDone completedLessonsList lesson.

(** The test of the lesson card, in the callback of [chapter.lessons.map]. *)
Definition isLessonFullyComplete (lesson : Csv.Lesson) : option bool :=
  match getLessonCompletedTasks lesson with
  | None => None
  | Some lessonCompletedTasks =>
      let lessonProgress := Csv.calculateProgress (Csv.tasks lesson) lessonCompletedTasks in
      match getCompletedLessonsList with
      | None => None
      | Some completedLessonsList =>
          let learningDone := learningDone completedLessonsList lesson in
          let hasLearning := hasLearning completedLessonsList lesson in
          let tasksDone :=
            (Csv.completedTasks lessonProgress =? Z.of_nat (length (Csv.tasks lesson)))
            && (0 <? length (Csv.tasks lesson))%nat in
          if hasTasks lesson && hasLearning then
            let tasksComplete := tasksDone in
            let learningComplete := learningDone in
            Some (tasksComplete || learningComplete)
          else if hasTasks lesson then Some tasksDone
          else if hasLearning then
            Some (includes completedLessonsList (Csv.lesson_id lesson) || learningDone)
          else Some false
      end
  end.

(** The body of the [for] loop of [computeLessonLevelCompletion]: the
    value of [isComplete] for one lesson; [completedLessonsSet] is the
    set of the completed-lesson list. *)
Definition isComplete (completedLessonsSet : list jsstring) (lesson : Csv.Lesson)
  : option bool :=
  match getCompletedLessonsList with
  | None => None
  | Some completedLessonsList =>
      let hasLearning := hasLearning completedLessonsList lesson in
      if hasTasks lesson && hasLearning then
        match getLessonCompletedTasks lesson with
        | None => None
        | Some completedTasks =>
            let tasksComplete :=
              (length completedTasks =? length (Csv.tasks lesson))%nat
              && (0 <? length (Csv.tasks lesson))%nat in
            let learningComplete := includes completedLessonsSet (Csv.lesson_id lesson) in
            Some (tasksComplete || learningComplete)
        end
      else if hasTasks lesson then
        match getLessonCompletedTasks lesson with
        | None => None
        | Some completedTasks =>
            Some ((length completedTasks =? length (Csv.tasks lesson))%nat
                  && (0 <? length (Csv.tasks lesson))%nat)
        end
      else if hasLearning then
        Some (includes completedLessonsSet (Csv.lesson_id lesson))
      else Some false
  end.

Record LessonLevelCompletion := {
  completedLessonCount : Z;
  totalLessonCount : Z;
  percentage : Q
}.

Fixpoint countComplete (completedLessonsSet : list jsstring)
    (lessons : list Csv.Lesson) (completedLessonCount : Z) : option Z :=
  match lessons with
  | [] => Some completedLessonCount
  | lesson :: more =>
      match isComplete completedLessonsSet lesson with
      | None => None
      | Some b =>
          countComplete completedLessonsSet more
            (if b then completedLessonCount + 1 else completedLessonCount)
      end
  end.

Definition computeLessonLevelCompletion (chapter : option Csv.Chapter)
  : option LessonLevelCompletion :=
  match chapter with
  | None => Some {| completedLessonCount := 0; totalLessonCount := 0; percentage := 0%Q |}
  | Some chapter =>
      match getCompletedLessonsList with
      | None => None
      | Some l =>
          let completedLessonsSet := setOf l in
          let totalLessonCount := Z.of_nat (length (Csv.lessons chapter)) in
          match countComplete completedLessonsSet (Csv.lessons chapter) 0 with
          | None => None
          | Some completedLessonCount =>
              Some {| completedLessonCount := completedLessonCount;
                      totalLessonCount := totalLessonCount;
                      percentage :=
                        if totalLessonCount =? 0 then 0%Q
                        else (inject_Z completedLessonCount / inject_Z totalLessonCount)
                             * inject_Z 100 |}
          end
      end
  end.

End Page.

End ChapterPage.

(** ** The task page

    What [handleTaskCompleted] and its helpers do to [localStorage]. The
    route parameters may be undefined ([None]); [task] is the state of the
    page, [null] before the task is loaded; [fetched] is what [fetchTasks]
    delivers, [None] when it throws. *)

Module TaskPage.

Definition completedLessonsKey (courseId : jsstring) : jsstring :=
  js "course_" ++ courseId ++ js "_completed_lessons".

(** Returns the storage after the call. *)
Definition markLessonCompleted (localStorage : storage) (courseId lessonId : jsstring)
  : option storage :=
  match parseList (getItem localStorage (completedLessonsKey courseId)) with
  | None => None
  | Some arr =>
      if negb (includes arr lessonId)
      then Some (setItem localStorage (completedLessonsKey courseId)
                   (JSONArray (arr ++ [lessonId])))
      else Some localStorage
  end.

(** [foundLesson?.tasks?.map(t => t.id) || []] for the lesson found under
    the course, the chapter and [task?.lessonId]. *)
Definition lessonTaskIds (courses : list Csv.Course) (courseId : jsstring)
    (chapterId lessonId : option jsstring) : list jsstring :=
  match find (fun c => streq (Csv.course_id c) courseId) courses with
  | None => []
  | Some foundCourse =>
      match chapterId with
      | None => []
      | Some chapterId =>
          match find (fun ch => streq (Csv.chapter_id ch) chapterId)
                  (Csv.chapters foundCourse) with
          | None => []
          | Some foundChapter =>
              match lessonId with
              | None => []
              | Some lessonId =>
                  match find (fun l => streq (Csv.lesson_id l) lessonId)
                          (Csv.lessons foundChapter) with
                  | None => []
                  | Some foundLesson => map Csv.id (Csv.tasks foundLesson)
                  end
              end
          end
      end
  end.

(** Returns the storage after the call. *)
Definition handleTaskCompleted (localStorage : storage)
    (courseId taskId chapterId : option jsstring) (task : option Csv.Task)
    (fetched : option (list Csv.TaskRowFields)) : option storage :=
  match courseId, taskId with
  | Some courseId, Some taskId =>
      if truthy courseId && truthy taskId then
        match parseList (getItem localStorage (Csv.completedKey courseId)) with
        | None => None
        | Some stored =>
            let completed :=
              if negb (includes stored taskId) then stored ++ [taskId] else stored in
            let localStorage1 :=
              if negb (includes stored taskId)
              then setItem localStorage (Csv.completedKey courseId) (JSONArray completed)
              else localStorage in
            let allTasks :=
              match fetched with
              | Some tasksRows =>
                  lessonTaskIds (Csv.organizeTasks tasksRows) courseId chapterId
                    (option_map Csv.lessonId task)
              | None => []
              end in
            let allCompleted :=
              if (0 <? length allTasks)%nat
              then forallb (includes completed) allTasks else false in
            match task with
            | Some task =>
                if allCompleted && truthy (Csv.lessonId task)
                then markLessonCompleted localStorage1 courseId (Csv.lessonId task)
                else Some localStorage1
            | None => Some localStorage1
            end
        end
      else Some localStorage
  | _, _ => Some localStorage
  end.

End TaskPage.

(** ** The learning page

    What [handleTopicSelect] does to [localStorage]; [topics] is the
    state of the page, the topics of the lesson. *)

Module LearningPage.

Definition learningDoneKey (lessonId : jsstring) : jsstring :=
  js "lesson_" ++ lessonId ++ js "_learningDone".

(** Returns the storage after the call. *)
Definition handleTopicSelect (localStorage : storage) (courseId lessonId : option jsstring)
    (topics : list Learning.Topic) (topic : Learning.Topic) : option storage :=
  match lessonId with
  | Some lessonId =>
      if truthy lessonId && truthy (Learning.topic_id topic) then
        match Learning.markTopicWatched localStorage lessonId (Learning.topic_id topic) with
        | None => None
        | Some localStorage1 =>
            match Learning.getWatchedTopics localStorage1 lessonId with
            | None => None
            | Some updatedWatchedTopics =>
                if (length updatedWatchedTopics =? length topics)%nat
                   && (0 <? length topics)%nat
                then
                  let localStorage2 :=
                    setItem localStorage1 (learningDoneKey lessonId) (Text (js "true")) in
                  match courseId with
                  | Some courseId =>
                      if truthy courseId then
                        match parseList (getItem localStorage2
                                           (TaskPage.completedLessonsKey courseId)) with
                        | None => None
                        | Some completedLessons =>
                            if negb (includes completedLessons lessonId)
                            then Some (setItem localStorage2
                                         (TaskPage.completedLessonsKey courseId)
                                         (JSONArray (completedLessons ++ [lessonId])))
                            else Some localStorage2
                        end
                      else Some localStorage2
                  | None => Some localStorage2
                  end
                else Some localStorage1
            end
        end
      else Some localStorage
  | None => Some localStorage
  end.

End LearningPage.

(** ** The course page

    The completion test of the course page and of its chapter cards. *)

Module CoursePage.

Section Page.

Variable courseId : jsstring.
Variable localStorage sessionStorage : storage.

(** [lesson.hasLearning], as a condition. [interface Lesson] has no such
    property and [organizeTasks] sets none: on its lessons the value is
    [undefined]. *)
Variable hasLearning : Csv.Lesson -> bool.

Definition getCompletedTasks : option (list jsstring) :=
  match parseList (getItem localStorage (Csv.completedKey courseId)) with
  | None => None
  | Some localTasks =>
      match parseList (getItem sessionStorage (Csv.completedKey courseId)) with
      | None => None
      | Some sessionTasks => Some (setOf (localTasks ++ sessionTasks))
      end
  end.

Definition getCompletedLessons : option (list jsstring) :=
  parseList (getItem localStorage (js "course_" ++ courseId ++ js "_completed_lessons")).

Definition isLessonFullyComplete (lesson : Csv.Lesson) : option bool :=
  match getCompletedTasks with
  | None => None
  | Some completedTasks =>
      match getCompletedLessons with
      | None => None
      | Some completedLessons =>
          let learningComplete := includes completedLessons (Csv.lesson_id lesson) in
          let tasksComplete :=
            (0 <? length (Csv.tasks lesson))%nat
            && forallb (fun task => includes completedTasks (Csv.id task))
                 (Csv.tasks lesson) in
          if (0 <? length (Csv.tasks lesson))%nat && hasLearning lesson
          then Some (learningComplete || tasksComplete)
          else if (0 <? length (Csv.tasks lesson))%nat then Some tasksComplete
          else Some learningComplete
      end
  end.

End Page.

End CoursePage.

(** * Properties *)

Section JSFacts.

Lemma streq_true_iff (a b : jsstring) : streq a b = true <-> a = b.
Proof.
  revert b. induction a as [|x a IH]; intros [|y b]; simpl; split; intros H;
    try reflexivity; try discriminate.
  - apply andb_true_iff in H as [Hx Hab]. apply N.eqb_eq in Hx.
    apply IH in Hab. congruence.
  - injection H as -> ->. rewrite N.eqb_refl. simpl. apply IH. reflexivity.
Qed.

Lemma streq_refl (a : jsstring) : streq a a = true.
Proof. apply streq_true_iff. reflexivity. Qed.

Lemma streq_false_iff (a b : jsstring) : streq a b = false <-> a <> b.
Proof.
  rewrite <- streq_true_iff. destruct (streq a b); split; congruence.
Qed.

Lemma includes_In (l : list jsstring) (x : jsstring) :
  includes l x = true <-> In x l.
Proof.
  unfold includes. rewrite existsb_exists. split.
  - intros (y & Hy & E). apply streq_true_iff in E. subst. exact Hy.
  - intros H. exists x. split; [exact H | apply streq_refl].
Qed.

Lemma includes_false_iff (l : list jsstring) (x : jsstring) :
  includes l x = false <-> ~ In x l.
Proof.
  rewrite <- includes_In. destruct (includes l x); split; congruence.
Qed.

End JSFacts.



(** ** Dates *)

Section DateFacts.

(** [YearFromDay] is the year of the ECMAScript definition: the largest
    year that starts on or before the day. *)
Lemma YearFromDay_spec (d : Z) :
  DayFromYear (YearFromDay d) <= d < DayFromYear (YearFromDay d + 1).
Proof.
  unfold YearFromDay. cbv zeta.
  destruct (DayFromYear (1970 + d * 400 / 146097 + 1) <=? d) eqn:E1.
  - apply Z.leb_le in E1. split; [exact E1|].
    unfold DayFromYear in *. Z.to_euclidean_division_equations. lia.
  - apply Z.leb_gt in E1.
    destruct (DayFromYear (1970 + d * 400 / 146097) <=? d) eqn:E2.
    + apply Z.leb_le in E2. split; [exact E2 | exact E1].
    + apply Z.leb_gt in E2. split.
      * unfold DayFromYear in *. Z.to_euclidean_division_equations. lia.
      * replace (1970 + d * 400 / 146097 - 1 + 1)
          with (1970 + d * 400 / 146097) by lia.
        exact E2.
Qed.

Example calendar_samples :
  dateOnly 1970 1 1 = 0
  /\ isoDate (-1) = (1969, 12, 31)
  /\ isoDate (dateOnly 2024 2 29) = (2024, 2, 29)
  /\ isoDate (dateOnly 2024 2 29 + msPerDay) = (2024, 3, 1)
  /\ isoDate (dateOnly 1900 3 1 - 1) = (1900, 2, 28)
  /\ isoDate (dateOnly 2000 12 31) = (2000, 12, 31)
  /\ dateOnly 2025 7 24 = 1753315200000
  /\ WeekDay (dateOnly 2025 7 24) = 4
  /\ WeekDay (dateOnly 2025 7 27) = 0.
Proof. vm_compute. repeat split. Qed.

End DateFacts.

(** ** The progress calculator *)

Section Progress.

Import Csv.

Definition jsstring_eq_dec (a b : jsstring) : {a = b} + {a <> b} :=
  List.list_eq_dec N.eq_dec a b.

(** The claim's words: the number of tasks of [T] whose id occurs in [C],
    and the XP of exactly those tasks. *)
Fixpoint tasksIn (T : list Task) (C : list jsstring) : nat :=
  match T with
  | [] => 0
  | t :: T' =>
      (if in_dec jsstring_eq_dec (id t) C then 1 else 0) + tasksIn T' C
  end.

Fixpoint xpIn (T : list Task) (C : list jsstring) : Z :=
  match T with
  | [] => 0
  | t :: T' =>
      (if in_dec jsstring_eq_dec (id t) C then xp t else 0) + xpIn T' C
  end.

Lemma sumXP_from (ts : list Task) (a : Z) :
  fold_left (fun sum task => sum + xp task) ts a = a + sumXP ts.
Proof.
  unfold sumXP. revert a. induction ts as [|t ts IH]; intros a; simpl.
  - lia.
  - rewrite IH, (IH (0 + xp t)). lia.
Qed.

Lemma sumXP_cons (t : Task) (ts : list Task) : sumXP (t :: ts) = xp t + sumXP ts.
Proof. unfold sumXP at 1. simpl. rewrite sumXP_from. lia. Qed.

Lemma includes_in_dec (C : list jsstring) (x : jsstring) :
  includes C x = if in_dec jsstring_eq_dec x C then true else false.
Proof.
  destruct (in_dec _ x C) as [H | H].
  - apply includes_In. exact H.
  - apply includes_false_iff. exact H.
Qed.

Lemma filter_length_tasksIn (T : list Task) (C : list jsstring) :
  length (List.filter (fun task => includes C (id task)) T) = tasksIn T C.
Proof.
  induction T as [|t T IH]; simpl; [reflexivity|].
  rewrite includes_in_dec. destruct (in_dec _ (id t) C); simpl; lia.
Qed.

Lemma filter_sumXP_xpIn (T : list Task) (C : list jsstring) :
  sumXP (List.filter (fun task => includes C (id task)) T) = xpIn T C.
Proof.
  induction T as [|t T IH]; simpl; [reflexivity|].
  rewrite includes_in_dec. destruct (in_dec _ (id t) C); simpl.
  - rewrite sumXP_cons. lia.
  - lia.
Qed.

Lemma tasksIn_le (T : list Task) (C : list jsstring) : (tasksIn T C <= length T)%nat.
Proof.
  induction T as [|t T IH]; simpl; [lia|].
  destruct (in_dec _ (id t) C); lia.
Qed.

(** Only the ids of [C] that belong to a task of [T] are looked at. *)
Lemma filter_own_ids (T : list Task) (C : list jsstring) :
  List.filter (fun task => includes C (id task)) T =
  List.filter
    (fun task => includes (List.filter (includes (map id T)) C) (id task)) T.
Proof.
  apply filter_ext_in. intros t Ht.
  destruct (includes C (id t)) eqn:E; symmetry.
  - apply includes_In. apply filter_In. split.
    + apply includes_In. exact E.
    + apply includes_In. apply in_map. exact Ht.
  - apply includes_false_iff. intros H. apply filter_In in H as [H _].
    apply includes_In in H. congruence.
Qed.

(** C1. For every sequence of tasks [T] and every list of completed ids
    [C], [calculateProgress] counts the tasks of [T] whose id occurs in
    [C], never more than the length of [T]; [earnedXP] is the sum of the
    XP of exactly those tasks; and the ids of [C] that belong to no task
    of [T] contribute nothing: dropping them from [C] leaves the whole
    result unchanged. *)
Theorem calculateProgress_intersection (T : list Task) (C : list jsstring) :
  completedTasks (calculateProgress T C) = Z.of_nat (tasksIn T C)
  /\ 0 <= completedTasks (calculateProgress T C) <= Z.of_nat (length T)
  /\ completedTasks (calculateProgress T C) <= totalTasks (calculateProgress T C)
  /\ earnedXP (calculateProgress T C) = xpIn T C
  /\ calculateProgress T (List.filter (includes (map id T)) C) = calculateProgress T C.
Proof.
  pose proof (tasksIn_le T C) as Hle.
  assert (Hc : completedTasks (calculateProgress T C) = Z.of_nat (tasksIn T C)).
  { unfold calculateProgress; simpl. rewrite filter_length_tasksIn. reflexivity. }
  split; [exact Hc|]. split; [lia|]. split; [rewrite Hc; simpl; lia|].
  split.
  - simpl. apply filter_sumXP_xpIn.
  - unfold calculateProgress. rewrite <- filter_own_ids. reflexivity.
Qed.

End Progress.

(** ** Completion lists in storage *)

Section AppendOnce.

(** [markTaskCompleted] and [markTopicWatched] are the same program on
    two families of keys: read the list under [key a], append [x] unless
    it is there, write the list back. *)
Variable key : jsstring -> jsstring.
Hypothesis key_inj : forall a b, key a = key b -> a = b.

Definition readList (st : storage) (a : jsstring) : option (list jsstring) :=
  parseList (getItem st (key a)).

Definition appendOnce (st : storage) (a x : jsstring) : option storage :=
  match readList st a with
  | None => None
  | Some l =>
      if negb (includes l x)
      then Some (setItem st (key a) (JSONArray (l ++ [x])))
      else Some st
  end.

(** The storages the program can build: from the empty one, by marking,
    and by the writes of the rest of the program, which go to keys
    outside the family. *)
Inductive reachable : storage -> Prop :=
| reach_empty : reachable ∅
| reach_mark st a x st' :
    reachable st -> appendOnce st a x = Some st' -> reachable st'
| reach_other st k v :
    reachable st -> (forall a, k <> key a) -> reachable (setItem st k v).

Lemma appendOnce_present st a x l :
  readList st a = Some l -> In x l -> appendOnce st a x = Some st.
Proof.
  intros Hl Hin. unfold appendOnce. rewrite Hl.
  apply includes_In in Hin. rewrite Hin. reflexivity.
Qed.

Lemma appendOnce_absent st a x l :
  readList st a = Some l -> ~ In x l ->
  appendOnce st a x = Some (setItem st (key a) (JSONArray (l ++ [x]))).
Proof.
  intros Hl Hin. unfold appendOnce. rewrite Hl.
  apply includes_false_iff in Hin. rewrite Hin. reflexivity.
Qed.

Lemma readList_setItem st a l :
  readList (setItem st (key a) (JSONArray l)) a = Some l.
Proof.
  unfold readList, getItem, setItem. rewrite lookup_insert_eq. reflexivity.
Qed.

Lemma readList_setItem_other st a b v :
  a <> b -> readList (setItem st (key a) v) b = readList st b.
Proof.
  intros Hab. unfold readList, getItem, setItem.
  rewrite lookup_insert_ne; [reflexivity|].
  intros E. apply Hab, key_inj, E.
Qed.

Lemma NoDup_snoc_fresh (l : list jsstring) (x : jsstring) :
  List.NoDup l -> ~ In x l -> List.NoDup (l ++ [x]).
Proof.
  intros Hl Hx. induction Hl as [|y l Hy Hl IH]; simpl.
  - constructor; [intros [] | constructor].
  - constructor.
    + rewrite in_app_iff. simpl. intros [H | [H | []]]; [tauto|].
      subst. apply Hx. left. reflexivity.
    + apply IH. intros H. apply Hx. right. exact H.
Qed.

Lemma count_occ_NoDup_In (l : list jsstring) (x : jsstring) :
  List.NoDup l -> In x l -> count_occ jsstring_eq_dec l x = 1%nat.
Proof.
  intros Hl Hx. apply List.NoDup_count_occ' with (decA := jsstring_eq_dec) in Hx.
  - exact Hx.
  - exact Hl.
Qed.

(** One call, from a storage whose list under [key a] is [l]. *)
Lemma appendOnce_spec st a x l :
  readList st a = Some l -> List.NoDup l ->
  exists st' l',
    appendOnce st a x = Some st'
    /\ readList st' a = Some l'
    /\ List.NoDup l'
    /\ count_occ jsstring_eq_dec l' x = 1%nat
    /\ (~ In x l -> l' = l ++ [x])
    /\ (In x l -> st' = st /\ l' = l)
    /\ appendOnce st' a x = Some st'.
Proof.
  intros Hl Hnd. destruct (in_dec jsstring_eq_dec x l) as [Hin | Hin].
  - exists st, l. rewrite (appendOnce_present _ _ _ _ Hl Hin).
    repeat split; auto using count_occ_NoDup_In. tauto.
  - exists (setItem st (key a) (JSONArray (l ++ [x]))), (l ++ [x]).
    pose proof (NoDup_snoc_fresh l x Hnd Hin) as Hnd'.
    assert (Hin' : In x (l ++ [x])) by (apply in_app_iff; right; left; reflexivity).
    rewrite (appendOnce_absent _ _ _ _ Hl Hin).
    repeat split; auto using readList_setItem, count_occ_NoDup_In; try tauto.
    apply (appendOnce_present _ _ _ _ (readList_setItem _ _ _) Hin').
Qed.

(** Every list of the family is duplicate-free in every storage the
    program can build. *)
Lemma reachable_NoDup st :
  reachable st -> forall a, exists l, readList st a = Some l /\ List.NoDup l.
Proof.
  induction 1 as [|st a x st' Hr IH Hm|st k v Hr IH Hk]; intros b.
  - exists []. split; [reflexivity | constructor].
  - destruct (IH a) as (l & Hl & Hnd).
    destruct (appendOnce_spec st a x l Hl Hnd)
      as (st1 & l' & Hm' & Hl' & Hnd' & _ & Hfresh & Hold & _).
    rewrite Hm in Hm'. injection Hm' as <-.
    destruct (jsstring_eq_dec a b) as [<- | Hab].
    + exists l'. split; assumption.
    + destruct (in_dec jsstring_eq_dec x l) as [Hin | Hin].
      * destruct (Hold Hin) as [-> _]. apply IH.
      * rewrite (appendOnce_absent _ _ _ _ Hl Hin) in Hm. injection Hm as <-.
        rewrite readList_setItem_other by exact Hab. apply IH.
  - destruct (IH b) as (l & Hl & Hnd). exists l. split; [|exact Hnd].
    unfold readList, getItem, setItem in *.
    rewrite lookup_insert_ne; [exact Hl | apply Hk].
Qed.

End AppendOnce.

Lemma completedKey_inj (a b : jsstring) : Csv.completedKey a = Csv.completedKey b -> a = b.
Proof.
  unfold Csv.completedKey. intros H.
  apply app_inv_head in H. apply app_inv_tail in H. exact H.
Qed.

Lemma watchedKey_inj (a b : jsstring) : Learning.watchedKey a = Learning.watchedKey b -> a = b.
Proof.
  unfold Learning.watchedKey. intros H.
  apply app_inv_head in H. apply app_inv_tail in H. exact H.
Qed.

Lemma markTaskCompleted_appendOnce st courseId taskId :
  Csv.markTaskCompleted st courseId taskId = appendOnce Csv.completedKey st courseId taskId.
Proof. reflexivity. Qed.

Lemma markTopicWatched_appendOnce st lessonId topicId :
  Learning.markTopicWatched st lessonId topicId
  = appendOnce Learning.watchedKey st lessonId topicId.
Proof. reflexivity. Qed.

(** What C10 says of one call of [mark] on the list [l] that [read] finds
    under [a]: the call succeeds, the list read afterwards is
    duplicate-free and holds [x] exactly once, [x] was appended if it was
    absent, nothing changed if it was present, and a second call changes
    nothing. *)
Definition appendsOnce (read : storage -> jsstring -> option (list jsstring))
    (mark : storage -> jsstring -> jsstring -> option storage)
    (st : storage) (a x : jsstring) (l : list jsstring) : Prop :=
  exists st' l',
    mark st a x = Some st'
    /\ read st' a = Some l'
    /\ List.NoDup l'
    /\ count_occ jsstring_eq_dec l' x = 1%nat
    /\ (~ In x l -> l' = l ++ [x])
    /\ (In x l -> st' = st /\ l' = l)
    /\ mark st' a x = Some st'.

(** C10. The persisted completed-task-id list of a course never contains
    a duplicate: from a storage where the list [l] of the course is
    duplicate-free, [markTaskCompleted] leaves a duplicate-free list that
    holds the id exactly once; the id is appended when it was absent,
    storage and list are unchanged when it was present, and a second call
    with the same arguments changes nothing. The list is duplicate-free in
    every storage built from the empty one by such calls and by writes to
    other keys. The same holds for [markTopicWatched] and the watched-topic
    list of a lesson. The storages spoken of are those where the key holds
    nothing, the empty text or the JSON text of an array of strings, which
    are all a run of the program can produce. *)
Theorem completion_lists_no_duplicates (st : storage) (a x : jsstring) (l : list jsstring) :
  (Csv.getCompletedTasks st a = Some l -> List.NoDup l ->
   appendsOnce Csv.getCompletedTasks Csv.markTaskCompleted st a x l)
  /\ (reachable Csv.completedKey st ->
      exists l0, Csv.getCompletedTasks st a = Some l0 /\ List.NoDup l0)
  /\ (Learning.getWatchedTopics st a = Some l -> List.NoDup l ->
      appendsOnce Learning.getWatchedTopics Learning.markTopicWatched st a x l)
  /\ (reachable Learning.watchedKey st ->
      exists l0, Learning.getWatchedTopics st a = Some l0 /\ List.NoDup l0).
Proof.
  split; [|split; [|split]].
  - intros Hl Hnd. apply (appendOnce_spec Csv.completedKey st a x l Hl Hnd).
  - intros Hr. apply (reachable_NoDup Csv.completedKey completedKey_inj st Hr a).
  - intros Hl Hnd. apply (appendOnce_spec Learning.watchedKey st a x l Hl Hnd).
  - intros Hr. apply (reachable_NoDup Learning.watchedKey watchedKey_inj st Hr a).
Qed.

Lemma completion_lists_no_duplicates_witness :
  (Csv.getCompletedTasks ∅ (js "c1") = Some []
   /\ List.NoDup ([] : list jsstring)
   /\ appendsOnce Csv.getCompletedTasks Csv.markTaskCompleted ∅ (js "c1") (js "t1") [])
  /\ (reachable Csv.completedKey ∅
      /\ exists l0, Csv.getCompletedTasks ∅ (js "c1") = Some l0 /\ List.NoDup l0)
  /\ (Learning.getWatchedTopics ∅ (js "c1") = Some []
      /\ List.NoDup ([] : list jsstring)
      /\ appendsOnce Learning.getWatchedTopics Learning.markTopicWatched ∅
           (js "c1") (js "t1") [])
  /\ (reachable Learning.watchedKey ∅
      /\ exists l0, Learning.getWatchedTopics ∅ (js "c1") = Some l0 /\ List.NoDup l0).
Proof.
  destruct (completion_lists_no_duplicates ∅ (js "c1") (js "t1") [])
    as (H1 & H2 & H3 & H4).
  split; [|split; [|split]].
  - split; [reflexivity|]. split; [constructor|]. apply H1; [reflexivity | constructor].
  - split; [constructor|]. apply H2. constructor.
  - split; [reflexivity|]. split; [constructor|]. apply H3; [reflexivity | constructor].
  - split; [constructor|]. apply H4. constructor.
Defined.

(** ** Objects as maps *)

Section Objects.

Context {V : Type}.

Lemma getOwn_None_keys (o : object V) (k : jsstring) :
  getOwn o k = None <-> ~ In k (keys o).
Proof.
  induction o as [|[k' v] o IH]; simpl.
  - tauto.
  - destruct (streq k' k) eqn:E.
    + apply streq_true_iff in E. split; [discriminate | tauto].
    + apply streq_false_iff in E. rewrite IH. tauto.
Qed.

Lemma getOwn_Some_keys (o : object V) (k : jsstring) :
  In k (keys o) <-> exists v, getOwn o k = Some v.
Proof.
  destruct (getOwn o k) as [v|] eqn:E.
  - split; [eauto|]. intros _.
    destruct (in_dec jsstring_eq_dec k (keys o)) as [H | H]; [exact H|].
    apply getOwn_None_keys in H. congruence.
  - split.
    + intros H. apply getOwn_None_keys in E. contradiction.
    + intros [v Hv]. discriminate.
Qed.

Lemma putOwn_fresh (o : object V) (k : jsstring) (v : V) :
  ~ In k (keys o) -> putOwn o k v = o ++ [(k, v)].
Proof.
  induction o as [|[k' w] o IH]; simpl; intros H.
  - reflexivity.
  - destruct (streq k' k) eqn:E.
    + apply streq_true_iff in E. tauto.
    + rewrite IH by tauto. reflexivity.
Qed.

Lemma getOwn_In (o : object V) (k : jsstring) (v : V) :
  getOwn o k = Some v -> In (k, v) o.
Proof.
  induction o as [|[k' w] o IH]; simpl; [discriminate|].
  destruct (streq k' k) eqn:E.
  - apply streq_true_iff in E. intros [= ->]. left. congruence.
  - intros H. right. apply IH, H.
Qed.

Lemma In_getOwn (o : object V) (k : jsstring) (v : V) :
  List.NoDup (keys o) -> In (k, v) o -> getOwn o k = Some v.
Proof.
  induction o as [|[k' w] o IH]; simpl; [tauto|].
  intros Hnd [H | H].
  - injection H as -> ->. rewrite streq_refl. reflexivity.
  - inversion Hnd as [|? ? Hk Hnd']; subst.
    destruct (streq k' k) eqn:E.
    + apply streq_true_iff in E. subst. exfalso. apply Hk.
      apply (in_map fst) in H. exact H.
    + apply IH; assumption.
Qed.

End Objects.

(** ** The unlock scheduler *)

Lemma doWhile_step {A} (body : A -> A) (cond : A -> bool)
    (H : forall s, cond (body s) = true -> cond (body (body s)) = false) (s : A) :
  doWhile body cond H s
  = if cond (body s) then doWhile body cond H (body s) else body s.
Proof.
  rewrite doWhile_equation_1.
  destruct (Loop.inspect (cond (body s))) as [[] e]; simpl; rewrite e; reflexivity.
Qed.

Section Schedule.

Import LessonUnlock.

Variable LocalTZA : Z.

Local Abbreviation nextDay := (LessonUnlock.nextDay LocalTZA).
Local Abbreviation nextNonSunday := (LessonUnlock.nextNonSunday LocalTZA).

(** The loop runs its body once, or twice when the first day reached is a
    Sunday. *)
Lemma nextNonSunday_cases (d : Z) :
  (getDay LocalTZA (nextDay d) <> 0 /\ nextNonSunday d = d + msPerDay)
  \/ (getDay LocalTZA (nextDay d) = 0 /\ nextNonSunday d = d + 2 * msPerDay).
Proof.
  unfold LessonUnlock.nextNonSunday. rewrite doWhile_step.
  destruct (getDay LocalTZA (nextDay d) =? 0) eqn:E.
  - right. rewrite doWhile_step, (sunday_once LocalTZA d E).
    apply Z.eqb_eq in E. split; [exact E | rewrite !nextDay_eq; lia].
  - left. apply Z.eqb_neq in E. split; [exact E | apply nextDay_eq].
Qed.

Lemma nextNonSunday_gt (d : Z) : d < nextNonSunday d.
Proof.
  destruct (nextNonSunday_cases d) as [[_ ->] | [_ ->]]; unfold msPerDay; lia.
Qed.

Lemma nextNonSunday_not_sunday (d : Z) : getDay LocalTZA (nextNonSunday d) <> 0.
Proof.
  destruct (nextNonSunday_cases d) as [[H E] | [H E]]; rewrite E.
  - rewrite <- (nextDay_eq LocalTZA). exact H.
  - replace (d + 2 * msPerDay) with (nextDay (nextDay d))
      by (rewrite !nextDay_eq; lia).
    rewrite getDay_nextDay, H. discriminate.
Qed.

End Schedule.

Section ScheduleShape.

Import LessonUnlock.

Variable LocalTZA : Z.
Variable start : Z.

(** The entries [generateUnlockSchedule] creates, in the order of the
    lessons, from element [index] on. *)
Fixpoint entriesFrom (lessons : list LessonInfo) (index : nat) (currentDate : Z)
  : object ScheduleEntry :=
  match lessons with
  | [] => []
  | l :: more =>
      if (index =? 0)%nat then
        (id l, {| lesson := l; unlockDate := start; isFirstLesson := true |})
          :: entriesFrom more (S index) currentDate
      else
        let c := nextNonSunday LocalTZA currentDate in
        (id l, {| lesson := l; unlockDate := c; isFirstLesson := false |})
          :: entriesFrom more (S index) c
  end.

Definition dates (o : object ScheduleEntry) : list Z :=
  map (fun p => unlockDate (snd p)) o.

Fixpoint nodupb (l : list jsstring) : bool :=
  match l with
  | [] => true
  | x :: l' => negb (includes l' x) && nodupb l'
  end.

Lemma nodupb_NoDup (l : list jsstring) : nodupb l = true -> List.NoDup l.
Proof.
  induction l as [|x l IH]; simpl; intros H; constructor.
  - apply andb_true_iff in H as [H _]. apply negb_true_iff in H.
    apply includes_false_iff, H.
  - apply IH. apply andb_true_iff in H as [_ H]. exact H.
Qed.

Lemma lessonIds_NoDup : List.NoDup (map id generateLessonIds).
Proof. apply nodupb_NoDup. vm_compute. reflexivity. Qed.

Lemma keys_entriesFrom lessons index cur :
  keys (entriesFrom lessons index cur) = map id lessons.
Proof.
  revert index cur. induction lessons as [|l more IH]; intros index cur; simpl.
  - reflexivity.
  - destruct (index =? 0)%nat; simpl; rewrite IH; reflexivity.
Qed.

Lemma scheduleLoop_entries lessons index cur (sch : object ScheduleEntry) :
  List.NoDup (keys sch ++ map id lessons) ->
  scheduleLoop LocalTZA start lessons index cur sch
  = sch ++ entriesFrom lessons index cur.
Proof.
  revert index cur sch.
  induction lessons as [|l more IH]; intros index cur sch Hnd; simpl.
  - rewrite app_nil_r. reflexivity.
  - assert (Hfresh : ~ In (id l) (keys sch)).
    { intros Hin. apply List.NoDup_remove_2 in Hnd. apply Hnd.
      apply in_app_iff. left. exact Hin. }
    assert (Hnd' : forall e, List.NoDup (keys (sch ++ [(id l, e)]) ++ map id more)).
    { intros e. unfold keys. rewrite map_app. simpl.
      rewrite <- app_assoc. exact Hnd. }
    destruct (index =? 0)%nat.
    + rewrite putOwn_fresh by exact Hfresh. rewrite IH by apply Hnd'.
      rewrite <- app_assoc. reflexivity.
    + rewrite putOwn_fresh by exact Hfresh. rewrite IH by apply Hnd'.
      rewrite <- app_assoc. reflexivity.
Qed.

Lemma generateUnlockSchedule_entries :
  generateUnlockSchedule LocalTZA start = entriesFrom generateLessonIds 0 start.
Proof.
  unfold generateUnlockSchedule. rewrite scheduleLoop_entries.
  - reflexivity.
  - exact lessonIds_NoDup.
Qed.

Lemma schedule_keys :
  keys (generateUnlockSchedule LocalTZA start) = map id generateLessonIds.
Proof. rewrite generateUnlockSchedule_entries. apply keys_entriesFrom. Qed.

(** After the first element, every date is past [currentDate], past the
    date before it, and not a Sunday. *)
Lemma dates_after lessons k cur :
  LocallySorted Z.lt (cur :: dates (entriesFrom lessons (S k) cur))
  /\ Forall (fun d => getDay LocalTZA d <> 0) (dates (entriesFrom lessons (S k) cur)).
Proof.
  revert k cur. induction lessons as [|l more IH]; intros k cur; simpl.
  - split; constructor.
  - destruct (IH (S k) (nextNonSunday LocalTZA cur)) as [Hs Hf]. split.
    + constructor; [exact Hs | apply nextNonSunday_gt].
    + constructor; [apply nextNonSunday_not_sunday | exact Hf].
Qed.

Lemma schedule_dates :
  exists rest,
    dates (generateUnlockSchedule LocalTZA start) = start :: rest
    /\ LocallySorted Z.lt (start :: rest)
    /\ Forall (fun d => getDay LocalTZA d <> 0) rest.
Proof.
  rewrite generateUnlockSchedule_entries.
  destruct generateLessonIds as [|l more] eqn:E; [discriminate E|].
  simpl. eexists. split; [reflexivity|]. apply dates_after.
Qed.

(** Each date is at least one day past the date before it. *)
Lemma dates_a_day_apart lessons k cur :
  LocallySorted (fun a b => a + msPerDay <= b)
    (cur :: dates (entriesFrom lessons (S k) cur)).
Proof.
  revert k cur. induction lessons as [|l more IH]; intros k cur; simpl.
  - constructor.
  - constructor; [apply IH|].
    destruct (nextNonSunday_cases LocalTZA cur) as [[_ ->] | [_ ->]];
      unfold msPerDay; lia.
Qed.

Lemma schedule_a_day_apart :
  LocallySorted (fun a b => a + msPerDay <= b)
    (dates (generateUnlockSchedule LocalTZA start)).
Proof.
  rewrite generateUnlockSchedule_entries.
  destruct generateLessonIds as [|l more]; [constructor|]. apply dates_a_day_apart.
Qed.

(** Reading the schedule at its own keys gives the entries, in order. *)
Lemma getOwn_keys {V} (o : object V) :
  List.NoDup (keys o) -> map (getOwn o) (keys o) = map (fun p => Some (snd p)) o.
Proof.
  intros Hnd. unfold keys. rewrite map_map. apply map_ext_in.
  intros [k v] Hin. simpl. apply In_getOwn; assumption.
Qed.

Lemma getMember_own (sch : object ScheduleEntry) k e :
  getOwn sch k = Some e -> getMember sch k = Some (Entry e).
Proof. intros H. unfold getMember. rewrite H. reflexivity. Qed.

End ScheduleShape.

Section Unlock.

Import LessonUnlock.

Variable LocalTZA : Z.

(** The claims' words: a date truncated to local midnight, and the number
    of lessons of the hard-coded chapters. *)
Definition localMidnight (d : Z) : Z := UTC LocalTZA (MakeDate (Day (LocalTime LocalTZA d)) 0).

Definition lessonsInChapter (chapter : nat) : nat :=
  if (chapter =? 1)%nat then 9%nat else if (chapter =? 5)%nat then 11%nat else 10%nat.

Lemma localMidnight_mono (a b : Z) : a <= b -> localMidnight a <= localMidnight b.
Proof.
  intros H. unfold localMidnight, UTC, MakeDate, LocalTime, Day.
  assert (Hd : (a + LocalTZA) / msPerDay <= (b + LocalTZA) / msPerDay).
  { apply Z.div_le_mono; [unfold msPerDay|]; lia. }
  unfold msPerDay in *. lia.
Qed.

Lemma localMidnight_lt (a b : Z) :
  Day (LocalTime LocalTZA a) < Day (LocalTime LocalTZA b) -> localMidnight a < localMidnight b.
Proof. unfold localMidnight, UTC, MakeDate, msPerDay. lia. Qed.

Lemma schedule_NoDup (start : Z) :
  List.NoDup (keys (generateUnlockSchedule LocalTZA start)).
Proof. rewrite schedule_keys. apply lessonIds_NoDup. Qed.

Lemma isLessonUnlockedById_entry (this : LessonUnlockSystem) lessonId e currentDate :
  getOwn (unlockSchedule this) lessonId = Some e ->
  isLessonUnlockedById LocalTZA this lessonId currentDate
  = (localMidnight (unlockDate e) <=? localMidnight currentDate, []).
Proof.
  intros H. unfold isLessonUnlockedById. rewrite (getMember_own _ _ _ H). reflexivity.
Qed.

(** The fallback the source documents: a lesson that is neither in the
    schedule nor the name of an inherited member is unlocked, with a
    warning. *)
Lemma isLessonUnlockedById_fallback (this : LessonUnlockSystem) lessonId currentDate :
  ~ In lessonId (keys (unlockSchedule this)) ->
  inheritedName lessonId = false ->
  isLessonUnlockedById LocalTZA this lessonId currentDate
  = (true, [LessonNotInSchedule lessonId]).
Proof.
  intros Hk Hi. apply getOwn_None_keys in Hk.
  unfold isLessonUnlockedById, getMember. rewrite Hk, Hi. reflexivity.
Qed.

Lemma someUnlocked_true_iff (this : LessonUnlockSystem) lessons currentDate :
  fst (someUnlocked LocalTZA this lessons currentDate) = true
  <-> exists l, In l lessons
        /\ fst (isLessonUnlockedById LocalTZA this (Csv.lesson_id l) currentDate) = true.
Proof.
  induction lessons as [|l more IH]; simpl.
  - split; [discriminate | intros (l & [] & _)].
  - destruct (isLessonUnlockedById LocalTZA this (Csv.lesson_id l) currentDate)
      as [unlocked w] eqn:E.
    destruct unlocked; simpl.
    + split; [|reflexivity]. intros _. exists l. rewrite E. tauto.
    + destruct (someUnlocked LocalTZA this more currentDate) as [r w'] eqn:E'.
      simpl in *. rewrite IH. split.
      * intros (l' & Hin & Hl'). exists l'. tauto.
      * intros (l' & [<- | Hin] & Hl').
        -- rewrite E in Hl'. discriminate.
        -- exists l'. tauto.
Qed.

End Unlock.

Section Entries.

Import LessonUnlock.

Variable LocalTZA : Z.
Variable start : Z.

Definition les_1_1 : LessonInfo :=
  {| id := js "les_1_1"; chapterNumber := 1; lessonNumber := 1; globalIndex := 0 |}.

Definition les_1_2 : LessonInfo :=
  {| id := js "les_1_2"; chapterNumber := 1; lessonNumber := 2; globalIndex := 1 |}.

Lemma first_lessons : generateLessonIds = les_1_1 :: les_1_2 :: skipn 2 generateLessonIds.
Proof. vm_compute. reflexivity. Qed.

Lemma entriesFrom_two (l1 l2 : LessonInfo) (more : list LessonInfo) (cur : Z) :
  entriesFrom LocalTZA start (l1 :: l2 :: more) 0 cur
  = (id l1, {| lesson := l1; unlockDate := start; isFirstLesson := true |})
    :: (id l2, {| lesson := l2; unlockDate := nextNonSunday LocalTZA cur;
                  isFirstLesson := false |})
    :: entriesFrom LocalTZA start more 2 (nextNonSunday LocalTZA cur).
Proof. reflexivity. Qed.

Lemma first_entries :
  generateUnlockSchedule LocalTZA start
  = (js "les_1_1", {| lesson := les_1_1; unlockDate := start; isFirstLesson := true |})
    :: (js "les_1_2", {| lesson := les_1_2;
                         unlockDate := nextNonSunday LocalTZA start;
                         isFirstLesson := false |})
    :: entriesFrom LocalTZA start (skipn 2 generateLessonIds) 2
         (nextNonSunday LocalTZA start).
Proof.
  rewrite generateUnlockSchedule_entries. rewrite first_lessons at 1.
  apply entriesFrom_two.
Qed.

Lemma unlockSchedule_new :
  unlockSchedule (new LocalTZA start) = generateUnlockSchedule LocalTZA start.
Proof. reflexivity. Qed.

Lemma getOwn_first {V} (k : jsstring) (v : V) (o : object V) :
  getOwn ((k, v) :: o) k = Some v.
Proof. simpl. rewrite streq_refl. reflexivity. Qed.

Lemma getOwn_second {V} (k1 k2 : jsstring) (v1 v2 : V) (o : object V) :
  streq k1 k2 = false -> getOwn ((k1, v1) :: (k2, v2) :: o) k2 = Some v2.
Proof. intros H. simpl. rewrite H, streq_refl. reflexivity. Qed.

Lemma first_entry :
  getOwn (unlockSchedule (new LocalTZA start)) (js "les_1_1")
  = Some {| lesson := les_1_1; unlockDate := start; isFirstLesson := true |}.
Proof. rewrite unlockSchedule_new, first_entries. apply getOwn_first. Qed.

Lemma second_entry :
  getOwn (unlockSchedule (new LocalTZA start)) (js "les_1_2")
  = Some {| lesson := les_1_2; unlockDate := nextNonSunday LocalTZA start;
            isFirstLesson := false |}.
Proof.
  rewrite unlockSchedule_new, first_entries. apply getOwn_second.
  vm_compute. reflexivity.
Qed.

End Entries.

(** C9. For every chapter number, every sequence of lessons and every
    reference date, [isChapterUnlocked] is true exactly when at least one
    lesson of the sequence is unlocked as of that date; it is false for
    the empty sequence, and the chapter number plays no part. *)
Theorem isChapterUnlocked_iff_some_lesson (LocalTZA : Z)
    (this : LessonUnlock.LessonUnlockSystem) (chapterNumber : Z)
    (lessons : list Csv.Lesson) (currentDate : Z) :
  (fst (LessonUnlock.isChapterUnlocked LocalTZA this chapterNumber lessons currentDate) = true
   <-> exists l, In l lessons
         /\ fst (LessonUnlock.isLessonUnlockedById LocalTZA this (Csv.lesson_id l) currentDate) = true)
  /\ LessonUnlock.isChapterUnlocked LocalTZA this chapterNumber [] currentDate = (false, [])
  /\ (forall otherNumber : Z,
        LessonUnlock.isChapterUnlocked LocalTZA this otherNumber lessons currentDate
        = LessonUnlock.isChapterUnlocked LocalTZA this chapterNumber lessons currentDate).
Proof.
  split; [|split].
  - apply someUnlocked_true_iff.
  - reflexivity.
  - intros otherNumber. reflexivity.
Qed.

(** C4. For every lesson id of the generated schedule and every reference
    date, [isLessonUnlockedById] is true exactly when the date truncated to
    local midnight is on or after the unlock date truncated to local
    midnight, and nothing is written to the console; so it is true on or
    after the unlock date, false on any earlier local day, and true for the
    first lesson on the course start date. *)
Theorem isLessonUnlocked_at_day_granularity (LocalTZA start : Z)
    (lessonId : jsstring) (currentDate : Z) :
  let this := LessonUnlock.new LocalTZA start in
  In lessonId (keys (LessonUnlock.unlockSchedule this)) ->
  (exists unlock,
     LessonUnlock.getLessonUnlockDate this lessonId = Some (Some unlock)
     /\ LessonUnlock.isLessonUnlockedById LocalTZA this lessonId currentDate
        = (localMidnight LocalTZA unlock <=? localMidnight LocalTZA currentDate, [])
     /\ (fst (LessonUnlock.isLessonUnlockedById LocalTZA this lessonId currentDate) = true
         <-> localMidnight LocalTZA unlock <= localMidnight LocalTZA currentDate)
     /\ (unlock <= currentDate ->
         fst (LessonUnlock.isLessonUnlockedById LocalTZA this lessonId currentDate) = true)
     /\ (Day (LocalTime LocalTZA currentDate) < Day (LocalTime LocalTZA unlock) ->
         fst (LessonUnlock.isLessonUnlockedById LocalTZA this lessonId currentDate) = false))
  /\ LessonUnlock.isLessonUnlockedById LocalTZA this (js "les_1_1")
       (LessonUnlock.courseStartDate this) = (true, []).
Proof.
  intros this Hin. split.
  - apply getOwn_Some_keys in Hin as [e He]. exists (LessonUnlock.unlockDate e).
    rewrite (isLessonUnlockedById_entry LocalTZA this lessonId e currentDate He).
    unfold LessonUnlock.getLessonUnlockDate.
    rewrite (getMember_own _ _ _ He). cbn [LessonUnlock.unlockDateOf fst].
    split; [reflexivity|]. split; [reflexivity|].
    split; [apply Z.leb_le|]. split.
    + intros H. apply Z.leb_le, localMidnight_mono, H.
    + intros H. apply Z.leb_gt, localMidnight_lt, H.
  - rewrite (isLessonUnlockedById_entry LocalTZA this _ _ _ (first_entry LocalTZA start)).
    cbn [LessonUnlock.unlockDate LessonUnlock.courseStartDate this LessonUnlock.new].
    rewrite Z.leb_refl. reflexivity.
Qed.

Section ScheduleOrder.

Import LessonUnlock.

Variable LocalTZA : Z.
Variable start : Z.

Lemma getLessonUnlockDate_key (k : jsstring) (e : ScheduleEntry) :
  In (k, e) (generateUnlockSchedule LocalTZA start) ->
  getLessonUnlockDate (new LocalTZA start) k = Some (Some (unlockDate e)).
Proof.
  intros Hin. unfold getLessonUnlockDate. rewrite unlockSchedule_new.
  rewrite (getMember_own _ k e); [reflexivity|].
  apply In_getOwn; [apply schedule_NoDup | exact Hin].
Qed.

Lemma unlock_dates_in_order :
  map (fun l => getLessonUnlockDate (new LocalTZA start) (id l)) generateLessonIds
  = map (fun d => Some (Some d)) (dates (generateUnlockSchedule LocalTZA start)).
Proof.
  rewrite <- (map_map id (getLessonUnlockDate (new LocalTZA start))).
  rewrite <- (schedule_keys LocalTZA start).
  unfold keys, dates. rewrite !map_map. apply map_ext_in.
  intros [k e] Hin. apply getLessonUnlockDate_key, Hin.
Qed.

(** Thursday 2025-07-24 at midnight UTC is a Thursday or a Friday in every
    time zone, and so is not followed by a Sunday. *)
Lemma second_date :
  -43200000 <= LocalTZA <= 50400000 ->
  nextNonSunday LocalTZA (dateOnly 2025 7 24) = dateOnly 2025 7 25.
Proof.
  intros Htz.
  destruct (nextNonSunday_cases LocalTZA (dateOnly 2025 7 24)) as [[_ ->] | [H _]].
  - vm_compute. reflexivity.
  - exfalso. rewrite nextDay_eq in H.
    change (dateOnly 2025 7 24 + msPerDay) with 1753401600000 in H.
    unfold getDay, WeekDay, LocalTime, Day, msPerDay in H.
    Z.to_euclidean_division_equations. lia.
Qed.

End ScheduleOrder.

(** The local calendar date of a time value, as [toDateString] shows it:
    [getFullYear()], [getMonth() + 1] and [getDate()]. *)
Definition localDate (LocalTZA d : Z) : Z * Z * Z := isoDate (LocalTime LocalTZA d).

Lemma LocallySorted_map {A B} (R : A -> A -> Prop) (R' : B -> B -> Prop) (f : A -> B)
    (l : list A) :
  (forall a b, R a b -> R' (f a) (f b)) ->
  LocallySorted R l -> LocallySorted R' (map f l).
Proof.
  intros Hf Hl. induction Hl as [|a|a b l Hl IH Hab]; simpl.
  - constructor.
  - constructor.
  - constructor; [exact IH | apply Hf, Hab].
Qed.

(** A day later in time is a later local calendar day. *)
Lemma localMidnight_next_day (LocalTZA a b : Z) :
  a + msPerDay <= b -> localMidnight LocalTZA a < localMidnight LocalTZA b.
Proof.
  intros H. apply localMidnight_lt. unfold LocalTime, Day.
  assert (Hd : (a + LocalTZA + 1 * msPerDay) / msPerDay <= (b + LocalTZA) / msPerDay).
  { apply Z.div_le_mono; [unfold msPerDay|]; lia. }
  rewrite Z.div_add in Hd by (unfold msPerDay; lia). lia.
Qed.

(** The calendar date depends on the day number only. *)
Lemma isoDate_of_Day (t n : Z) : Day t = n -> isoDate t = isoDate (n * msPerDay).
Proof.
  intros H. unfold isoDate, DateFromTime, MonthFromTime, YearFromTime.
  assert (E : Day (n * msPerDay) = n).
  { unfold Day. apply Z.div_mul. unfold msPerDay. lia. }
  rewrite E, H. reflexivity.
Qed.

(** The local dates of the instants of 24 and 25 July 2025, midnight UTC:
    the same dates in a zone at or ahead of UTC, the dates before them in
    a zone behind UTC. *)
Lemma localDate_ahead (LocalTZA : Z) :
  0 <= LocalTZA <= 50400000 ->
  localDate LocalTZA (dateOnly 2025 7 24) = (2025, 7, 24)
  /\ localDate LocalTZA (dateOnly 2025 7 25) = (2025, 7, 25).
Proof.
  intros H. unfold localDate. split.
  - rewrite (isoDate_of_Day _ 20293); [vm_compute; reflexivity|].
    change (dateOnly 2025 7 24) with 1753315200000.
    unfold LocalTime, Day, msPerDay. Z.to_euclidean_division_equations. lia.
  - rewrite (isoDate_of_Day _ 20294); [vm_compute; reflexivity|].
    change (dateOnly 2025 7 25) with 1753401600000.
    unfold LocalTime, Day, msPerDay. Z.to_euclidean_division_equations. lia.
Qed.

Lemma localDate_behind (LocalTZA : Z) :
  -43200000 <= LocalTZA < 0 ->
  localDate LocalTZA (dateOnly 2025 7 24) = (2025, 7, 23)
  /\ localDate LocalTZA (dateOnly 2025 7 25) = (2025, 7, 24).
Proof.
  intros H. unfold localDate. split.
  - rewrite (isoDate_of_Day _ 20292); [vm_compute; reflexivity|].
    change (dateOnly 2025 7 24) with 1753315200000.
    unfold LocalTime, Day, msPerDay. Z.to_euclidean_division_equations. lia.
  - rewrite (isoDate_of_Day _ 20293); [vm_compute; reflexivity|].
    change (dateOnly 2025 7 25) with 1753401600000.
    unfold LocalTime, Day, msPerDay. Z.to_euclidean_division_equations. lia.
Qed.

Lemma first_two_unlock_dates (LocalTZA : Z) :
  -43200000 <= LocalTZA <= 50400000 ->
  LessonUnlock.getLessonUnlockDate (LessonUnlock.lessonUnlockSystem LocalTZA)
    (js "les_1_1") = Some (Some (dateOnly 2025 7 24))
  /\ LessonUnlock.getLessonUnlockDate (LessonUnlock.lessonUnlockSystem LocalTZA)
       (js "les_1_2") = Some (Some (dateOnly 2025 7 25)).
Proof.
  intros Htz. unfold LessonUnlock.lessonUnlockSystem, LessonUnlock.getLessonUnlockDate.
  rewrite (getMember_own _ _ _ (first_entry LocalTZA _)).
  rewrite (getMember_own _ _ _ (second_entry LocalTZA _)).
  cbn [LessonUnlock.unlockDateOf LessonUnlock.unlockDate].
  rewrite (second_date LocalTZA Htz). split; reflexivity.
Qed.

(** C2 as it is stated, for the two dates it names: in every time zone,
    [les_1_1] of the exported system unlocks on the local date
    2025-07-24. *)
Definition firstLessonOn24July : Prop :=
  forall LocalTZA, -43200000 <= LocalTZA <= 50400000 ->
    exists d,
      LessonUnlock.getLessonUnlockDate (LessonUnlock.lessonUnlockSystem LocalTZA)
        (js "les_1_1") = Some (Some d)
      /\ localDate LocalTZA d = (2025, 7, 24).

(** The same claim read in the UTC calendar: no lesson after the first has
    an unlock date that is a Sunday in UTC. *)
Definition noSundayInUTC : Prop :=
  forall LocalTZA lessonId d, -43200000 <= LocalTZA <= 50400000 ->
    lessonId <> js "les_1_1" ->
    LessonUnlock.getLessonUnlockDate (LessonUnlock.lessonUnlockSystem LocalTZA) lessonId
    = Some (Some d) ->
    WeekDay d <> 0.




Lemma isLessonUnlocked_at_day_granularity_witness :
  In (js "les_1_2")
     (keys (LessonUnlock.unlockSchedule (LessonUnlock.new 19800000 (dateOnly 2025 7 24))))
  /\ fst (LessonUnlock.isLessonUnlockedById 19800000
            (LessonUnlock.new 19800000 (dateOnly 2025 7 24)) (js "les_1_2")
            (dateOnly 2025 7 24)) = false
  /\ fst (LessonUnlock.isLessonUnlockedById 19800000
            (LessonUnlock.new 19800000 (dateOnly 2025 7 24)) (js "les_1_2")
            (dateOnly 2025 7 25)) = true.
Proof.
  assert (Hin : In (js "les_1_2")
                  (keys (LessonUnlock.unlockSchedule
                           (LessonUnlock.new 19800000 (dateOnly 2025 7 24))))).
  { rewrite unlockSchedule_new, schedule_keys. apply includes_In.
    vm_compute. reflexivity. }
  split; [exact Hin|]. split.
  - destruct (isLessonUnlocked_at_day_granularity 19800000 (dateOnly 2025 7 24)
                (js "les_1_2") (dateOnly 2025 7 24) Hin)
      as [(unlock & Hu & _ & _ & _ & Hbefore) _].
    apply Hbefore.
    unfold LessonUnlock.getLessonUnlockDate in Hu.
    rewrite (getMember_own _ _ _ (second_entry 19800000 _)) in Hu.
    cbn [LessonUnlock.unlockDateOf LessonUnlock.unlockDate] in Hu.
    rewrite second_date in Hu by lia. injection Hu as <-.
    vm_compute. reflexivity.
  - destruct (isLessonUnlocked_at_day_granularity 19800000 (dateOnly 2025 7 24)
                (js "les_1_2") (dateOnly 2025 7 25) Hin)
      as [(unlock & Hu & _ & _ & Hafter & _) _].
    apply Hafter.
    unfold LessonUnlock.getLessonUnlockDate in Hu.
    rewrite (getMember_own _ _ _ (second_entry 19800000 _)) in Hu.
    cbn [LessonUnlock.unlockDateOf LessonUnlock.unlockDate] in Hu.
    rewrite second_date in Hu by lia. injection Hu as <-.
    lia.
Defined.

(** The exported [isLessonUnlocked] is the test on the system started on
    2025-07-24. *)
Lemma isLessonUnlocked_exported (LocalTZA : Z) (lessonId : jsstring) (currentDate : Z) :
  LessonUnlock.isLessonUnlocked LocalTZA lessonId currentDate
  = LessonUnlock.isLessonUnlockedById LocalTZA
      (LessonUnlock.new LocalTZA (dateOnly 2025 7 24)) lessonId currentDate.
Proof. reflexivity. Qed.

(** C5, at the id [constructor]. The id is not a key of the generated
    schedule, yet the lookup finds the member of that name inherited from
    [Object.prototype]: the fallback is skipped, the lesson is reported
    locked at every date, and no warning is written. *)
Theorem isLessonUnlocked_inherited_name_locked (LocalTZA start currentDate : Z) :
  ~ In (js "constructor")
       (keys (LessonUnlock.unlockSchedule (LessonUnlock.new LocalTZA start)))
  /\ LessonUnlock.isLessonUnlockedById LocalTZA (LessonUnlock.new LocalTZA start)
       (js "constructor") currentDate = (false, []).
Proof.
  assert (Hk : ~ In (js "constructor")
                 (keys (LessonUnlock.unlockSchedule (LessonUnlock.new LocalTZA start)))).
  { rewrite unlockSchedule_new, schedule_keys. apply includes_false_iff.
    vm_compute. reflexivity. }
  split; [exact Hk|].
  apply getOwn_None_keys in Hk.
  unfold LessonUnlock.isLessonUnlockedById, LessonUnlock.getMember.
  rewrite Hk. reflexivity.
Qed.

(** ** Lesson completion on the chapter page *)

Lemma In_setOf_acc (l acc : list jsstring) (x : jsstring) :
  In x (fold_left (fun acc x => if includes acc x then acc else acc ++ [x]) l acc)
  <-> In x acc \/ In x l.
Proof.
  revert acc. induction l as [|y l IH]; intros acc; simpl.
  - tauto.
  - rewrite IH. destruct (includes acc y) eqn:E.
    + apply includes_In in E. split; [tauto|].
      intros [H | [<- | H]]; tauto.
    + rewrite in_app_iff. simpl. tauto.
Qed.

Lemma In_setOf (l : list jsstring) (x : jsstring) : In x (setOf l) <-> In x l.
Proof. unfold setOf. rewrite In_setOf_acc. simpl. tauto. Qed.

Lemma filter_length_all {A} (f : A -> bool) (l : list A) :
  length (List.filter f l) = length l <-> forall x, In x l -> f x = true.
Proof.
  induction l as [|a l IH]; simpl.
  - split; [intros _ x [] | reflexivity].
  - pose proof (List.filter_length_le f l) as Hle.
    destruct (f a) eqn:E; simpl.
    + split.
      * intros H x [<- | Hx]; [exact E|]. apply IH; [lia | exact Hx].
      * intros H. f_equal. apply IH. intros x Hx. apply H. right. exact Hx.
    + split; [lia|]. intros H. specialize (H a (or_introl eq_refl)). congruence.
Qed.

Section Completion.

Import ChapterPage.

Variable courseId : jsstring.
Variable localStorage sessionStorage : storage.
Variable lessonHasLearning : object bool.

Local Abbreviation getLessonCompletedTasks :=
  (ChapterPage.getLessonCompletedTasks courseId localStorage sessionStorage).
Local Abbreviation isLessonFullyComplete :=
  (ChapterPage.isLessonFullyComplete courseId localStorage sessionStorage lessonHasLearning).

(** The merged list holds exactly the ids of the two stored lists. *)
Lemma allCompletedTasks_union (merged : list jsstring) :
  allCompletedTasks courseId localStorage sessionStorage = Some merged ->
  exists localTasks sessionTasks,
    parseList (getItem localStorage (Csv.completedKey courseId)) = Some localTasks
    /\ Csv.getCompletedTasks sessionStorage courseId = Some sessionTasks
    /\ forall x, In x merged <-> In x localTasks \/ In x sessionTasks.
Proof.
  unfold allCompletedTasks.
  destruct (parseList (getItem localStorage (Csv.completedKey courseId)))
    as [localTasks|]; [|discriminate].
  destruct (Csv.getCompletedTasks sessionStorage courseId)
    as [sessionTasks|]; [|discriminate].
  intros [= <-]. exists localTasks, sessionTasks.
  split; [reflexivity|]. split; [reflexivity|].
  intros x. rewrite In_setOf, in_app_iff. tauto.
Qed.

(** The count of [calculateProgress] over the filtered list reaches the
    number of tasks exactly when every task id is in the merged list. *)
Lemma all_tasks_counted (lesson : Csv.Lesson) (merged : list jsstring) :
  Csv.completedTasks
    (Csv.calculateProgress (Csv.tasks lesson)
       (List.filter (fun taskId => includes (map Csv.id (Csv.tasks lesson)) taskId) merged))
  = Z.of_nat (length (Csv.tasks lesson))
  <-> forall t, In t (Csv.tasks lesson) -> In (Csv.id t) merged.
Proof.
  unfold Csv.calculateProgress; simpl. rewrite Nat2Z.inj_iff, filter_length_all.
  split; intros H t Ht.
  - specialize (H t Ht). apply includes_In, filter_In in H. tauto.
  - apply includes_In, filter_In. split; [apply H, Ht|].
    apply includes_In, in_map, Ht.
Qed.

(** The lesson card: for a mixed lesson, [isLessonFullyComplete] is true
    exactly when every task id is in the merged completed list or learning
    is done (the flag of the lesson, or its id in the completed-lesson
    list). *)
Lemma isLessonFullyComplete_mixed (lesson : Csv.Lesson) (merged doneLessons : list jsstring) :
  allCompletedTasks courseId localStorage sessionStorage = Some merged ->
  getCompletedLessonsList courseId localStorage = Some doneLessons ->
  hasTasks lesson = true ->
  hasLearning localStorage lessonHasLearning doneLessons lesson = true ->
  exists b,
    isLessonFullyComplete lesson = Some b
    /\ (b = true <->
        (forall t, In t (Csv.tasks lesson) -> In (Csv.id t) merged)
        \/ isLessonLearningDone localStorage (Csv.lesson_id lesson) = true
        \/ In (Csv.lesson_id lesson) doneLessons).
Proof.
  intros Hm Hd Ht Hl. unfold ChapterPage.isLessonFullyComplete, ChapterPage.getLessonCompletedTasks.
  rewrite Hm, Hd, Ht, Hl. cbn [andb]. eexists. split; [reflexivity|].
  rewrite orb_true_iff, andb_true_iff, Z.eqb_eq, all_tasks_counted.
  unfold hasTasks in Ht. unfold learningDone.
  rewrite orb_true_iff, includes_In. tauto.
Qed.

End Completion.

(** The state of C3's failing input: course [c1], one lesson [L1] with one
    task and learning content, whose learning-done flag is set while the
    completed-lesson list of the course does not hold it; no task is
    completed. *)
Definition flagOnlyLesson : Csv.Lesson :=
  {| Csv.lesson_id := js "L1"; Csv.lesson_name := js "Lesson 1";
     Csv.lesson_chapterId := js "ch1"; Csv.lesson_courseId := js "c1";
     Csv.tasks :=
       [{| Csv.id := js "t1"; Csv.title := js "Task 1"; Csv.scenario := [];
           Csv.lessonId := js "L1"; Csv.chapterId := js "ch1"; Csv.courseId := js "c1";
           Csv.resources := {| Csv.pdfs := []; Csv.forms := []; Csv.answerKey := [] |};
           Csv.xp := 10; Csv.instructions := None |}] |}.

Definition flagOnlyChapter : Csv.Chapter :=
  {| Csv.chapter_id := js "ch1"; Csv.chapter_name := js "Chapter 1";
     Csv.chapter_courseId := js "c1"; Csv.lessons := [flagOnlyLesson] |}.

Definition flagOnlyStorage : storage :=
  setItem ∅ (js "lesson_L1_learningDone") (Text (js "true")).

(** C3, at the failing input. The lesson is mixed and its learning is done
    (flag set), so the claim makes it complete. The lesson card
    ([isLessonFullyComplete]) agrees; the chapter header
    ([computeLessonLevelCompletion]) tests the completed-lesson list only
    and counts the lesson as not complete. *)
Theorem mixed_lesson_flag_only_divergence :
  ChapterPage.hasTasks flagOnlyLesson = true
  /\ ChapterPage.hasLearning flagOnlyStorage [(js "L1", true)] [] flagOnlyLesson = true
  /\ ChapterPage.isLessonLearningDone flagOnlyStorage (js "L1") = true
  /\ ChapterPage.isLessonFullyComplete (js "c1") flagOnlyStorage ∅ [(js "L1", true)]
       flagOnlyLesson = Some true
  /\ ChapterPage.isComplete (js "c1") flagOnlyStorage ∅ [(js "L1", true)] []
       flagOnlyLesson = Some false
  /\ ChapterPage.computeLessonLevelCompletion (js "c1") flagOnlyStorage ∅
       [(js "L1", true)] (Some flagOnlyChapter)
     = Some {| ChapterPage.completedLessonCount := 0;
               ChapterPage.totalLessonCount := 1;
               ChapterPage.percentage := 0%Q |}.
Proof. vm_compute. repeat split. Qed.

(** A second way in which the chapter header departs from the lesson
    card: it compares the number of distinct completed ids with the number
    of tasks, so a lesson whose two tasks share an id is never
    task-complete there, although every task id is completed. *)
Definition twinTask : Csv.Task :=
  {| Csv.id := js "t1"; Csv.title := js "Task"; Csv.scenario := [];
     Csv.lessonId := js "L1"; Csv.chapterId := js "ch1"; Csv.courseId := js "c1";
     Csv.resources := {| Csv.pdfs := []; Csv.forms := []; Csv.answerKey := [] |};
     Csv.xp := 10; Csv.instructions := None |}.

Definition twinLesson : Csv.Lesson :=
  {| Csv.lesson_id := js "L1"; Csv.lesson_name := js "Lesson 1";
     Csv.lesson_chapterId := js "ch1"; Csv.lesson_courseId := js "c1";
     Csv.tasks := [twinTask; twinTask] |}.

Example shared_task_id_divergence :
  let localStorage := setItem ∅ (Csv.completedKey (js "c1")) (JSONArray [js "t1"]) in
  ChapterPage.isLessonFullyComplete (js "c1") localStorage ∅ [(js "L1", true)] twinLesson
  = Some true
  /\ ChapterPage.isComplete (js "c1") localStorage ∅ [(js "L1", true)] [] twinLesson
     = Some false.
Proof. vm_compute. split; reflexivity. Qed.

(** ** Task rows *)

(** The position of the last field of [hs] equal to [h]: with a header
    name that occurs twice, the later column overwrites the property. *)
Fixpoint lastIndex (h : jsstring) (hs : list jsstring) : option nat :=
  match hs with
  | [] => None
  | h' :: more =>
      match lastIndex h more with
      | Some j => Some (S j)
      | None => if streq h' h then Some 0%nat else None
      end
  end.

Lemma lastIndex_None (h : jsstring) (hs : list jsstring) :
  ~ In h hs -> lastIndex h hs = None.
Proof.
  induction hs as [|h' more IH]; intros Hn; [reflexivity|].
  cbn [lastIndex]. rewrite IH by (intros H; apply Hn; right; exact H).
  destruct (streq h' h) eqn:E; [|reflexivity].
  apply streq_true_iff in E. exfalso. apply Hn. left. exact E.
Qed.

(** [lastIndex] finds the column [j] headed [h] that no column headed [h]
    follows. *)
Lemma lastIndex_last (h : jsstring) (hs : list jsstring) (j : nat) :
  nth_error hs j = Some h ->
  (forall k, (j < k)%nat -> nth_error hs k <> Some h) ->
  lastIndex h hs = Some j.
Proof.
  revert j. induction hs as [|h' more IH]; intros j Hj Hlast.
  - destruct j; discriminate Hj.
  - cbn [lastIndex]. destruct j as [|j]; simpl in Hj.
    + injection Hj as ->. rewrite lastIndex_None, streq_refl; [reflexivity|].
      intros Hin. apply In_nth_error in Hin as [k Hk].
      apply (Hlast (S k)); [lia | exact Hk].
    + rewrite (IH j Hj); [reflexivity|].
      intros k Hk. apply (Hlast (S k)). lia.
Qed.

Section TaskRows.

Import Csv.

Lemma getOwn_putOwn {V} (o : object V) (k k' : jsstring) (v : V) :
  getOwn (putOwn o k v) k' = if streq k k' then Some v else getOwn o k'.
Proof.
  induction o as [|[k0 w] o IH]; simpl.
  - reflexivity.
  - destruct (streq k0 k) eqn:E; simpl.
    + apply streq_true_iff in E. subst k0.
      destruct (streq k k'); reflexivity.
    + rewrite IH. destruct (streq k0 k') eqn:E'; [|reflexivity].
      apply streq_true_iff in E'. subst k0.
      apply streq_false_iff in E.
      assert (E2 : streq k k' = false) by (apply streq_false_iff; congruence).
      rewrite E2. reflexivity.
Qed.

Lemma xp_not_proto : streq (js "xp") (js "__proto__") = false.
Proof. reflexivity. Qed.

Lemma getOwn_setProp_xp (o : TaskRow) (v : jsvalue) :
  getOwn (setProp o (js "xp") v) (js "xp") = Some v.
Proof.
  unfold setProp. rewrite xp_not_proto, getOwn_putOwn, streq_refl. reflexivity.
Qed.

Lemma getOwn_setProp_other (o : TaskRow) (k k' : jsstring) (v : jsvalue) :
  streq k k' = false -> getOwn (setProp o k v) k' = getOwn o k'.
Proof.
  intros H. unfold setProp. destruct (streq k (js "__proto__")); [reflexivity|].
  rewrite getOwn_putOwn, H. reflexivity.
Qed.

Lemma instructions_not_xp : streq (js "instructions") (js "xp") = false.
Proof. reflexivity. Qed.

(** The xp property after the headers from [index] on: the number of the
    cell under the last of them that is [xp], or what the row object had
    when none is. *)
Lemma fillRow_xp (rawHeaders : list jsstring) (index : nat) (row : list jsstring)
    (task : TaskRow) :
  getOwn (fillRow rawHeaders index row task) (js "xp")
  = match lastIndex (js "xp") rawHeaders with
    | Some j => Some (VNumber (orZero (parseInt (nth (index + j) row []))))
    | None => getOwn task (js "xp")
    end.
Proof.
  revert index task. induction rawHeaders as [|header more IH]; intros index task.
  - reflexivity.
  - cbn [fillRow lastIndex]. cbv zeta. rewrite IH.
    destruct (lastIndex (js "xp") more) as [j|].
    + replace (S index + j)%nat with (index + S j)%nat by lia. reflexivity.
    + destruct (streq header (js "xp")) eqn:E.
      * apply streq_true_iff in E. subst header.
        rewrite getOwn_setProp_xp, Nat.add_0_r. reflexivity.
      * apply getOwn_setProp_other, E.
Qed.

(** The xp property of the typed row of [row]. *)
Lemma parseTaskRows_xp (headerRow : list jsstring) (rows : list (list jsstring))
    (i : nat) (row : list jsstring) :
  nth_error rows i = Some row ->
  exists task,
    nth_error (parseTaskRows (headerRow :: rows)) i = Some task
    /\ getOwn task (js "xp")
       = option_map (fun j => VNumber (orZero (parseInt (nth j row []))))
           (lastIndex (js "xp") (map trim headerRow)).
Proof.
  intros Hrow. unfold parseTaskRows. rewrite nth_error_map, Hrow. cbn [option_map].
  eexists. split; [reflexivity|].
  assert (E : getOwn (fillRow (map trim headerRow) 0 row []) (js "xp")
              = option_map (fun j => VNumber (orZero (parseInt (nth j row []))))
                  (lastIndex (js "xp") (map trim headerRow))).
  { rewrite fillRow_xp.
    destruct (lastIndex (js "xp") (map trim headerRow)); reflexivity. }
  destruct (negb (hasProp (fillRow (map trim headerRow) 0 row []) (js "instructions")));
    [|exact E].
  rewrite getOwn_setProp_other by apply instructions_not_xp. exact E.
Qed.

(** *** The sign of a parsed number *)

Lemma digitValue_nonneg (c : N) (d : Z) : digitValue c = Some d -> 0 <= d.
Proof.
  unfold digitValue.
  destruct (N.leb 0x30 c && N.leb c 0x39) eqn:E1.
  { apply andb_true_iff in E1 as [H1 _]. apply N.leb_le in H1. intros [= <-]. lia. }
  destruct (N.leb 0x61 c && N.leb c 0x7A) eqn:E2.
  { apply andb_true_iff in E2 as [H1 _]. apply N.leb_le in H1. intros [= <-]. lia. }
  destruct (N.leb 0x41 c && N.leb c 0x5A) eqn:E3; [|discriminate].
  apply andb_true_iff in E3 as [H1 _]. apply N.leb_le in H1. intros [= <-]. lia.
Qed.

Lemma radixDigits_nonneg (radix : Z) (s : jsstring) :
  Forall (fun d => 0 <= d) (radixDigits radix s).
Proof.
  induction s as [|c s IH]; simpl; [constructor|].
  destruct (digitValue c) as [d|] eqn:E; [|constructor].
  destruct (d <? radix); constructor; [eapply digitValue_nonneg, E | exact IH].
Qed.

Lemma mathInt_nonneg (radix : Z) (digits : list Z) :
  0 <= radix -> Forall (fun d => 0 <= d) digits -> 0 <= mathInt radix digits.
Proof.
  intros Hr Hd. unfold mathInt.
  assert (G : forall acc, 0 <= acc ->
                0 <= fold_left (fun acc d => acc * radix + d) digits acc).
  { induction Hd as [|d ds Hd0 Hds IH]; intros acc Hacc; simpl; [exact Hacc|].
    apply IH. nia. }
  apply G. lia.
Qed.

(** The number is an integer of either kind with value [z]. *)
Definition hasValue (n : Number) (z : Z) : Prop := n = Num z \/ n = Big z.

Lemma toNumber_hasValue (z : Z) : hasValue (toNumber z) z.
Proof. unfold hasValue, toNumber. destruct (Z.abs z <=? 2 ^ 53); tauto. Qed.

Lemma toNumber_value (z z' : Z) : hasValue (toNumber z) z' -> z' = z.
Proof.
  unfold hasValue, toNumber. destruct (Z.abs z <=? 2 ^ 53); intros [H | H]; congruence.
Qed.

Lemma stripSign_sign (str : jsstring) :
  fst (stripSign str) = 1
  \/ (fst (stripSign str) = -1 /\ exists rest, str = 0x2D%N :: rest).
Proof.
  destruct str as [|c str']; simpl; [tauto|].
  destruct (N.eqb c 0x2D) eqn:E.
  - apply N.eqb_eq in E. subst c. right. eauto.
  - left. destruct (N.eqb c 0x2B); reflexivity.
Qed.

Lemma stripPrefix_radix (str : jsstring) : 0 <= fst (stripPrefix str).
Proof.
  destruct str as [|z [|x str']]; simpl; try lia.
  destruct (N.eqb z 0x30 && (N.eqb x 0x78 || N.eqb x 0x58)); simpl; lia.
Qed.

(** A negative result needs a minus sign in front of the digits. *)
Lemma parseInt_negative (cell : jsstring) (z : Z) :
  hasValue (parseInt cell) z -> z < 0 -> exists rest, trimStart cell = 0x2D%N :: rest.
Proof.
  unfold parseInt.
  pose proof (stripSign_sign (trimStart cell)) as Hs.
  destruct (stripSign (trimStart cell)) as [sign str]. simpl in Hs.
  pose proof (stripPrefix_radix str) as Hr.
  destruct (stripPrefix str) as [R s1]. simpl in Hr.
  pose proof (mathInt_nonneg R (radixDigits R s1) Hr (radixDigits_nonneg R s1)) as Hm.
  destruct (radixDigits R s1) as [|d ds].
  - intros [[=] | [=]].
  - intros Hv Hz. apply toNumber_value in Hv.
    destruct Hs as [-> | [_ Hrest]]; [lia | exact Hrest].
Qed.

Lemma orZero_not_NaN (n : Number) : orZero n <> NaN.
Proof. destruct n as [|[| |]|]; discriminate. Qed.

Lemma orZero_keeps (n : Number) : n <> NaN -> orZero n = n.
Proof. destruct n as [|[| |]|]; intros H; [contradiction H|..]; reflexivity. Qed.

Lemma orZero_hasValue (n : Number) (z : Z) :
  hasValue (orZero n) z -> z <> 0 -> hasValue n z.
Proof.
  unfold hasValue. destruct n as [|[| |]|]; simpl; intros [H | H] Hz;
    try discriminate; try (injection H as <-; lia); tauto.
Qed.

End TaskRows.

(** C6 as it is stated: the row has an xp field that is a non-negative
    integer. *)
Definition xpNonNegativeInteger (task : Csv.TaskRow) : Prop :=
  exists z, getOwn task (js "xp") = Some (Csv.VNumber (Csv.Num z)) /\ 0 <= z.

(** C6 fails for an xp cell with a minus sign: the sheet with the header
    [xp] and the one cell [-5] gives a row whose xp is -5. *)
Lemma parseTaskRows_negative_xp :
  Csv.parseTaskRows (Csv.parseCSV (js "xp" ++ [Csv.LF] ++ js "-5"))
  = [[(js "xp", Csv.VNumber (Csv.Num (-5))); (js "instructions", Csv.VString [])]]
  /\ ~ (forall csvText task,
          In task (Csv.parseTaskRows (Csv.parseCSV csvText)) -> xpNonNegativeInteger task).
Proof.
  assert (E : Csv.parseTaskRows (Csv.parseCSV (js "xp" ++ [Csv.LF] ++ js "-5"))
              = [[(js "xp", Csv.VNumber (Csv.Num (-5)));
                  (js "instructions", Csv.VString [])]])
    by (vm_compute; reflexivity).
  split; [exact E|]. intros H.
  destruct (H (js "xp" ++ [Csv.LF] ++ js "-5")
              [(js "xp", Csv.VNumber (Csv.Num (-5))); (js "instructions", Csv.VString [])])
    as (z & Hz & Hpos).
  - rewrite E. left. reflexivity.
  - vm_compute in Hz. injection Hz as <-. lia.
Qed.

(** What the amended C6 says of the number [n] in the xp field of a row
    whose xp cell is [cell]: it is never [NaN], it is 0 when the cell
    fails to parse as a number and otherwise the integer [parseInt] reads
    from the cell, and it is negative only when the cell carries a minus
    sign in front of its digits. *)
Definition xpOfCell (cell : jsstring) (n : Csv.Number) : Prop :=
  n <> Csv.NaN
  /\ (Csv.parseInt cell = Csv.NaN -> n = Csv.Num 0)
  /\ (Csv.parseInt cell <> Csv.NaN -> n = Csv.parseInt cell)
  /\ (forall z, hasValue n z -> z < 0 -> exists rest, trimStart cell = 0x2D%N :: rest).

(** C6, amended. The parser produces one typed row for every row of the
    sheet after the header row, in order. The typed row of a sheet row has
    an xp field exactly when the (trimmed) header row has a column headed
    [xp], and that field is then the number of the row's own xp cell, the
    cell in the last such column (the empty string where the row is too
    short to have it): never [NaN], 0 when the cell fails to parse as a
    number, otherwise the integer [parseInt] reads from the cell, which is
    negative only when the cell carries a minus sign in front of its
    digits. *)
Theorem parseTaskRows_xp_number (csvText : jsstring) :
  length (Csv.parseTaskRows (Csv.parseCSV csvText)) = length (tl (Csv.parseCSV csvText))
  /\ forall i row,
       nth_error (tl (Csv.parseCSV csvText)) i = Some row ->
       exists task,
         nth_error (Csv.parseTaskRows (Csv.parseCSV csvText)) i = Some task
         /\ (In (js "xp") (map trim (hd [] (Csv.parseCSV csvText)))
             <-> exists v, getOwn task (js "xp") = Some v)
         /\ (forall j,
               nth_error (map trim (hd [] (Csv.parseCSV csvText))) j = Some (js "xp") ->
               (forall k, (j < k)%nat ->
                  nth_error (map trim (hd [] (Csv.parseCSV csvText))) k <> Some (js "xp")) ->
               exists n,
                 getOwn task (js "xp") = Some (Csv.VNumber n)
                 /\ n = Csv.orZero (Csv.parseInt (nth j row []))
                 /\ xpOfCell (nth j row []) n).
Proof.
  destruct (Csv.parseCSV csvText) as [|headerRow rows].
  - split; [reflexivity|]. intros [|i] row H; discriminate H.
  - cbn [tl hd]. split; [apply length_map|].
    intros i row Hrow.
    destruct (parseTaskRows_xp headerRow rows i row Hrow) as (task & Htask & Hxp).
    exists task. split; [exact Htask|]. split.
    + rewrite Hxp. split.
      * intros Hin. apply In_nth_error in Hin as [j Hj].
        destruct (lastIndex (js "xp") (map trim headerRow)) as [j'|] eqn:E;
          [cbn; eauto|].
        exfalso. clear Hxp Htask. revert j Hj E.
        induction (map trim headerRow) as [|h' more IH]; intros j Hj E.
        -- destruct j; discriminate Hj.
        -- cbn [lastIndex] in E.
           destruct (lastIndex (js "xp") more) as [j'|] eqn:E'; [discriminate E|].
           destruct j as [|j]; simpl in Hj.
           ++ injection Hj as ->. rewrite streq_refl in E. discriminate E.
           ++ apply (IH j Hj eq_refl).
      * intros [v Hv].
        destruct (in_dec jsstring_eq_dec (js "xp") (map trim headerRow)) as [H | H];
          [exact H|].
        rewrite (lastIndex_None _ _ H) in Hv. discriminate Hv.
    + intros j Hj Hlast. rewrite Hxp, (lastIndex_last _ _ j Hj Hlast). cbn [option_map].
      exists (Csv.orZero (Csv.parseInt (nth j row []))).
      split; [reflexivity|]. split; [reflexivity|].
      split; [apply orZero_not_NaN|]. split; [|split].
      * intros ->. reflexivity.
      * apply orZero_keeps.
      * intros z Hz Hneg. apply (parseInt_negative (nth j row []) z); [|exact Hneg].
        apply orZero_hasValue; [exact Hz | lia].
Qed.

(** A sheet with two columns headed [xp], a row with text in the first of
    them and -5 in the second, and a short row. *)
Definition xpSheet : jsstring :=
  js "xp,id,xp" ++ [Csv.LF] ++ js "abc,t1,-5" ++ [Csv.LF] ++ js "7,t2".

Lemma parseTaskRows_xp_number_witness :
  (nth_error (map trim (hd [] (Csv.parseCSV xpSheet))) 2 = Some (js "xp")
   /\ (forall k, (2 < k)%nat ->
         nth_error (map trim (hd [] (Csv.parseCSV xpSheet))) k <> Some (js "xp")))
  /\ (nth_error (tl (Csv.parseCSV xpSheet)) 0 = Some [js "abc"; js "t1"; js "-5"]
      /\ exists task,
           nth_error (Csv.parseTaskRows (Csv.parseCSV xpSheet)) 0 = Some task
           /\ exists n, getOwn task (js "xp") = Some (Csv.VNumber n)
                        /\ n = Csv.orZero (Csv.parseInt (js "-5"))
                        /\ xpOfCell (js "-5") n)
  /\ (nth_error (tl (Csv.parseCSV xpSheet)) 1 = Some [js "7"; js "t2"]
      /\ exists task,
           nth_error (Csv.parseTaskRows (Csv.parseCSV xpSheet)) 1 = Some task
           /\ exists n, getOwn task (js "xp") = Some (Csv.VNumber n)
                        /\ n = Csv.orZero (Csv.parseInt [])
                        /\ xpOfCell [] n).
Proof.
  assert (H0 : nth_error (tl (Csv.parseCSV xpSheet)) 0 = Some [js "abc"; js "t1"; js "-5"])
    by (vm_compute; reflexivity).
  assert (H1 : nth_error (tl (Csv.parseCSV xpSheet)) 1 = Some [js "7"; js "t2"])
    by (vm_compute; reflexivity).
  assert (Hj : nth_error (map trim (hd [] (Csv.parseCSV xpSheet))) 2 = Some (js "xp"))
    by (vm_compute; reflexivity).
  assert (Hlast : forall k, (2 < k)%nat ->
                    nth_error (map trim (hd [] (Csv.parseCSV xpSheet))) k <> Some (js "xp")).
  { intros k Hk.
    replace (map trim (hd [] (Csv.parseCSV xpSheet))) with [js "xp"; js "id"; js "xp"]
      by (vm_compute; reflexivity).
    destruct k as [|[|[|k]]]; [lia | lia | lia|]. destruct k; discriminate. }
  split; [split; [exact Hj | exact Hlast]|]. split.
  - split; [exact H0|].
    destruct (proj2 (parseTaskRows_xp_number xpSheet) 0%nat _ H0) as (task & Ht & _ & Hx).
    exists task. split; [exact Ht | exact (Hx 2%nat Hj Hlast)].
  - split; [exact H1|].
    destruct (proj2 (parseTaskRows_xp_number xpSheet) 1%nat _ H1) as (task & Ht & _ & Hx).
    exists task. split; [exact Ht | exact (Hx 2%nat Hj Hlast)].
Defined.

(** ** Short rows *)

(** A row right-padded with empty fields to [n] fields. *)
Definition padTo (n : nat) (row : list jsstring) : list jsstring :=
  row ++ repeat [] (n - length row).

Section ShortRows.

Lemma maxCols_from (rows : list (list jsstring)) (m : nat) :
  fold_left (fun m r => Nat.max m (length r)) rows m
  = Nat.max m (Learning.maxCols rows).
Proof.
  unfold Learning.maxCols. revert m.
  induction rows as [|r rows IH]; intros m; simpl.
  - lia.
  - rewrite IH, (IH (length r)). lia.
Qed.

Lemma maxCols_ge (rows : list (list jsstring)) (r : list jsstring) :
  In r rows -> (length r <= Learning.maxCols rows)%nat.
Proof.
  induction rows as [|r' rows IH]; simpl; [intros []|].
  unfold Learning.maxCols. simpl. rewrite maxCols_from.
  intros [<- | H]; [lia|]. specialize (IH H). lia.
Qed.

(** After the last step every row has [maxCols] fields and is a row of
    before with empty fields appended. *)
Lemma normalize_row (rows : list (list jsstring)) (row : list jsstring) :
  In row (Learning.normalize rows) ->
  length row = Learning.maxCols rows
  /\ exists raw, In raw rows /\ row = raw ++ repeat [] (length row - length raw).
Proof.
  unfold Learning.normalize. rewrite in_map_iff. intros (raw & <- & Hin).
  pose proof (maxCols_ge rows raw Hin) as Hle. unfold jsstring in *.
  destruct (length raw <? Learning.maxCols rows)%nat eqn:E.
  - apply Nat.ltb_lt in E. rewrite length_app, repeat_length.
    split; [lia|]. exists raw. split; [exact Hin|].
    assert (Hk : forall a b : nat, (a + (b - a) - a = b - a)%nat) by lia.
    rewrite Hk. reflexivity.
  - apply Nat.ltb_ge in E. split; [lia|]. exists raw. split; [exact Hin|].
    rewrite Nat.sub_diag. simpl. rewrite app_nil_r. reflexivity.
Qed.

Lemma parseCSV_row (csvText : jsstring) (row : list jsstring) :
  In row (Learning.parseCSV csvText) ->
  length row = Learning.maxCols (Learning.parseRows csvText)
  /\ exists raw, In raw (Learning.parseRows csvText)
                 /\ row = raw ++ repeat [] (length row - length raw).
Proof.
  unfold Learning.parseCSV. destruct (negb (truthy csvText)); [intros []|].
  apply normalize_row.
Qed.

Import Csv.

Lemma fillRow_other (hs : list jsstring) (index : nat) (row : list jsstring)
    (task : TaskRow) (h : jsstring) :
  ~ In h hs -> getOwn (fillRow hs index row task) h = getOwn task h.
Proof.
  revert index task. induction hs as [|h' hs IH]; intros index task Hn; simpl.
  - reflexivity.
  - rewrite IH by (intros H; apply Hn; right; exact H).
    assert (E : streq h' h = false).
    { apply streq_false_iff. intros ->. apply Hn. left. reflexivity. }
    destruct (streq h' (js "xp")); apply getOwn_setProp_other, E.
Qed.

(** The property a header of a duplicate-free header row gets: the cell at
    the position of the header, or the empty string past the end of the
    row. *)
Lemma fillRow_get (hs : list jsstring) (index : nat) (row : list jsstring)
    (task : TaskRow) (i : nat) (h : jsstring) :
  List.NoDup hs -> nth_error hs i = Some h -> h <> js "__proto__" ->
  getOwn (fillRow hs index row task) h
  = Some (if streq h (js "xp")
          then VNumber (orZero (parseInt (nth (index + i) row [])))
          else VString (nth (index + i) row [])).
Proof.
  revert index task i. induction hs as [|h' hs IH]; intros index task i Hnd Hi Hp.
  - destruct i; discriminate Hi.
  - inversion Hnd as [|? ? Hfresh Hnd']; subst. destruct i as [|i]; simpl in *.
    + injection Hi as ->. rewrite Nat.add_0_r.
      rewrite fillRow_other by exact Hfresh.
      apply streq_false_iff in Hp. unfold setProp.
      destruct (streq h (js "xp")); rewrite Hp, getOwn_putOwn, streq_refl; reflexivity.
    + rewrite (IH (S index) _ i Hnd' Hi Hp).
      replace (S index + i)%nat with (index + S i)%nat by lia. reflexivity.
Qed.

Lemma parseTaskRows_nth (headerRow : list jsstring) (rows : list (list jsstring))
    (j : nat) (row : list jsstring) (task : TaskRow) (i : nat) (h : jsstring) :
  nth_error rows j = Some row ->
  nth_error (parseTaskRows (headerRow :: rows)) j = Some task ->
  List.NoDup (map trim headerRow) ->
  nth_error (map trim headerRow) i = Some h ->
  h <> js "__proto__" ->
  getOwn task h
  = Some (if streq h (js "xp")
          then VNumber (orZero (parseInt (nth i row [])))
          else VString (nth i row [])).
Proof.
  intros Hrow Htask Hnd Hi Hp. unfold parseTaskRows in Htask.
  rewrite nth_error_map, Hrow in Htask. simpl in Htask. injection Htask as <-.
  pose proof (fillRow_get (map trim headerRow) 0 row [] i h Hnd Hi Hp) as Hget.
  simpl in Hget.
  destruct (negb (hasProp (fillRow (map trim headerRow) 0 row []) (js "instructions")))
    eqn:E; [|exact Hget].
  rewrite getOwn_setProp_other; [exact Hget|].
  apply streq_false_iff. intros <-.
  unfold hasProp in E. rewrite Hget in E. discriminate E.
Qed.

(** [parseTaskRows] reads a row as if it had been right-padded with empty
    fields. *)
Lemma nth_padded (row : list jsstring) (k i : nat) :
  nth i (row ++ repeat [] k) [] = nth i row [].
Proof.
  destruct (Nat.lt_ge_cases i (length row)) as [H | H].
  - apply app_nth1, H.
  - rewrite app_nth2 by exact H. rewrite (nth_overflow row [] H).
    apply nth_repeat.
Qed.

Lemma fillRow_padded (hs : list jsstring) (index : nat) (row : list jsstring)
    (k : nat) (task : TaskRow) :
  fillRow hs index (row ++ repeat [] k) task = fillRow hs index row task.
Proof.
  revert index task. induction hs as [|h hs IH]; intros index task; simpl.
  - reflexivity.
  - rewrite nth_padded. apply IH.
Qed.

Lemma parseTaskRows_padded (headerRow : list jsstring) (rows : list (list jsstring)) :
  parseTaskRows (headerRow :: map (padTo (length headerRow)) rows)
  = parseTaskRows (headerRow :: rows).
Proof.
  unfold parseTaskRows, padTo. rewrite map_map. apply map_ext.
  intros row. cbv beta zeta. rewrite fillRow_padded. reflexivity.
Qed.

End ShortRows.

(** *** Quoted tables

    The text of a table, for stating what the two readers return. *)

(** A table written the way the readers' comments describe their input:
    every field between double quotes with each double quote inside it
    doubled, fields separated by commas, every row ended by a line feed,
    or by a carriage return and a line feed when [crlf] is set. *)
Definition escapeQuotes (field : jsstring) : jsstring :=
  flat_map (fun c => if N.eqb c Csv.quote then [Csv.quote; Csv.quote] else [c]) field.

Definition quoted (field : jsstring) : jsstring :=
  Csv.quote :: escapeQuotes field ++ [Csv.quote].

Fixpoint quotedFields (row : list jsstring) : jsstring :=
  match row with
  | [] => []
  | [field] => quoted field
  | field :: more => quoted field ++ Csv.comma :: quotedFields more
  end.

Definition lineEnd (crlf : bool) : jsstring :=
  if crlf then [Csv.CR; Csv.LF] else [Csv.LF].

Definition quotedTable (crlf : bool) (rows : list (list jsstring)) : jsstring :=
  flat_map (fun row => quotedFields row ++ lineEnd crlf) rows.

Section CsvRoundTrip.

Import Csv.

Lemma csv_open_quote (rest : jsstring) (st : ParseState) :
  inQuotes st = false ->
  parseLoop (quote :: rest) st
  = parseLoop rest {| rows := rows st; curRow := curRow st; curField := curField st;
                      inQuotes := true |}.
Proof.
  intros H. cbn [parseLoop]. rewrite N.eqb_refl, H. destruct rest; reflexivity.
Qed.

Lemma csv_quoted_body (field acc rest : jsstring) (c : N)
    (rs : list (list jsstring)) (row : list jsstring) :
  c <> quote ->
  parseLoop (escapeQuotes field ++ quote :: c :: rest)
    {| rows := rs; curRow := row; curField := acc; inQuotes := true |}
  = parseLoop (c :: rest)
      {| rows := rs; curRow := row; curField := acc ++ field; inQuotes := false |}.
Proof.
  intros Hc. revert acc. induction field as [|x field IH]; intros acc.
  - cbn [escapeQuotes flat_map app]. rewrite app_nil_r.
    cbn [parseLoop]. rewrite N.eqb_refl. cbn [inQuotes andb].
    apply N.eqb_neq in Hc. rewrite Hc. reflexivity.
  - cbn [escapeQuotes flat_map]. fold (escapeQuotes field).
    destruct (N.eqb x quote) eqn:Ex.
    + apply N.eqb_eq in Ex. subst x. cbn [app parseLoop].
      rewrite N.eqb_refl. cbn [inQuotes andb rows curRow curField].
      rewrite IH, <- app_assoc. reflexivity.
    + cbn [app parseLoop]. rewrite Ex. cbn [inQuotes negb andb rows curRow curField].
      rewrite IH, <- app_assoc. reflexivity.
Qed.

Lemma csv_read_quoted_field (field rest : jsstring) (c : N)
    (rs : list (list jsstring)) (row : list jsstring) :
  c <> quote ->
  parseLoop (quoted field ++ c :: rest)
    {| rows := rs; curRow := row; curField := []; inQuotes := false |}
  = parseLoop (c :: rest)
      {| rows := rs; curRow := row; curField := field; inQuotes := false |}.
Proof.
  intros Hc. unfold quoted. rewrite <- app_comm_cons, <- app_assoc.
  rewrite csv_open_quote by reflexivity. cbn [rows curRow curField app].
  apply (csv_quoted_body field [] rest c rs row Hc).
Qed.

Lemma csv_line_end (crlf : bool) (rest : jsstring) (rs : list (list jsstring))
    (row : list jsstring) (field : jsstring) :
  parseLoop (lineEnd crlf ++ rest)
    {| rows := rs; curRow := row; curField := field; inQuotes := false |}
  = parseLoop rest
      {| rows := rs ++ [row ++ [field]]; curRow := []; curField := [];
         inQuotes := false |}.
Proof. destruct crlf; reflexivity. Qed.

Lemma lineEnd_head (crlf : bool) (rest : jsstring) :
  exists c more, lineEnd crlf ++ rest = c :: more /\ c <> quote.
Proof.
  destruct crlf; eexists; eexists; (split; [reflexivity | discriminate]).
Qed.

Lemma csv_quoted_row (crlf : bool) (field : jsstring) (more : list jsstring)
    (rest : jsstring) (rs : list (list jsstring)) (row : list jsstring) :
  parseLoop (quotedFields (field :: more) ++ lineEnd crlf ++ rest)
    {| rows := rs; curRow := row; curField := []; inQuotes := false |}
  = parseLoop rest
      {| rows := rs ++ [row ++ field :: more]; curRow := []; curField := [];
         inQuotes := false |}.
Proof.
  revert field row. induction more as [|g more IH]; intros field row.
  - cbn [quotedFields].
    destruct (lineEnd_head crlf rest) as (c & tl & E & Hc).
    rewrite E, csv_read_quoted_field by exact Hc. rewrite <- E. apply csv_line_end.
  - change (quotedFields (field :: g :: more))
      with (quoted field ++ comma :: quotedFields (g :: more)).
    rewrite <- app_assoc, <- app_comm_cons, csv_read_quoted_field by discriminate.
    cbn [parseLoop]. change (N.eqb comma quote) with false.
    cbn [inQuotes negb andb rows curRow curField]. rewrite N.eqb_refl.
    rewrite IH, <- app_assoc. reflexivity.
Qed.

Lemma csv_quoted_table (crlf : bool) (table : list (list jsstring))
    (rs : list (list jsstring)) :
  List.Forall (fun row => row <> []) table ->
  parseLoop (quotedTable crlf table)
    {| rows := rs; curRow := []; curField := []; inQuotes := false |}
  = {| rows := rs ++ table; curRow := []; curField := []; inQuotes := false |}.
Proof.
  intros H. revert rs. induction H as [|row table Hrow Htable IH]; intros rs.
  - cbn. rewrite app_nil_r. reflexivity.
  - destruct row as [|field more]; [congruence|].
    cbn [quotedTable flat_map]. fold (quotedTable crlf table).
    rewrite <- app_assoc, csv_quoted_row, IH, <- app_assoc. reflexivity.
Qed.

Lemma quotedTable_no_BOM (crlf : bool) (table : list (list jsstring)) :
  List.Forall (fun row => row <> []) table ->
  stripBOM (quotedTable crlf table) = quotedTable crlf table.
Proof.
  intros H. destruct H as [|row table Hrow Htable]; [reflexivity|].
  destruct row as [|field [|g more]]; [congruence | reflexivity | reflexivity].
Qed.

End CsvRoundTrip.

Section LearningRoundTrip.

Import Learning.

Local Abbreviation quote := Csv.quote.

Lemma learning_open_quote (rest : jsstring) (st : ParseState) :
  insideQuotes st = false ->
  parseLoop (quote :: rest) st
  = parseLoop rest {| rows := rows st; currentRow := currentRow st;
                      currentField := currentField st; insideQuotes := true |}.
Proof.
  intros H. cbn [parseLoop]. rewrite N.eqb_refl, H. destruct rest; reflexivity.
Qed.

Lemma learning_quoted_body (field acc rest : jsstring) (c : N)
    (rs : list (list jsstring)) (row : list jsstring) :
  c <> quote ->
  parseLoop (escapeQuotes field ++ quote :: c :: rest)
    {| rows := rs; currentRow := row; currentField := acc; insideQuotes := true |}
  = parseLoop (c :: rest)
      {| rows := rs; currentRow := row; currentField := acc ++ field;
         insideQuotes := false |}.
Proof.
  intros Hc. revert acc. induction field as [|x field IH]; intros acc.
  - cbn [escapeQuotes flat_map app]. rewrite app_nil_r.
    cbn [parseLoop]. rewrite N.eqb_refl. cbn [insideQuotes andb].
    apply N.eqb_neq in Hc. rewrite Hc. reflexivity.
  - cbn [escapeQuotes flat_map]. fold (escapeQuotes field).
    destruct (N.eqb x quote) eqn:Ex.
    + apply N.eqb_eq in Ex. subst x. cbn [app parseLoop].
      rewrite N.eqb_refl. cbn [insideQuotes andb rows currentRow currentField].
      rewrite IH, <- app_assoc. reflexivity.
    + cbn [app parseLoop]. rewrite Ex.
      cbn [insideQuotes negb andb rows currentRow currentField].
      rewrite !andb_false_r. rewrite IH, <- app_assoc. reflexivity.
Qed.

Lemma learning_read_quoted_field (field rest : jsstring) (c : N)
    (rs : list (list jsstring)) (row : list jsstring) :
  c <> quote ->
  parseLoop (quoted field ++ c :: rest)
    {| rows := rs; currentRow := row; currentField := []; insideQuotes := false |}
  = parseLoop (c :: rest)
      {| rows := rs; currentRow := row; currentField := field; insideQuotes := false |}.
Proof.
  intros Hc. unfold quoted. rewrite <- app_comm_cons, <- app_assoc.
  rewrite learning_open_quote by reflexivity. cbn [rows currentRow currentField app].
  apply (learning_quoted_body field [] rest c rs row Hc).
Qed.

Lemma learning_line_end (crlf : bool) (rest : jsstring) (rs : list (list jsstring))
    (row : list jsstring) (field : jsstring) :
  parseLoop (lineEnd crlf ++ rest)
    {| rows := rs; currentRow := row; currentField := field; insideQuotes := false |}
  = parseLoop rest
      {| rows := rs ++ [map trim (row ++ [field])]; currentRow := [];
         currentField := []; insideQuotes := false |}.
Proof.
  destruct crlf; [reflexivity|].
  cbn [lineEnd app parseLoop].
  change (N.eqb Csv.LF quote) with false. change (N.eqb Csv.LF Csv.comma) with false.
  change (N.eqb Csv.LF Csv.LF) with true. change (N.eqb Csv.LF Csv.CR) with false.
  cbn [andb orb negb insideQuotes rows currentRow currentField].
  destruct rest; reflexivity.
Qed.

Lemma quotedFields_head (field : jsstring) (more : list jsstring) (rest : jsstring) :
  exists tl, quotedFields (field :: more) ++ rest = quote :: tl.
Proof. destruct more; eexists; reflexivity. Qed.

Lemma learning_quoted_row (crlf : bool) (field : jsstring) (more : list jsstring)
    (rest : jsstring) (rs : list (list jsstring)) (row : list jsstring) :
  parseLoop (quotedFields (field :: more) ++ lineEnd crlf ++ rest)
    {| rows := rs; currentRow := row; currentField := []; insideQuotes := false |}
  = parseLoop rest
      {| rows := rs ++ [map trim (row ++ field :: more)]; currentRow := [];
         currentField := []; insideQuotes := false |}.
Proof.
  revert field row. induction more as [|g more IH]; intros field row.
  - cbn [quotedFields].
    destruct (lineEnd_head crlf rest) as (c & tl & E & Hc).
    rewrite E, learning_read_quoted_field by exact Hc. rewrite <- E.
    apply learning_line_end.
  - change (quotedFields (field :: g :: more))
      with (quoted field ++ Csv.comma :: quotedFields (g :: more)).
    rewrite <- app_assoc, <- app_comm_cons, learning_read_quoted_field by discriminate.
    cbn [parseLoop]. change (N.eqb Csv.comma quote) with false.
    cbn [insideQuotes negb andb rows currentRow currentField]. rewrite N.eqb_refl.
    cbn [andb]. rewrite IH, <- app_assoc. reflexivity.
Qed.

Lemma learning_quoted_table (crlf : bool) (table : list (list jsstring))
    (rs : list (list jsstring)) :
  List.Forall (fun row => row <> []) table ->
  parseLoop (quotedTable crlf table)
    {| rows := rs; currentRow := []; currentField := []; insideQuotes := false |}
  = {| rows := rs ++ map (map trim) table; currentRow := []; currentField := [];
       insideQuotes := false |}.
Proof.
  intros H. revert rs. induction H as [|row table Hrow Htable IH]; intros rs.
  - cbn. rewrite app_nil_r. reflexivity.
  - destruct row as [|field more]; [congruence|].
    cbn [quotedTable flat_map]. fold (quotedTable crlf table).
    rewrite <- app_assoc, learning_quoted_row, IH, <- app_assoc. reflexivity.
Qed.

End LearningRoundTrip.

Section KeptRows.

(** The last step of the learning reader pads each row and nothing else. *)
Lemma normalize_padTo (rows : list (list jsstring)) :
  Learning.normalize rows = map (padTo (Learning.maxCols rows)) rows.
Proof.
  unfold Learning.normalize, padTo. apply map_ext. intros r.
  unfold jsstring in *.
  destruct (length r <? Learning.maxCols rows)%nat eqn:E; [reflexivity|].
  apply Nat.ltb_ge in E.
  replace (Learning.maxCols rows - length r)%nat with 0%nat by lia.
  simpl. rewrite app_nil_r. reflexivity.
Qed.

Lemma learning_parseCSV_padTo (csvText : jsstring) :
  Learning.parseCSV csvText
  = map (padTo (Learning.maxCols (Learning.parseRows csvText)))
      (Learning.parseRows csvText).
Proof.
  unfold Learning.parseCSV. destruct csvText as [|c text].
  - vm_compute. reflexivity.
  - cbn [truthy negb]. apply normalize_padTo.
Qed.

Lemma learning_parseRows_quoted_table (crlf : bool) (table : list (list jsstring)) :
  List.Forall (fun row => row <> []) table ->
  Learning.parseRows (quotedTable crlf table)
  = Csv.popTrailingEmpty (map (map trim) table).
Proof.
  intros H. unfold Learning.parseRows.
  rewrite quotedTable_no_BOM, learning_quoted_table by exact H. reflexivity.
Qed.

(** Nothing is popped from a table whose last row is not a single empty
    field. *)
Lemma popTrailingEmpty_kept (table : list (list jsstring)) :
  Csv.isEmptyRow (List.last table []) = false -> Csv.popTrailingEmpty table = table.
Proof.
  intros Hlast. destruct table as [|r0 more]; [reflexivity|].
  assert (Hne : r0 :: more <> []) by discriminate.
  destruct (exists_last Hne) as (t' & l & E). rewrite E in *.
  rewrite List.last_last in Hlast. unfold Csv.popTrailingEmpty.
  rewrite rev_app_distr. cbn [rev app Csv.popEmptyRev]. rewrite Hlast.
  cbn [rev]. rewrite rev_involutive. reflexivity.
Qed.

Lemma csv_parseCSV_quoted_table_kept (crlf : bool) (table : list (list jsstring)) :
  List.Forall (fun row => row <> []) table ->
  Csv.isEmptyRow (List.last table []) = false ->
  Csv.parseCSV (quotedTable crlf table) = table.
Proof.
  intros H Hlast. unfold Csv.parseCSV.
  rewrite quotedTable_no_BOM, csv_quoted_table by exact H.
  cbn [Csv.rows Csv.curRow Csv.curField truthy length Nat.ltb Nat.leb orb app].
  apply popTrailingEmpty_kept, Hlast.
Qed.

End KeptRows.

(** C7 fails for the reader of the task sheet: it returns the short row
    as it is, with fewer fields than the header row. *)
Lemma csv_parseCSV_short_row_not_padded :
  Csv.parseCSV (js "a,b" ++ [Csv.LF] ++ js "1") = [[js "a"; js "b"]; [js "1"]]
  /\ ~ (forall csvText row,
          In row (Csv.parseCSV csvText) ->
          (length (hd [] (Csv.parseCSV csvText)) <= length row)%nat).
Proof.
  assert (E : Csv.parseCSV (js "a,b" ++ [Csv.LF] ++ js "1") = [[js "a"; js "b"]; [js "1"]])
    by (vm_compute; reflexivity).
  split; [exact E|]. intros H.
  specialize (H (js "a,b" ++ [Csv.LF] ++ js "1") [js "1"]).
  rewrite E in H. simpl in H. specialize (H (or_intror (or_introl eq_refl))). lia.
Qed.

(** C7, amended. The reader of the learning sheets keeps every row it
    parses, in order, and right-pads each with empty fields to the field
    count of the longest row: every row of its result has as many fields
    as the first (header) row and a field at every header position. Of a
    quoted table it returns every row, fields trimmed, padded in this way
    (less the rows at the end that consist of one empty field). The reader
    of the task sheet does not pad: of a quoted table it returns the rows
    as they are, short rows included. There [parseTaskRows] reads a cell
    missing from a short row as the empty string, which gives the empty
    string for a text column and 0 for the xp column: its typed rows are
    those of the sheet with the short rows padded. *)
Theorem short_rows_padded_or_defaulted (csvText : jsstring) :
  (Learning.parseCSV csvText
   = map (padTo (Learning.maxCols (Learning.parseRows csvText)))
       (Learning.parseRows csvText)
   /\ (forall raw, In raw (Learning.parseRows csvText) ->
         (length raw <= Learning.maxCols (Learning.parseRows csvText))%nat)
   /\ (forall row,
         In row (Learning.parseCSV csvText) ->
         length row = length (hd [] (Learning.parseCSV csvText))
         /\ (forall i, (i < length (hd [] (Learning.parseCSV csvText)))%nat ->
                       exists field, nth_error row i = Some field)))
  /\ (forall crlf table,
        List.Forall (fun row => row <> []) table ->
        Learning.parseCSV (quotedTable crlf table)
        = map (padTo (Learning.maxCols (Csv.popTrailingEmpty (map (map trim) table))))
            (Csv.popTrailingEmpty (map (map trim) table)))
  /\ (forall crlf table,
        List.Forall (fun row => row <> []) table ->
        Csv.isEmptyRow (List.last table []) = false ->
        Csv.parseCSV (quotedTable crlf table) = table)
  /\ (forall headerRow rows j row task i h,
        Csv.parseCSV csvText = headerRow :: rows ->
        nth_error rows j = Some row ->
        nth_error (Csv.parseTaskRows (Csv.parseCSV csvText)) j = Some task ->
        List.NoDup (map trim headerRow) ->
        nth_error (map trim headerRow) i = Some h ->
        h <> js "__proto__" ->
        (length row <= i)%nat ->
        getOwn task h
        = Some (if streq h (js "xp") then Csv.VNumber (Csv.Num 0) else Csv.VString []))
  /\ (forall headerRow rows,
        Csv.parseTaskRows (headerRow :: map (padTo (length headerRow)) rows)
        = Csv.parseTaskRows (headerRow :: rows)).
Proof.
  split; [|split; [|split; [|split; [|apply parseTaskRows_padded]]]].
  - split; [apply learning_parseCSV_padTo|]. split; [apply maxCols_ge|].
    intros row Hin. destruct (parseCSV_row csvText row Hin) as [Hlen Hraw].
    assert (Hhd : length (hd [] (Learning.parseCSV csvText))
                  = Learning.maxCols (Learning.parseRows csvText)).
    { destruct (Learning.parseCSV csvText) as [|r0 more] eqn:E; [destruct Hin|].
      apply (parseCSV_row csvText r0). rewrite E. left. reflexivity. }
    split; [congruence|].
    intros i Hi. destruct (nth_error row i) as [field|] eqn:E; [eauto|].
    apply nth_error_None in E. lia.
  - intros crlf table H. rewrite learning_parseCSV_padTo.
    rewrite (learning_parseRows_quoted_table crlf table H). reflexivity.
  - intros crlf table H Hlast. apply csv_parseCSV_quoted_table_kept; assumption.
  - intros headerRow rows j row task i h Hcsv Hrow Htask Hnd Hi Hp Hshort.
    rewrite Hcsv in Htask.
    rewrite (parseTaskRows_nth headerRow rows j row task i h Hrow Htask Hnd Hi Hp).
    rewrite (nth_overflow row [] Hshort). reflexivity.
Qed.

(** A table with a short second row. *)
Definition shortRowTable : list (list jsstring) := [[js "a"; js "b"]; [js "1"]].

Lemma short_rows_padded_or_defaulted_witness :
  (In [js "1"] (Learning.parseRows (js "a,b" ++ [Csv.LF] ++ js "1"))
   /\ (length [js "1"]
       <= Learning.maxCols (Learning.parseRows (js "a,b" ++ [Csv.LF] ++ js "1")))%nat
   /\ In [js "1"; []] (Learning.parseCSV (js "a,b" ++ [Csv.LF] ++ js "1"))
   /\ length [js "1"; ([] : jsstring)]
      = length (hd [] (Learning.parseCSV (js "a,b" ++ [Csv.LF] ++ js "1"))))
  /\ (List.Forall (fun row : list jsstring => row <> []) shortRowTable
      /\ Learning.parseCSV (quotedTable false shortRowTable)
         = map (padTo (Learning.maxCols (Csv.popTrailingEmpty (map (map trim) shortRowTable))))
             (Csv.popTrailingEmpty (map (map trim) shortRowTable))
      /\ Csv.isEmptyRow (List.last shortRowTable []) = false
      /\ Csv.parseCSV (quotedTable false shortRowTable) = shortRowTable)
  /\ (Csv.parseCSV (js "a,b" ++ [Csv.LF] ++ js "1") = [js "a"; js "b"] :: [[js "1"]]
      /\ nth_error [[js "1"]] 0 = Some [js "1"]
      /\ nth_error (Csv.parseTaskRows (Csv.parseCSV (js "a,b" ++ [Csv.LF] ++ js "1"))) 0
         = Some [(js "a", Csv.VString (js "1")); (js "b", Csv.VString []);
                 (js "instructions", Csv.VString [])]
      /\ List.NoDup (map trim [js "a"; js "b"])
      /\ nth_error (map trim [js "a"; js "b"]) 1 = Some (js "b")
      /\ js "b" <> js "__proto__"
      /\ (length [js "1"] <= 1)%nat
      /\ getOwn [(js "a", Csv.VString (js "1")); (js "b", Csv.VString []);
                 (js "instructions", Csv.VString [])] (js "b")
         = Some (Csv.VString [])).
Proof.
  assert (H0 : In [js "1"] (Learning.parseRows (js "a,b" ++ [Csv.LF] ++ js "1")))
    by (vm_compute; right; left; reflexivity).
  assert (H1 : In [js "1"; []] (Learning.parseCSV (js "a,b" ++ [Csv.LF] ++ js "1")))
    by (vm_compute; right; left; reflexivity).
  assert (H2 : Csv.parseCSV (js "a,b" ++ [Csv.LF] ++ js "1") = [js "a"; js "b"] :: [[js "1"]])
    by (vm_compute; reflexivity).
  assert (H3 : nth_error (Csv.parseTaskRows (Csv.parseCSV (js "a,b" ++ [Csv.LF] ++ js "1"))) 0
               = Some [(js "a", Csv.VString (js "1")); (js "b", Csv.VString []);
                       (js "instructions", Csv.VString [])])
    by (vm_compute; reflexivity).
  assert (H4 : List.NoDup (map trim [js "a"; js "b"])).
  { apply nodupb_NoDup. vm_compute. reflexivity. }
  assert (H5 : nth_error (map trim [js "a"; js "b"]) 1 = Some (js "b"))
    by (vm_compute; reflexivity).
  assert (H6 : js "b" <> js "__proto__") by (intros H; vm_compute in H; discriminate H).
  assert (H7 : (length [js "1"] <= 1)%nat) by (simpl; lia).
  assert (H8 : List.Forall (fun row : list jsstring => row <> []) shortRowTable).
  { repeat constructor; discriminate. }
  assert (H9 : Csv.isEmptyRow (List.last shortRowTable []) = false) by reflexivity.
  destruct (short_rows_padded_or_defaulted (js "a,b" ++ [Csv.LF] ++ js "1"))
    as ((_ & Ha & Ha') & Hb & Hc & Hd & _).
  split; [|split].
  - split; [exact H0|]. split; [exact (Ha _ H0)|]. split; [exact H1|].
    exact (proj1 (Ha' _ H1)).
  - split; [exact H8|]. split; [exact (Hb false _ H8)|]. split; [exact H9|].
    exact (Hc false _ H8 H9).
  - split; [exact H2|]. split; [reflexivity|]. split; [exact H3|].
    split; [exact H4|]. split; [exact H5|]. split; [exact H6|]. split; [exact H7|].
    exact (Hd _ _ 0%nat _ _ 1%nat (js "b") H2 eq_refl H3 H4 H5 H6 H7).
Defined.

(** ** Quiz questions *)

Section Quiz.

Import Learning.

Variable toUpperCase : jsstring -> jsstring.
Variable randomSuffix : nat -> jsstring.

(** The claim's words for one row and its question: the letter is the
    trimmed, upper-cased [correctOption]; a letter A to D gives its
    0-based index, anything else gives 0. *)
Definition correctIndexOfLetter (row : QuizRow) (q : QuizQuestion) : Prop :=
  let letter := toUpperCase (trim (orEmpty (correctOption row))) in
  (letter = js "A" /\ correctIndex q = 0)
  \/ (letter = js "B" /\ correctIndex q = 1)
  \/ (letter = js "C" /\ correctIndex q = 2)
  \/ (letter = js "D" /\ correctIndex q = 3)
  \/ (~ In letter [js "A"; js "B"; js "C"; js "D"] /\ correctIndex q = 0).

Lemma indexOf_letters (letter : jsstring) :
  (letter = js "A" /\ indexOf letters letter = 0)
  \/ (letter = js "B" /\ indexOf letters letter = 1)
  \/ (letter = js "C" /\ indexOf letters letter = 2)
  \/ (letter = js "D" /\ indexOf letters letter = 3)
  \/ (~ In letter [js "A"; js "B"; js "C"; js "D"] /\ indexOf letters letter = -1).
Proof.
  unfold indexOf, letters. cbn [indexOf_from].
  destruct (streq (js "A") letter) eqn:EA.
  { apply streq_true_iff in EA. left. split; [congruence | reflexivity]. }
  destruct (streq (js "B") letter) eqn:EB.
  { apply streq_true_iff in EB. right. left. split; [congruence | reflexivity]. }
  destruct (streq (js "C") letter) eqn:EC.
  { apply streq_true_iff in EC. right. right. left. split; [congruence | reflexivity]. }
  destruct (streq (js "D") letter) eqn:ED.
  { apply streq_true_iff in ED. right. right. right. left.
    split; [congruence | reflexivity]. }
  right. right. right. right. split; [|reflexivity].
  apply streq_false_iff in EA, EB, EC, ED.
  intros [H | [H | [H | [H | []]]]]; congruence.
Qed.

Lemma organizeRow_correctIndex (st : QuizState) (row : QuizRow) :
  correctIndexOfLetter row (fst (organizeRow toUpperCase randomSuffix st row)).
Proof.
  unfold correctIndexOfLetter, organizeRow.
  destruct (if truthy (questionId row)
            then if includes (seenIds st) (questionId row)
                 then (seenIds st, duplicates st ++ [questionId row])
                 else (seenIds st ++ [questionId row], duplicates st)
            else (seenIds st, duplicates st)) as [seen' dups'].
  destruct (if truthy (questionId row) then (questionId row, draws st)
            else ((if truthy (lessonId row) then lessonId row else js "lesson")
                    ++ js "_" ++ randomSuffix (draws st), S (draws st)))
    as [id' draws'].
  cbn [fst correctIndex]. cbv zeta.
  destruct (indexOf_letters (toUpperCase (trim (orEmpty (correctOption row)))))
    as [[HL E] | [[HL E] | [[HL E] | [[HL E] | [HL E]]]]]; rewrite E.
  - left. split; [exact HL | reflexivity].
  - right. left. split; [exact HL | reflexivity].
  - right. right. left. split; [exact HL | reflexivity].
  - right. right. right. left. split; [exact HL | reflexivity].
  - right. right. right. right. split; [exact HL | reflexivity].
Qed.

Lemma mapRows_correctIndex (st : QuizState) (quizRows : list QuizRow) :
  Forall2 correctIndexOfLetter quizRows
    (fst (mapRows toUpperCase randomSuffix st quizRows)).
Proof.
  revert st. induction quizRows as [|row more IH]; intros st; simpl.
  - constructor.
  - pose proof (organizeRow_correctIndex st row) as Hq.
    destruct (organizeRow toUpperCase randomSuffix st row) as [q st'].
    specialize (IH st').
    destruct (mapRows toUpperCase randomSuffix st' more) as [qs st''].
    constructor; assumption.
Qed.

End Quiz.

(** C8. Whatever [toUpperCase] and the random ids are, [organizeQuiz]
    produces one question per row, in order, and for every row: when the
    trimmed, upper-cased [correctOption] is one of the letters A, B, C, D
    the question's [correctIndex] is the 0-based index of the letter, and
    when it is none of them the [correctIndex] is 0. *)
Theorem organizeQuiz_correctIndex (toUpperCase : jsstring -> jsstring)
    (randomSuffix : nat -> jsstring) (quizRows : list Learning.QuizRow) :
  Forall2 (correctIndexOfLetter toUpperCase) quizRows
    (fst (Learning.organizeQuiz toUpperCase randomSuffix quizRows)).
Proof.
  unfold Learning.organizeQuiz.
  pose proof (mapRows_correctIndex toUpperCase randomSuffix
                {| Learning.seenIds := []; Learning.duplicates := []; Learning.draws := 0 |}
                quizRows) as H.
  destruct (Learning.mapRows toUpperCase randomSuffix _ quizRows) as [questions st].
  exact H.
Qed.

(** ** The model on concrete inputs *)

Section Examples.

(** A quoted field keeps its comma, its line break and a doubled quote;
    a byte-order mark and CRLF are consumed. *)
Example csv_quoted_field :
  Csv.parseCSV ([Csv.BOM] ++ js "id,note" ++ [Csv.CR; Csv.LF]
                ++ js "1," ++ [Csv.quote] ++ js "a,b" ++ [Csv.LF] ++ js "say "
                ++ [Csv.quote; Csv.quote] ++ js "hi" ++ [Csv.quote; Csv.quote]
                ++ [Csv.quote] ++ [Csv.LF])
  = [[js "id"; js "note"];
     [js "1"; js "a,b" ++ [Csv.LF] ++ js "say " ++ [Csv.quote] ++ js "hi" ++ [Csv.quote]]].
Proof. vm_compute. reflexivity. Qed.

Example learning_pads_to_longest_row :
  Learning.parseCSV (js "a,b" ++ [Csv.LF] ++ js "1" ++ [Csv.LF] ++ js "1,2,3")
  = [[js "a"; js "b"; []]; [js "1"; []; []]; [js "1"; js "2"; js "3"]].
Proof. vm_compute. reflexivity. Qed.

Example parseInt_samples :
  Csv.parseInt (js "  42abc") = Csv.Num 42
  /\ Csv.parseInt (js "-7.9") = Csv.Num (-7)
  /\ Csv.parseInt (js "0x1F") = Csv.Num 31
  /\ Csv.parseInt (js "abc") = Csv.NaN
  /\ Csv.parseInt (js "") = Csv.NaN
  /\ Csv.parseInt (js "-0") = Csv.Num 0
  /\ Csv.parseInt (js "9007199254740993") = Csv.Big 9007199254740993.
Proof. vm_compute. repeat split. Qed.

(** The first dates of the exported schedule, as UTC calendar dates:
    Thursday 24, Friday 25, Saturday 26, then Monday 28 July 2025. *)
Example first_unlock_dates :
  map (fun p => isoDate (LessonUnlock.unlockDate (snd p)))
      (firstn 4 (LessonUnlock.unlockSchedule (LessonUnlock.lessonUnlockSystem 0)))
  = [(2025, 7, 24); (2025, 7, 25); (2025, 7, 26); (2025, 7, 28)].
Proof. vm_compute. reflexivity. Qed.

(** In a zone behind UTC (here UTC-5) the start instant is still the
    evening of 23 July in local time, and the first lesson is already
    unlocked at local noon of that day. *)
Example first_lesson_behind_utc :
  isoDate (LocalTime (-18000000) (dateOnly 2025 7 24)) = (2025, 7, 23)
  /\ LessonUnlock.isLessonUnlocked (-18000000) (js "les_1_1")
       (UTC (-18000000) (dateOnly 2025 7 23 + 43200000)) = (true, []).
Proof. vm_compute. split; reflexivity. Qed.

Example absent_lesson_fails_open :
  LessonUnlock.isLessonUnlocked 0 (js "les_99_1") 0
  = (true, [LessonNotInSchedule (js "les_99_1")]).
Proof. vm_compute. reflexivity. Qed.

(** An upper-casing of the ASCII letters, for running [organizeQuiz]. *)
Definition asciiUpper (s : jsstring) : jsstring :=
  map (fun c => if N.leb 0x61 c && N.leb c 0x7A then (c - 0x20)%N else c) s.

Definition quizRow (questionId : jsstring) (correctOption : option jsstring)
  : Learning.QuizRow :=
  {| Learning.courseId := js "c1"; Learning.chapterId := js "ch1";
     Learning.lessonId := js "L1"; Learning.topicId := js "T1";
     Learning.questionId := questionId; Learning.question := js "Which one?";
     Learning.optionA := None; Learning.optionB := None;
     Learning.optionC := None; Learning.optionD := None;
     Learning.options := Some (js "A) one | b. two|three | | D)four");
     Learning.correctOption := correctOption |}.

Example organizeQuiz_sample :
  let '(questions, warnings) :=
    Learning.organizeQuiz asciiUpper (fun _ => js "k3x9q2a")
      [quizRow (js "q1") (Some (js " c ")); quizRow (js "q1") (Some (js "E"));
       quizRow [] None; quizRow (js "q4") (Some (js "d"))] in
  map Learning.correctIndex questions = [2; 0; 0; 3]
  /\ map Learning.id questions = [js "q1"; js "q1"; js "L1_k3x9q2a"; js "q4"]
  /\ map Learning.q_options questions
     = repeat [js "one"; js "two"; js "three"; js "four"] 4
  /\ warnings = [DuplicateQuestionIds [js "q1"]].
Proof. vm_compute. repeat split. Qed.

End Examples.

(** * Further properties of the code *)

(** ** The unlock scheduler: dates, days and chapters *)

Section UnlockMore.

Import LessonUnlock.

Variable LocalTZA : Z.
Variable start : Z.

Local Abbreviation this := (LessonUnlock.new LocalTZA start).

(** The number of the local calendar day of a time value. *)
Definition localDay (d : Z) : Z := Day (LocalTime LocalTZA d).

Lemma localMidnight_le_iff (a b : Z) :
  localMidnight LocalTZA a <= localMidnight LocalTZA b <-> localDay a <= localDay b.
Proof. unfold localMidnight, localDay, UTC, MakeDate, msPerDay. lia. Qed.

Lemma nth_key_entry {V} (o : object V) (i : nat) (k : jsstring) :
  List.NoDup (keys o) -> nth_error (keys o) i = Some k ->
  exists v, getOwn o k = Some v /\ nth_error o i = Some (k, v).
Proof.
  intros Hnd Hn. unfold keys in Hn. rewrite nth_error_map in Hn.
  destruct (nth_error o i) as [[k' v]|] eqn:E; [|discriminate Hn].
  injection Hn as ->. exists v. split; [|reflexivity].
  apply In_getOwn; [exact Hnd|]. eapply nth_error_In, E.
Qed.

(** The entry of the [i]-th lesson of the enumeration, and its date. *)
Lemma entry_at (i : nat) (l : LessonInfo) :
  nth_error generateLessonIds i = Some l ->
  exists e,
    getOwn (unlockSchedule this) (id l) = Some e
    /\ nth_error (dates (generateUnlockSchedule LocalTZA start)) i = Some (unlockDate e).
Proof.
  intros Hi. rewrite unlockSchedule_new.
  destruct (nth_key_entry (generateUnlockSchedule LocalTZA start) i (id l))
    as (e & He & Hn).
  - apply schedule_NoDup.
  - rewrite schedule_keys, nth_error_map, Hi. reflexivity.
  - exists e. split; [exact He|].
    unfold dates. rewrite nth_error_map, Hn. reflexivity.
Qed.

Lemma isLessonUnlockedById_monotone (sys : LessonUnlockSystem) (lessonId : jsstring)
    (d d' : Z) :
  d <= d' ->
  fst (isLessonUnlockedById LocalTZA sys lessonId d) = true ->
  fst (isLessonUnlockedById LocalTZA sys lessonId d') = true.
Proof.
  intros Hd. unfold isLessonUnlockedById.
  destruct (getMember (unlockSchedule sys) lessonId) as [[e|]|]; cbn.
  - rewrite !Z.leb_le. pose proof (localMidnight_mono LocalTZA d d' Hd) as Hm.
    unfold localMidnight in Hm. lia.
  - discriminate.
  - reflexivity.
Qed.

Lemma StronglySorted_nth_lt (D : list Z) (i j : nat) (x y : Z) :
  StronglySorted Z.lt D -> (i < j)%nat ->
  nth_error D i = Some x -> nth_error D j = Some y -> x < y.
Proof.
  intros HS. revert i j x y.
  induction HS as [|a l HS IH Hall]; intros i j x y Hij Hi Hj.
  - destruct i; discriminate Hi.
  - destruct j as [|j]; [lia|]. destruct i as [|i]; simpl in *.
    + injection Hi as <-. rewrite List.Forall_forall in Hall.
      apply Hall. eapply nth_error_In, Hj.
    + apply (IH i j); [lia | assumption | assumption].
Qed.

Lemma schedule_dates_sorted :
  StronglySorted Z.lt (dates (generateUnlockSchedule LocalTZA start)).
Proof.
  destruct (schedule_dates LocalTZA start) as (rest & -> & Hs & _).
  apply Sorted_StronglySorted.
  - intros a b c. apply Z.lt_trans.
  - apply Sorted_LocallySorted_iff, Hs.
Qed.

(** One step of the schedule: the next day, or the day after it when the
    next day is a local Sunday. *)
Definition nextUnlockDay (a b : Z) : Prop :=
  (b = a + msPerDay /\ getDay LocalTZA b <> 0)
  \/ (b = a + 2 * msPerDay /\ getDay LocalTZA (a + msPerDay) = 0).

Lemma nextNonSunday_step (d : Z) : nextUnlockDay d (nextNonSunday LocalTZA d).
Proof.
  destruct (nextNonSunday_cases LocalTZA d) as [[H E] | [H E]];
    rewrite nextDay_eq in H; rewrite E; [left | right]; tauto.
Qed.

Lemma dates_steps lessons k cur :
  LocallySorted nextUnlockDay (cur :: dates (entriesFrom LocalTZA start lessons (S k) cur)).
Proof.
  revert k cur. induction lessons as [|l more IH]; intros k cur; simpl.
  - constructor.
  - constructor; [apply IH | apply nextNonSunday_step].
Qed.

Lemma schedule_steps :
  LocallySorted nextUnlockDay (dates (generateUnlockSchedule LocalTZA start)).
Proof.
  rewrite generateUnlockSchedule_entries.
  destruct generateLessonIds as [|l more]; [constructor|]. apply dates_steps.
Qed.

Lemma ceilDiv_days (x : Z) : ceilDiv (x * msPerDay) (1000 * 60 * 60 * 24) = x.
Proof.
  unfold ceilDiv. change (1000 * 60 * 60 * 24) with msPerDay.
  replace (- (x * msPerDay)) with ((- x) * msPerDay) by lia.
  rewrite Z.div_mul by (unfold msPerDay; lia). lia.
Qed.

Lemma getDaysUntilUnlock_entry (sys : LessonUnlockSystem) (lessonId : jsstring)
    (unlock currentDate : Z) :
  getLessonUnlockDate sys lessonId = Some (Some unlock) ->
  getDaysUntilUnlock LocalTZA sys lessonId currentDate
  = Z.max 0 (localDay unlock - localDay currentDate).
Proof.
  intros H. unfold getDaysUntilUnlock. rewrite H. cbn [setHours0]. cbv zeta.
  unfold UTC, MakeDate, localDay.
  replace (Day (LocalTime LocalTZA unlock) * msPerDay + 0 - LocalTZA
           - (Day (LocalTime LocalTZA currentDate) * msPerDay + 0 - LocalTZA))
    with ((Day (LocalTime LocalTZA unlock) - Day (LocalTime LocalTZA currentDate))
          * msPerDay) by lia.
  rewrite ceilDiv_days. reflexivity.
Qed.

Lemma getLessonUnlockDate_Some (sys : LessonUnlockSystem) (lessonId : jsstring) (unlock : Z) :
  getLessonUnlockDate sys lessonId = Some (Some unlock) ->
  exists e, getOwn (unlockSchedule sys) lessonId = Some e /\ unlockDate e = unlock.
Proof.
  unfold getLessonUnlockDate, getMember.
  destruct (getOwn (unlockSchedule sys) lessonId) as [e|].
  - intros [= <-]. eauto.
  - destruct (inheritedName lessonId); discriminate.
Qed.

End UnlockMore.

(** X1. The unlocked lessons are an initial part of the enumeration:
    whenever a lesson of the schedule is unlocked at a date, every lesson
    before it in the enumeration is unlocked at that date too. *)
Theorem unlocked_lessons_form_a_prefix (LocalTZA start : Z) (i j : nat)
    (a b : LessonUnlock.LessonInfo) (currentDate : Z) :
  (i <= j)%nat ->
  nth_error LessonUnlock.generateLessonIds i = Some a ->
  nth_error LessonUnlock.generateLessonIds j = Some b ->
  fst (LessonUnlock.isLessonUnlockedById LocalTZA (LessonUnlock.new LocalTZA start)
         (LessonUnlock.id b) currentDate) = true ->
  fst (LessonUnlock.isLessonUnlockedById LocalTZA (LessonUnlock.new LocalTZA start)
         (LessonUnlock.id a) currentDate) = true.
Proof.
  intros Hij Ha Hb.
  destruct (entry_at LocalTZA start i a Ha) as (ea & Hea & Hda).
  destruct (entry_at LocalTZA start j b Hb) as (eb & Heb & Hdb).
  rewrite (isLessonUnlockedById_entry LocalTZA _ _ _ currentDate Hea).
  rewrite (isLessonUnlockedById_entry LocalTZA _ _ _ currentDate Heb).
  cbn [fst]. rewrite !Z.leb_le. intros Hu.
  assert (Hle : LessonUnlock.unlockDate ea <= LessonUnlock.unlockDate eb).
  { destruct (Nat.eq_dec i j) as [-> | Hne].
    - rewrite Hda in Hdb. injection Hdb as ->. lia.
    - apply Z.lt_le_incl.
      apply (StronglySorted_nth_lt _ i j _ _ (schedule_dates_sorted LocalTZA start));
        [lia | assumption | assumption]. }
  pose proof (localMidnight_mono LocalTZA _ _ Hle). lia.
Qed.

Lemma unlocked_lessons_form_a_prefix_witness :
  (0 <= 1)%nat
  /\ nth_error LessonUnlock.generateLessonIds 0 = Some les_1_1
  /\ nth_error LessonUnlock.generateLessonIds 1 = Some les_1_2
  /\ fst (LessonUnlock.isLessonUnlockedById 0 (LessonUnlock.new 0 (dateOnly 2025 7 24))
            (js "les_1_2") (dateOnly 2025 7 25)) = true
  /\ fst (LessonUnlock.isLessonUnlockedById 0 (LessonUnlock.new 0 (dateOnly 2025 7 24))
            (js "les_1_1") (dateOnly 2025 7 25)) = true.
Proof.
  assert (H1 : nth_error LessonUnlock.generateLessonIds 0 = Some les_1_1)
    by (rewrite first_lessons; reflexivity).
  assert (H2 : nth_error LessonUnlock.generateLessonIds 1 = Some les_1_2)
    by (rewrite first_lessons; reflexivity).
  assert (H3 : fst (LessonUnlock.isLessonUnlockedById 0
                      (LessonUnlock.new 0 (dateOnly 2025 7 24))
                      (js "les_1_2") (dateOnly 2025 7 25)) = true).
  { rewrite (isLessonUnlockedById_entry 0 _ _ _ _ (second_entry 0 _)).
    cbn [fst LessonUnlock.unlockDate]. rewrite second_date by lia.
    apply Z.leb_le. lia. }
  split; [lia|]. split; [exact H1|]. split; [exact H2|]. split; [exact H3|].
  apply (unlocked_lessons_form_a_prefix 0 (dateOnly 2025 7 24) 0 1 les_1_1 les_1_2
           (dateOnly 2025 7 25)); [lia | exact H1 | exact H2 | exact H3].
Defined.

(** X2. In a time zone with a fixed offset from UTC (no clock change
    over the schedule), lessons unlock on consecutive non-Sunday days with
    no day left out: each unlock date is 24 hours after the one before
    it, or 48 hours after it when the day between is a local Sunday. *)
Theorem unlock_dates_skip_only_sundays (LocalTZA start : Z) :
  exists D,
    map (fun l => LessonUnlock.getLessonUnlockDate (LessonUnlock.new LocalTZA start)
                    (LessonUnlock.id l))
        LessonUnlock.generateLessonIds
    = map (fun d => Some (Some d)) D
    /\ LocallySorted (nextUnlockDay LocalTZA) D.
Proof.
  exists (dates (LessonUnlock.generateUnlockSchedule LocalTZA start)).
  split; [apply unlock_dates_in_order | apply schedule_steps].
Qed.

(** X3. Once unlocked, always unlocked: for every system, lesson id and
    list of lessons, a lesson or a chapter that is unlocked at a date is
    unlocked at every later date. *)
Theorem unlocked_stays_unlocked (LocalTZA : Z) (sys : LessonUnlock.LessonUnlockSystem)
    (lessonId : jsstring) (chapterNumber : Z) (lessons : list Csv.Lesson) (d d' : Z) :
  d <= d' ->
  (fst (LessonUnlock.isLessonUnlockedById LocalTZA sys lessonId d) = true ->
   fst (LessonUnlock.isLessonUnlockedById LocalTZA sys lessonId d') = true)
  /\ (fst (LessonUnlock.isChapterUnlocked LocalTZA sys chapterNumber lessons d) = true ->
      fst (LessonUnlock.isChapterUnlocked LocalTZA sys chapterNumber lessons d') = true).
Proof.
  intros Hd. split.
  - apply isLessonUnlockedById_monotone, Hd.
  - unfold LessonUnlock.isChapterUnlocked. rewrite !someUnlocked_true_iff.
    intros (l & Hin & Hl). exists l. split; [exact Hin|].
    apply (isLessonUnlockedById_monotone LocalTZA sys _ d d' Hd Hl).
Qed.

Lemma unlocked_stays_unlocked_witness :
  0 <= 1
  /\ (fst (LessonUnlock.isLessonUnlockedById 0 (LessonUnlock.new 0 0) (js "les_1_1") 0) = true
      /\ fst (LessonUnlock.isLessonUnlockedById 0 (LessonUnlock.new 0 0) (js "les_1_1") 1) = true)
  /\ (fst (LessonUnlock.isChapterUnlocked 0 (LessonUnlock.new 0 0) 1 [flagOnlyLesson] 0) = true
      /\ fst (LessonUnlock.isChapterUnlocked 0 (LessonUnlock.new 0 0) 1 [flagOnlyLesson] 1) = true).
Proof.
  assert (H1 : fst (LessonUnlock.isLessonUnlockedById 0 (LessonUnlock.new 0 0)
                      (js "les_1_1") 0) = true).
  { rewrite (isLessonUnlockedById_entry 0 _ _ _ _ (first_entry 0 0)).
    cbn [fst LessonUnlock.unlockDate]. apply Z.leb_le. lia. }
  assert (H2 : fst (LessonUnlock.isChapterUnlocked 0 (LessonUnlock.new 0 0) 1
                      [flagOnlyLesson] 0) = true).
  { unfold LessonUnlock.isChapterUnlocked. apply someUnlocked_true_iff.
    exists flagOnlyLesson. split; [left; reflexivity|].
    rewrite isLessonUnlockedById_fallback; [reflexivity | | reflexivity].
    rewrite unlockSchedule_new, schedule_keys. apply includes_false_iff.
    vm_compute. reflexivity. }
  destruct (unlocked_stays_unlocked 0 (LessonUnlock.new 0 0) (js "les_1_1") 1
              [flagOnlyLesson] 0 1) as [Ha Hb]; [lia|].
  split; [lia|]. split; [split; [exact H1 | exact (Ha H1)] | split; [exact H2 | exact (Hb H2)]].
Defined.

(** X4. In a time zone with a fixed offset from UTC (no clock change
    between the reference date and the unlock date), for a lesson of the
    schedule [getDaysUntilUnlock] is the number of local calendar days
    from the reference date to the unlock date, never below 0, and it is 0
    exactly when the lesson is unlocked. For an id with no entry in the
    schedule it is 0. *)
Theorem days_until_unlock_counts_local_days (LocalTZA : Z)
    (sys : LessonUnlock.LessonUnlockSystem) (lessonId : jsstring)
    (unlock currentDate : Z) :
  (LessonUnlock.getLessonUnlockDate sys lessonId = Some (Some unlock) ->
   LessonUnlock.getDaysUntilUnlock LocalTZA sys lessonId currentDate
   = Z.max 0 (localDay LocalTZA unlock - localDay LocalTZA currentDate)
   /\ (LessonUnlock.getDaysUntilUnlock LocalTZA sys lessonId currentDate = 0
       <-> fst (LessonUnlock.isLessonUnlockedById LocalTZA sys lessonId currentDate) = true))
  /\ (getOwn (LessonUnlock.unlockSchedule sys) lessonId = None ->
      LessonUnlock.getDaysUntilUnlock LocalTZA sys lessonId currentDate = 0).
Proof.
  split.
  - intros H. rewrite (getDaysUntilUnlock_entry LocalTZA sys lessonId unlock currentDate H).
    split; [reflexivity|].
    destruct (getLessonUnlockDate_Some sys lessonId unlock H) as (e & He & <-).
    rewrite (isLessonUnlockedById_entry LocalTZA sys lessonId e currentDate He).
    cbn [fst]. rewrite Z.leb_le, localMidnight_le_iff. lia.
  - intros H. unfold LessonUnlock.getDaysUntilUnlock, LessonUnlock.getLessonUnlockDate,
      LessonUnlock.getMember.
    rewrite H. destruct (inheritedName lessonId); reflexivity.
Qed.

Lemma days_until_unlock_counts_local_days_witness :
  (LessonUnlock.getLessonUnlockDate (LessonUnlock.new 0 (dateOnly 2025 7 24)) (js "les_1_2")
   = Some (Some (dateOnly 2025 7 25))
   /\ LessonUnlock.getDaysUntilUnlock 0 (LessonUnlock.new 0 (dateOnly 2025 7 24))
        (js "les_1_2") (dateOnly 2025 7 24)
      = Z.max 0 (localDay 0 (dateOnly 2025 7 25) - localDay 0 (dateOnly 2025 7 24)))
  /\ (getOwn (LessonUnlock.unlockSchedule (LessonUnlock.new 0 (dateOnly 2025 7 24)))
        (js "les_99_1") = None
      /\ LessonUnlock.getDaysUntilUnlock 0 (LessonUnlock.new 0 (dateOnly 2025 7 24))
           (js "les_99_1") (dateOnly 2025 7 24) = 0).
Proof.
  assert (H1 : LessonUnlock.getLessonUnlockDate (LessonUnlock.new 0 (dateOnly 2025 7 24))
                 (js "les_1_2") = Some (Some (dateOnly 2025 7 25))).
  { unfold LessonUnlock.getLessonUnlockDate.
    rewrite (getMember_own _ _ _ (second_entry 0 _)).
    cbn [LessonUnlock.unlockDateOf LessonUnlock.unlockDate].
    rewrite second_date by lia. reflexivity. }
  assert (H2 : getOwn (LessonUnlock.unlockSchedule (LessonUnlock.new 0 (dateOnly 2025 7 24)))
                 (js "les_99_1") = None).
  { apply getOwn_None_keys. rewrite unlockSchedule_new, schedule_keys.
    apply includes_false_iff. vm_compute. reflexivity. }
  split.
  - split; [exact H1|].
    apply (proj1 (days_until_unlock_counts_local_days 0 _ _ _ (dateOnly 2025 7 24))), H1.
  - split; [exact H2|].
    apply (proj2 (days_until_unlock_counts_local_days 0 _ _ 0 (dateOnly 2025 7 24))), H2.
Defined.

(** X5. A chapter fails open with its lessons: if the supplied lessons hold
    one whose id has no entry in the schedule and is not the name of an
    inherited member, [isChapterUnlocked] is true at every date. *)
Theorem chapter_with_unscheduled_lesson_is_unlocked (LocalTZA : Z)
    (sys : LessonUnlock.LessonUnlockSystem) (chapterNumber : Z)
    (lessons : list Csv.Lesson) (l : Csv.Lesson) (currentDate : Z) :
  In l lessons ->
  ~ In (Csv.lesson_id l) (keys (LessonUnlock.unlockSchedule sys)) ->
  inheritedName (Csv.lesson_id l) = false ->
  fst (LessonUnlock.isChapterUnlocked LocalTZA sys chapterNumber lessons currentDate) = true.
Proof.
  intros Hin Hk Hi. unfold LessonUnlock.isChapterUnlocked.
  apply someUnlocked_true_iff. exists l. split; [exact Hin|].
  rewrite (isLessonUnlockedById_fallback LocalTZA sys _ currentDate Hk Hi). reflexivity.
Qed.

Lemma chapter_with_unscheduled_lesson_is_unlocked_witness :
  In flagOnlyLesson [flagOnlyLesson]
  /\ ~ In (Csv.lesson_id flagOnlyLesson)
         (keys (LessonUnlock.unlockSchedule (LessonUnlock.new 0 0)))
  /\ inheritedName (Csv.lesson_id flagOnlyLesson) = false
  /\ fst (LessonUnlock.isChapterUnlocked 0 (LessonUnlock.new 0 0) 1 [flagOnlyLesson] 0) = true.
Proof.
  assert (H1 : In flagOnlyLesson [flagOnlyLesson]) by (left; reflexivity).
  assert (H2 : ~ In (Csv.lesson_id flagOnlyLesson)
                 (keys (LessonUnlock.unlockSchedule (LessonUnlock.new 0 0)))).
  { rewrite unlockSchedule_new, schedule_keys. apply includes_false_iff.
    vm_compute. reflexivity. }
  assert (H3 : inheritedName (Csv.lesson_id flagOnlyLesson) = false) by reflexivity.
  split; [exact H1|]. split; [exact H2|]. split; [exact H3|].
  apply (chapter_with_unscheduled_lesson_is_unlocked 0 _ 1 _ flagOnlyLesson 0 H1 H2 H3).
Defined.

(** ** Completed tasks: lookup after marking *)

Lemma includes_iff (l l' : list jsstring) (x : jsstring) :
  (In x l <-> In x l') -> includes l x = includes l' x.
Proof.
  intros H. destruct (includes l' x) eqn:E.
  - apply includes_In, H, includes_In, E.
  - apply includes_false_iff. intros Hin. apply H, includes_In in Hin. congruence.
Qed.

Lemma appendOnce_lists (key : jsstring -> jsstring)
    (key_inj : forall a b, key a = key b -> a = b)
    (st st' : storage) (a x : jsstring) :
  appendOnce key st a x = Some st' ->
  exists l,
    readList key st a = Some l
    /\ readList key st' a = Some (if includes l x then l else l ++ [x])
    /\ forall b, b <> a -> readList key st' b = readList key st b.
Proof.
  unfold appendOnce. destruct (readList key st a) as [l|] eqn:Hl; [|discriminate].
  exists l. split; [reflexivity|].
  destruct (includes l x); cbn [negb] in H; injection H as <-.
  - split; [exact Hl | reflexivity].
  - split; [apply readList_setItem|].
    intros b Hb. apply readList_setItem_other; [exact key_inj | congruence].
Qed.

(** X6. After [markTaskCompleted] the task is completed, every other task
    of the course and every task of another course is as it was, and the
    list of the course keeps its old entries in their order, with at most
    the new id behind them. *)
Theorem marked_task_is_completed (st st' : storage) (courseId taskId : jsstring) :
  Csv.markTaskCompleted st courseId taskId = Some st' ->
  Csv.isTaskCompleted st' courseId taskId = Some true
  /\ (forall c t, c <> courseId \/ t <> taskId ->
        Csv.isTaskCompleted st' c t = Csv.isTaskCompleted st c t)
  /\ (exists l, Csv.getCompletedTasks st courseId = Some l
        /\ (Csv.getCompletedTasks st' courseId = Some l
            \/ Csv.getCompletedTasks st' courseId = Some (l ++ [taskId]))).
Proof.
  intros H. rewrite markTaskCompleted_appendOnce in H.
  destruct (appendOnce_lists Csv.completedKey completedKey_inj st st' courseId taskId H)
    as (l & Hl & Hl' & Hother).
  unfold readList in *. unfold Csv.isTaskCompleted, Csv.getCompletedTasks.
  split; [|split].
  - rewrite Hl'. f_equal. apply includes_In.
    destruct (includes l taskId) eqn:E.
    + apply includes_In, E.
    + apply in_app_iff. right. left. reflexivity.
  - intros c t Hct. destruct (jsstring_eq_dec c courseId) as [-> | Hc].
    + rewrite Hl', Hl. f_equal. apply includes_iff.
      destruct (includes l taskId); [tauto|].
      rewrite in_app_iff. simpl. split; [|tauto].
      intros [Hin | [E | []]]; [exact Hin|]. subst. destruct Hct; congruence.
    + rewrite (Hother c Hc). reflexivity.
  - exists l. split; [exact Hl|]. rewrite Hl'.
    destruct (includes l taskId); [left | right]; reflexivity.
Qed.

Lemma marked_task_is_completed_witness :
  Csv.markTaskCompleted ∅ (js "c1") (js "t1")
  = Some (setItem ∅ (Csv.completedKey (js "c1")) (JSONArray [js "t1"]))
  /\ Csv.isTaskCompleted (setItem ∅ (Csv.completedKey (js "c1")) (JSONArray [js "t1"]))
       (js "c1") (js "t1") = Some true.
Proof.
  assert (H : Csv.markTaskCompleted ∅ (js "c1") (js "t1")
              = Some (setItem ∅ (Csv.completedKey (js "c1")) (JSONArray [js "t1"])))
    by reflexivity.
  split; [exact H|].
  apply (marked_task_is_completed ∅ _ (js "c1") (js "t1") H).
Defined.

(** ** The chapter page: completed tasks and lessons *)

Lemma NoDup_setOf_acc (l acc : list jsstring) :
  List.NoDup acc ->
  List.NoDup (fold_left (fun acc x => if includes acc x then acc else acc ++ [x]) l acc).
Proof.
  revert acc. induction l as [|y l IH]; intros acc Hacc; simpl; [exact Hacc|].
  apply IH. destruct (includes acc y) eqn:E; [exact Hacc|].
  apply NoDup_snoc_fresh; [exact Hacc | apply includes_false_iff, E].
Qed.

Lemma NoDup_setOf (l : list jsstring) : List.NoDup (setOf l).
Proof. apply NoDup_setOf_acc. constructor. Qed.

Section ChapterPageMore.

Import ChapterPage.

Variable courseId : jsstring.
Variable localStorage sessionStorage : storage.
Variable lessonHasLearning : object bool.

Local Abbreviation lessonTaskIds lesson := (map Csv.id (Csv.tasks lesson)).

Lemma getLessonCompletedTasks_filter (lesson : Csv.Lesson) (merged : list jsstring) :
  allCompletedTasks courseId localStorage sessionStorage = Some merged ->
  getLessonCompletedTasks courseId localStorage sessionStorage lesson
  = Some (List.filter (fun taskId => includes (lessonTaskIds lesson) taskId) merged).
Proof. intros H. unfold getLessonCompletedTasks. rewrite H. reflexivity. Qed.

Lemma allCompletedTasks_NoDup (merged : list jsstring) :
  allCompletedTasks courseId localStorage sessionStorage = Some merged -> List.NoDup merged.
Proof.
  unfold allCompletedTasks.
  destruct (parseList (getItem localStorage (Csv.completedKey courseId))); [|discriminate].
  destruct (Csv.getCompletedTasks sessionStorage courseId); [|discriminate].
  intros [= <-]. apply NoDup_setOf.
Qed.

(** With pairwise distinct task ids, the number of distinct completed ids
    of the lesson reaches the number of its tasks exactly when every task
    id is completed. *)
Lemma all_ids_counted (lesson : Csv.Lesson) (merged : list jsstring) :
  List.NoDup merged ->
  List.NoDup (lessonTaskIds lesson) ->
  length (List.filter (fun taskId => includes (lessonTaskIds lesson) taskId) merged)
  = length (Csv.tasks lesson)
  <-> forall t, In t (Csv.tasks lesson) -> In (Csv.id t) merged.
Proof.
  intros Hm Hids.
  set (done := List.filter (fun taskId => includes (lessonTaskIds lesson) taskId) merged).
  assert (Hdone : List.NoDup done) by (apply List.NoDup_filter, Hm).
  assert (Hsub : incl done (lessonTaskIds lesson)).
  { intros x Hx. apply filter_In in Hx as [_ Hx]. apply includes_In, Hx. }
  rewrite <- (length_map Csv.id (Csv.tasks lesson)).
  split.
  - intros Hlen t Ht.
    assert (Hincl : incl (lessonTaskIds lesson) done).
    { apply (List.NoDup_length_incl Hdone); [lia | exact Hsub]. }
    specialize (Hincl (Csv.id t) (in_map Csv.id _ _ Ht)).
    apply filter_In in Hincl. tauto.
  - intros Hall.
    assert (Hincl : incl (lessonTaskIds lesson) done).
    { intros x Hx. apply filter_In. split; [|apply includes_In, Hx].
      apply in_map_iff in Hx as (t & <- & Ht). apply Hall, Ht. }
    pose proof (List.NoDup_incl_length Hids Hincl).
    pose proof (List.NoDup_incl_length Hdone Hsub). lia.
Qed.

Lemma countComplete_filter (completedLessonsSet : list jsstring) (lessons : list Csv.Lesson)
    (n m : Z) :
  countComplete courseId localStorage sessionStorage lessonHasLearning
    completedLessonsSet lessons n = Some m ->
  m = n + Z.of_nat (length (List.filter
        (fun lesson =>
           match isComplete courseId localStorage sessionStorage lessonHasLearning
                   completedLessonsSet lesson with
           | Some b => b
           | None => false
           end) lessons)).
Proof.
  revert n. induction lessons as [|lesson more IH]; intros n; cbn [countComplete].
  - intros [= <-]. simpl. lia.
  - cbn [List.filter].
    destruct (isComplete _ _ _ _ _ lesson) as [[|]|]; [| |discriminate];
      intros H; apply IH in H; cbn [length]; lia.
Qed.

End ChapterPageMore.

(** X7. The completed tasks that the chapter page shows for a lesson are
    exactly the task ids of the lesson stored as completed in
    [localStorage] or in [sessionStorage], each once; there are never more
    of them than the lesson has tasks. *)
Theorem lesson_completed_tasks_are_its_stored_ids (courseId : jsstring)
    (localStorage sessionStorage : storage) (lesson : Csv.Lesson) (done : list jsstring) :
  ChapterPage.getLessonCompletedTasks courseId localStorage sessionStorage lesson = Some done ->
  exists localTasks sessionTasks,
    parseList (getItem localStorage (Csv.completedKey courseId)) = Some localTasks
    /\ Csv.getCompletedTasks sessionStorage courseId = Some sessionTasks
    /\ List.NoDup done
    /\ (forall x, In x done <->
          (In x localTasks \/ In x sessionTasks) /\ In x (map Csv.id (Csv.tasks lesson)))
    /\ (length done <= length (Csv.tasks lesson))%nat.
Proof.
  intros H. unfold ChapterPage.getLessonCompletedTasks in H.
  destruct (ChapterPage.allCompletedTasks courseId localStorage sessionStorage)
    as [merged|] eqn:Hm; [|discriminate].
  injection H as <-.
  destruct (allCompletedTasks_union _ _ _ _ Hm) as (localTasks & sessionTasks & Hl & Hs & Hin).
  exists localTasks, sessionTasks. split; [exact Hl|]. split; [exact Hs|].
  pose proof (allCompletedTasks_NoDup _ _ _ _ Hm) as Hnd.
  assert (Hdone : List.NoDup
            (List.filter (fun taskId => includes (map Csv.id (Csv.tasks lesson)) taskId) merged))
    by (apply List.NoDup_filter, Hnd).
  split; [exact Hdone|]. split.
  - intros x. rewrite filter_In, includes_In, Hin. tauto.
  - rewrite <- (length_map Csv.id (Csv.tasks lesson)).
    apply (List.NoDup_incl_length Hdone).
    intros x Hx. apply filter_In in Hx as [_ Hx]. apply includes_In, Hx.
Qed.

Lemma lesson_completed_tasks_are_its_stored_ids_witness :
  ChapterPage.getLessonCompletedTasks (js "c1")
    (setItem ∅ (Csv.completedKey (js "c1")) (JSONArray [js "t1"; js "t9"])) ∅ flagOnlyLesson
  = Some [js "t1"]
  /\ exists localTasks sessionTasks,
       parseList (getItem (setItem ∅ (Csv.completedKey (js "c1")) (JSONArray [js "t1"; js "t9"]))
                    (Csv.completedKey (js "c1"))) = Some localTasks
       /\ Csv.getCompletedTasks ∅ (js "c1") = Some sessionTasks
       /\ List.NoDup [js "t1"]
       /\ (forall x, In x [js "t1"] <->
             (In x localTasks \/ In x sessionTasks)
             /\ In x (map Csv.id (Csv.tasks flagOnlyLesson)))
       /\ (length [js "t1"] <= length (Csv.tasks flagOnlyLesson))%nat.
Proof.
  assert (H : ChapterPage.getLessonCompletedTasks (js "c1")
                (setItem ∅ (Csv.completedKey (js "c1")) (JSONArray [js "t1"; js "t9"])) ∅
                flagOnlyLesson = Some [js "t1"]) by reflexivity.
  split; [exact H|].
  apply (lesson_completed_tasks_are_its_stored_ids _ _ _ _ _ H).
Defined.

(** X8. The chapter header and the lesson card agree on a lesson whenever
    the stored lists parse, the task ids of the lesson are pairwise
    distinct, and a set learning-done flag comes with the lesson id in
    the completed-lesson list of the course: then [isComplete] of
    [computeLessonLevelCompletion] equals [isLessonFullyComplete]. *)
Theorem chapter_header_agrees_with_lesson_card (courseId : jsstring)
    (localStorage sessionStorage : storage) (lessonHasLearning : object bool)
    (lesson : Csv.Lesson) (merged completedLessons : list jsstring) :
  ChapterPage.allCompletedTasks courseId localStorage sessionStorage = Some merged ->
  ChapterPage.getCompletedLessonsList courseId localStorage = Some completedLessons ->
  List.NoDup (map Csv.id (Csv.tasks lesson)) ->
  (ChapterPage.isLessonLearningDone localStorage (Csv.lesson_id lesson) = true ->
   In (Csv.lesson_id lesson) completedLessons) ->
  ChapterPage.isComplete courseId localStorage sessionStorage lessonHasLearning
    (setOf completedLessons) lesson
  = ChapterPage.isLessonFullyComplete courseId localStorage sessionStorage lessonHasLearning
      lesson.
Proof.
  intros Hm Hl Hids Hflag.
  unfold ChapterPage.isComplete, ChapterPage.isLessonFullyComplete.
  rewrite (getLessonCompletedTasks_filter _ _ _ _ _ Hm), Hl.
  set (done := List.filter _ merged).
  assert (Hset : includes (setOf completedLessons) (Csv.lesson_id lesson)
                 = includes completedLessons (Csv.lesson_id lesson))
    by (apply includes_iff, In_setOf).
  assert (Hld : ChapterPage.learningDone localStorage completedLessons lesson
                = includes completedLessons (Csv.lesson_id lesson)).
  { unfold ChapterPage.learningDone.
    destruct (ChapterPage.isLessonLearningDone localStorage (Csv.lesson_id lesson)) eqn:E;
      [|reflexivity].
    cbn [orb]. symmetry. apply includes_In, Hflag. reflexivity. }
  assert (Hcount : (length done =? length (Csv.tasks lesson))%nat
                   = (Csv.completedTasks (Csv.calculateProgress (Csv.tasks lesson) done)
                      =? Z.of_nat (length (Csv.tasks lesson)))).
  { pose proof (all_ids_counted lesson merged (allCompletedTasks_NoDup _ _ _ _ Hm) Hids) as H1.
    pose proof (all_tasks_counted lesson merged) as H2.
    fold done in H1, H2.
    destruct (Z.eqb_spec (Csv.completedTasks (Csv.calculateProgress (Csv.tasks lesson) done))
                (Z.of_nat (length (Csv.tasks lesson)))) as [E | E].
    - apply Nat.eqb_eq, H1, H2, E.
    - apply Nat.eqb_neq. intros E'. apply E, H2, H1, E'. }
  rewrite Hset, Hcount, Hld.
  destruct (ChapterPage.hasTasks lesson && ChapterPage.hasLearning _ _ _ lesson);
    [reflexivity|].
  destruct (ChapterPage.hasTasks lesson); [reflexivity|].
  destruct (ChapterPage.hasLearning _ _ _ lesson); [|reflexivity].
  rewrite orb_diag. reflexivity.
Qed.

Definition flagAndListStorage : storage :=
  setItem flagOnlyStorage (js "course_c1_completed_lessons") (JSONArray [js "L1"]).

Lemma chapter_header_agrees_with_lesson_card_witness :
  ChapterPage.allCompletedTasks (js "c1") flagAndListStorage ∅ = Some []
  /\ ChapterPage.getCompletedLessonsList (js "c1") flagAndListStorage = Some [js "L1"]
  /\ List.NoDup (map Csv.id (Csv.tasks flagOnlyLesson))
  /\ ChapterPage.isComplete (js "c1") flagAndListStorage ∅ [(js "L1", true)]
       (setOf [js "L1"]) flagOnlyLesson
     = ChapterPage.isLessonFullyComplete (js "c1") flagAndListStorage ∅ [(js "L1", true)]
         flagOnlyLesson.
Proof.
  assert (H1 : ChapterPage.allCompletedTasks (js "c1") flagAndListStorage ∅ = Some [])
    by reflexivity.
  assert (H2 : ChapterPage.getCompletedLessonsList (js "c1") flagAndListStorage
               = Some [js "L1"]) by reflexivity.
  assert (H3 : List.NoDup (map Csv.id (Csv.tasks flagOnlyLesson)))
    by (cbn; constructor; [intros [] | constructor]).
  split; [exact H1|]. split; [exact H2|]. split; [exact H3|].
  apply (chapter_header_agrees_with_lesson_card _ _ _ _ flagOnlyLesson _ _ H1 H2 H3).
  intros _. left. reflexivity.
Defined.

Lemma percentage_bounds (part whole : Z) :
  0 <= part <= whole -> 0 < whole ->
  (0 <= inject_Z part / inject_Z whole * inject_Z 100)%Q
  /\ (inject_Z part / inject_Z whole * inject_Z 100 <= 100)%Q
  /\ (inject_Z part / inject_Z whole * inject_Z 100 == 100 <-> part = whole)%Q.
Proof.
  intros Hp Hw.
  assert (Hw' : (0 < inject_Z whole)%Q) by (unfold Qlt; simpl; lia).
  assert (Hne : ~ (inject_Z whole == 0)%Q) by (intros E; rewrite E in Hw'; discriminate).
  assert (E : (inject_Z part / inject_Z whole * inject_Z 100
               == inject_Z (part * 100) / inject_Z whole)%Q).
  { rewrite inject_Z_mult. field. exact Hne. }
  rewrite E. split; [|split].
  - apply Qle_shift_div_l; [exact Hw'|]. rewrite Qmult_0_l.
    unfold Qle; simpl. lia.
  - apply Qle_shift_div_r; [exact Hw'|]. unfold Qle; simpl. lia.
  - split.
    + intros H. apply (Qmult_inj_r _ _ (inject_Z whole)) in H; [|exact Hne].
      rewrite Qmult_comm, Qmult_div_r in H by exact Hne.
      unfold Qeq in H; simpl in H. lia.
    + intros ->. rewrite inject_Z_mult. field. exact Hne.
Qed.

(** X9. The chapter header counts lessons: [totalLessonCount] is the
    number of lessons of the chapter, [completedLessonCount] the number of
    them for which [isComplete] holds, between 0 and the total, and the
    percentage lies between 0 and 100, at 100 exactly when the chapter has
    a lesson and all its lessons are complete. *)
Theorem lesson_level_completion_counts (courseId : jsstring)
    (localStorage sessionStorage : storage) (lessonHasLearning : object bool)
    (chapter : Csv.Chapter) (completedLessons : list jsstring)
    (r : ChapterPage.LessonLevelCompletion) :
  ChapterPage.getCompletedLessonsList courseId localStorage = Some completedLessons ->
  ChapterPage.computeLessonLevelCompletion courseId localStorage sessionStorage
    lessonHasLearning (Some chapter) = Some r ->
  ChapterPage.totalLessonCount r = Z.of_nat (length (Csv.lessons chapter))
  /\ ChapterPage.completedLessonCount r
     = Z.of_nat (length (List.filter
         (fun lesson =>
            match ChapterPage.isComplete courseId localStorage sessionStorage
                    lessonHasLearning (setOf completedLessons) lesson with
            | Some b => b
            | None => false
            end) (Csv.lessons chapter)))
  /\ 0 <= ChapterPage.completedLessonCount r <= ChapterPage.totalLessonCount r
  /\ (0 <= ChapterPage.percentage r)%Q
  /\ (ChapterPage.percentage r <= 100)%Q
  /\ ((ChapterPage.percentage r == 100)%Q <->
      Csv.lessons chapter <> []
      /\ ChapterPage.completedLessonCount r = ChapterPage.totalLessonCount r).
Proof.
  intros Hl H. unfold ChapterPage.computeLessonLevelCompletion in H. rewrite Hl in H.
  destruct (ChapterPage.countComplete _ _ _ _ _ (Csv.lessons chapter) 0) as [m|] eqn:Hc;
    [|discriminate].
  injection H as <-. cbn [ChapterPage.totalLessonCount ChapterPage.completedLessonCount
                           ChapterPage.percentage].
  apply countComplete_filter in Hc. rewrite Z.add_0_l in Hc.
  pose proof (List.filter_length_le
    (fun lesson =>
       match ChapterPage.isComplete courseId localStorage sessionStorage
               lessonHasLearning (setOf completedLessons) lesson with
       | Some b => b
       | None => false
       end) (Csv.lessons chapter)) as Hle.
  split; [reflexivity|]. split; [exact Hc|]. split; [lia|].
  destruct (Z.eqb_spec (Z.of_nat (length (Csv.lessons chapter))) 0) as [E | E].
  - split; [apply Qle_refl|]. split; [discriminate|].
    split; [discriminate|]. intros [Hne _]. destruct (Csv.lessons chapter); [tauto | discriminate].
  - destruct (percentage_bounds m (Z.of_nat (length (Csv.lessons chapter))))
      as (H0 & H100 & Heq); [lia | lia |].
    split; [exact H0|]. split; [exact H100|]. rewrite Heq.
    split; [|tauto]. intros ->. split; [|reflexivity].
    intros E'. rewrite E' in E. apply E. reflexivity.
Qed.

Lemma lesson_level_completion_counts_witness :
  ChapterPage.getCompletedLessonsList (js "c1") flagAndListStorage = Some [js "L1"]
  /\ ChapterPage.computeLessonLevelCompletion (js "c1") flagAndListStorage ∅
       [(js "L1", true)] (Some flagOnlyChapter)
     = Some {| ChapterPage.completedLessonCount := 1;
               ChapterPage.totalLessonCount := 1;
               ChapterPage.percentage := (inject_Z 1 / inject_Z 1) * inject_Z 100 |}
  /\ 0 <= 1 <= 1.
Proof.
  assert (H1 : ChapterPage.getCompletedLessonsList (js "c1") flagAndListStorage
               = Some [js "L1"]) by reflexivity.
  assert (H2 : ChapterPage.computeLessonLevelCompletion (js "c1") flagAndListStorage ∅
                 [(js "L1", true)] (Some flagOnlyChapter)
               = Some {| ChapterPage.completedLessonCount := 1;
                         ChapterPage.totalLessonCount := 1;
                         ChapterPage.percentage := (inject_Z 1 / inject_Z 1) * inject_Z 100 |})
    by reflexivity.
  split; [exact H1|]. split; [exact H2|].
  apply (lesson_level_completion_counts _ _ _ _ _ _ _ H1 H2).
Defined.

(** ** Progress percentages *)

Lemma sumXP_nonneg (ts : list Csv.Task) :
  (forall t, In t ts -> 0 <= Csv.xp t) -> 0 <= Csv.sumXP ts.
Proof.
  induction ts as [|t ts IH]; intros H.
  - reflexivity.
  - rewrite sumXP_cons. specialize (H t (or_introl eq_refl)) as Ht.
    assert (0 <= Csv.sumXP ts) by (apply IH; intros u Hu; apply H; right; exact Hu). lia.
Qed.

Lemma sumXP_filter_le (f : Csv.Task -> bool) (ts : list Csv.Task) :
  (forall t, In t ts -> 0 <= Csv.xp t) -> Csv.sumXP (List.filter f ts) <= Csv.sumXP ts.
Proof.
  induction ts as [|t ts IH]; intros H; [reflexivity|].
  assert (Ht : 0 <= Csv.xp t) by (apply H; left; reflexivity).
  assert (IH' : Csv.sumXP (List.filter f ts) <= Csv.sumXP ts)
    by (apply IH; intros u Hu; apply H; right; exact Hu).
  cbn [List.filter]. destruct (f t); rewrite ?sumXP_cons; lia.
Qed.

Lemma percentage_range (part whole : Z) :
  0 <= part <= whole ->
  (0 <= Csv.percentage part whole)%Q /\ (Csv.percentage part whole <= 100)%Q
  /\ ((Csv.percentage part whole == 100)%Q <-> 0 < whole /\ part = whole).
Proof.
  intros H. unfold Csv.percentage. destruct (Z.ltb_spec 0 whole) as [Hw | Hw].
  - destruct (percentage_bounds part whole H Hw) as (H0 & H1 & H2).
    split; [exact H0|]. split; [exact H1|]. rewrite H2. tauto.
  - split; [apply Qle_refl|]. split; [discriminate|].
    split; [discriminate | lia].
Qed.



(** X28. For tasks whose XP amounts are non-negative integers with a
    total of at most 2^53 (so that every task has an XP amount and the
    sums of the program are exact), the earned XP of [calculateProgress]
    lies between 0 and the total XP, and the XP percentage lies between 0
    and 100 and is 0 when the total is 0. *)
Theorem xp_percentage_in_range (T : list Csv.Task) (C : list jsstring) :
  (forall t, In t T -> 0 <= Csv.xp t) ->
  Csv.sumXP T <= 2 ^ 53 ->
  0 <= Csv.earnedXP (Csv.calculateProgress T C) <= Csv.totalXP (Csv.calculateProgress T C)
  /\ Csv.totalXP (Csv.calculateProgress T C) <= 2 ^ 53
  /\ (0 <= Csv.xpPercentage (Csv.calculateProgress T C))%Q
  /\ (Csv.xpPercentage (Csv.calculateProgress T C) <= 100)%Q
  /\ (Csv.totalXP (Csv.calculateProgress T C) = 0 ->
      Csv.xpPercentage (Csv.calculateProgress T C) = 0%Q).
Proof.
  intros Hxp Hsum.
  cbn [Csv.calculateProgress Csv.earnedXP Csv.totalXP Csv.xpPercentage].
  assert (Hfil : forall t, In t (List.filter (fun task => includes C (Csv.id task)) T) ->
                           0 <= Csv.xp t).
  { intros t Ht. apply filter_In in Ht as [Ht _]. apply Hxp, Ht. }
  pose proof (sumXP_nonneg _ Hfil) as He.
  pose proof (sumXP_filter_le (fun task => includes C (Csv.id task)) T Hxp) as Hl.
  split; [lia|]. split; [exact Hsum|].
  destruct (percentage_range
              (Csv.sumXP (List.filter (fun task => includes C (Csv.id task)) T))
              (Csv.sumXP T)) as (H3 & H4 & _); [lia|].
  split; [exact H3|]. split; [exact H4|].
  intros H0. unfold Csv.percentage. rewrite H0. reflexivity.
Qed.

Lemma xp_percentage_in_range_witness :
  (forall t, In t [twinTask] -> 0 <= Csv.xp t)
  /\ Csv.sumXP [twinTask] <= 2 ^ 53
  /\ 0 <= Csv.earnedXP (Csv.calculateProgress [twinTask] [js "t1"])
       <= Csv.totalXP (Csv.calculateProgress [twinTask] [js "t1"])
  /\ (Csv.xpPercentage (Csv.calculateProgress [twinTask] [js "t1"]) <= 100)%Q.
Proof.
  assert (H : forall t, In t [twinTask] -> 0 <= Csv.xp t).
  { intros t [<- | []]. vm_compute. discriminate. }
  assert (H' : Csv.sumXP [twinTask] <= 2 ^ 53) by (vm_compute; discriminate).
  split; [exact H|]. split; [exact H'|].
  destruct (xp_percentage_in_range [twinTask] [js "t1"] H H') as (Ha & _ & _ & Hb & _).
  split; [exact Ha | exact Hb].
Defined.

(** ** Quiz questions: ids and duplicates *)

(** The ids pushed to [duplicates] while the rows with the question ids
    [ids] are read, [seen] being the ids seen before. *)
Fixpoint repeated (seen : list jsstring) (ids : list jsstring) : list jsstring :=
  match ids with
  | [] => []
  | x :: more =>
      if truthy x then
        if includes seen x then x :: repeated seen more
        else repeated (seen ++ [x]) more
      else repeated seen more
  end.

(** What [repeated] holds: the non-empty ids met a second time. *)
Lemma repeated_In (seen ids : list jsstring) (x : jsstring) :
  In x (repeated seen ids) <->
  truthy x = true
  /\ ((In x seen /\ In x ids) \/ (2 <= count_occ jsstring_eq_dec ids x)%nat).
Proof.
  revert seen. induction ids as [|y more IH]; intros seen; cbn [repeated].
  - simpl. split; [intros [] | intros [_ [[_ []] | H]]; lia].
  - cbn [count_occ In]. pose proof (count_occ_In jsstring_eq_dec more x) as Hc.
    destruct (truthy y) eqn:Ty.
    + destruct (includes seen y) eqn:Sy.
      * apply includes_In in Sy. cbn [In]. rewrite IH.
        destruct (jsstring_eq_dec y x) as [-> | Hne].
        -- split; [intros _|tauto]. split; [exact Ty|]. left. tauto.
        -- split.
           ++ intros [E | H]; [congruence|]. tauto.
           ++ intros (Tx & [[Hs [E | Hm]] | H]); [congruence | tauto | tauto].
      * apply includes_false_iff in Sy. rewrite IH, in_app_iff. cbn [In].
        destruct (jsstring_eq_dec y x) as [-> | Hne].
        -- split.
           ++ intros (Tx & [[_ Hm] | H]); (split; [exact Tx|]); right.
              ** apply Hc in Hm. lia.
              ** lia.
           ++ intros (Tx & [[Hs _] | H]); [tauto|]. split; [exact Tx|]. left.
              split; [tauto|]. apply Hc. lia.
        -- split.
           ++ intros (Tx & [[[Hs | [E | []]] Hm] | H]); try congruence; tauto.
           ++ intros (Tx & [[Hs [E | Hm]] | H]); try congruence; tauto.
    + rewrite IH. destruct (jsstring_eq_dec y x) as [-> | Hne].
      * split; intros [Tx _]; congruence.
      * split.
        -- intros (Tx & [[Hs Hm] | H]); tauto.
        -- intros (Tx & [[Hs [E | Hm]] | H]); try congruence; tauto.
Qed.

Lemma count_occ_filter_truthy (ids : list jsstring) (x : jsstring) :
  truthy x = true ->
  count_occ jsstring_eq_dec (List.filter truthy ids) x = count_occ jsstring_eq_dec ids x.
Proof.
  intros Tx. induction ids as [|y ids IH]; [reflexivity|].
  cbn [List.filter count_occ]. destruct (jsstring_eq_dec y x) as [-> | Hne].
  - rewrite Tx. cbn [count_occ]. destruct (jsstring_eq_dec x x); [|congruence]. lia.
  - destruct (truthy y); [|exact IH]. cbn [count_occ].
    destruct (jsstring_eq_dec y x); [congruence | exact IH].
Qed.

Lemma repeated_nil_iff (ids : list jsstring) :
  repeated [] ids = [] <-> List.NoDup (List.filter truthy ids).
Proof.
  split.
  - intros H. apply (List.NoDup_count_occ jsstring_eq_dec). intros x.
    destruct (le_lt_dec (count_occ jsstring_eq_dec (List.filter truthy ids) x) 1)
      as [Hle | Hgt]; [exact Hle|].
    exfalso.
    assert (Hx : In x (List.filter truthy ids)) by (apply (count_occ_In jsstring_eq_dec); lia).
    apply filter_In in Hx as [_ Tx].
    assert (Hin : In x (repeated [] ids)).
    { apply repeated_In. split; [exact Tx|]. right.
      rewrite <- (count_occ_filter_truthy ids x Tx). lia. }
    rewrite H in Hin. destruct Hin.
  - intros H. destruct (repeated [] ids) as [|x r] eqn:E; [reflexivity|]. exfalso.
    assert (Hin : In x (repeated [] ids)) by (rewrite E; left; reflexivity).
    apply repeated_In in Hin as (Tx & [[[] _] | Hc]).
    rewrite (List.NoDup_count_occ jsstring_eq_dec) in H. specialize (H x).
    rewrite (count_occ_filter_truthy ids x Tx) in H. lia.
Qed.

Section QuizMore.

Import Learning.

Variable toUpperCase : jsstring -> jsstring.
Variable randomSuffix : nat -> jsstring.

Local Abbreviation organizeRow := (Learning.organizeRow toUpperCase randomSuffix).
Local Abbreviation mapRows := (Learning.mapRows toUpperCase randomSuffix).

Lemma organizeRow_state (st : QuizState) (row : QuizRow) :
  snd (organizeRow st row)
  = {| seenIds := if truthy (questionId row) && negb (includes (seenIds st) (questionId row))
                  then seenIds st ++ [questionId row] else seenIds st;
       duplicates := if truthy (questionId row) && includes (seenIds st) (questionId row)
                     then duplicates st ++ [questionId row] else duplicates st;
       draws := if truthy (questionId row) then draws st else S (draws st) |}.
Proof.
  unfold Learning.organizeRow.
  destruct (truthy (questionId row)); [|reflexivity].
  destruct (includes (seenIds st) (questionId row)); reflexivity.
Qed.

Lemma organizeRow_question (st : QuizState) (row : QuizRow) :
  fst (organizeRow st row)
  = {| id := if truthy (questionId row) then questionId row
             else (if truthy (lessonId row) then lessonId row else js "lesson")
                    ++ js "_" ++ randomSuffix (draws st);
       q_question := question row;
       q_options := parseOptions row;
       correctIndex :=
         (if 0 <=? indexOf (letters) (toUpperCase (trim (orEmpty (correctOption row))))
          then indexOf (letters) (toUpperCase (trim (orEmpty (correctOption row))))
          else 0);
       q_lessonId := lessonId row;
       q_topicId := topicId row |}.
Proof.
  unfold Learning.organizeRow.
  destruct (truthy (questionId row)); [|reflexivity].
  destruct (includes (seenIds st) (questionId row)); reflexivity.
Qed.

Lemma mapRows_cons (st : QuizState) (row : QuizRow) (more : list QuizRow) :
  mapRows st (row :: more)
  = (fst (organizeRow st row) :: fst (mapRows (snd (organizeRow st row)) more),
     snd (mapRows (snd (organizeRow st row)) more)).
Proof.
  cbn [Learning.mapRows].
  destruct (organizeRow st row) as [q st'].
  cbn [fst snd]. destruct (mapRows st' more) as [qs st'']. reflexivity.
Qed.

Lemma mapRows_duplicates (st : QuizState) (quizRows : list QuizRow) :
  duplicates (snd (mapRows st quizRows))
  = duplicates st ++ repeated (seenIds st) (map questionId quizRows).
Proof.
  revert st. induction quizRows as [|row more IH]; intros st.
  - simpl. rewrite app_nil_r. reflexivity.
  - rewrite mapRows_cons. cbn [snd map repeated]. rewrite IH, organizeRow_state.
    cbn [seenIds duplicates].
    destruct (truthy (questionId row)); cbn [andb]; [|reflexivity].
    destruct (includes (seenIds st) (questionId row)); cbn [negb].
    + rewrite <- app_assoc. reflexivity.
    + reflexivity.
Qed.

Lemma mapRows_draws (st : QuizState) (quizRows : list QuizRow) :
  draws (snd (mapRows st quizRows))
  = (draws st
     + length (List.filter (fun r => negb (truthy (questionId r))) quizRows))%nat.
Proof.
  revert st. induction quizRows as [|row more IH]; intros st.
  - simpl. lia.
  - rewrite mapRows_cons. cbn [snd List.filter]. rewrite IH, organizeRow_state.
    cbn [draws]. destruct (truthy (questionId row)); cbn [negb length]; lia.
Qed.

Lemma mapRows_app (st : QuizState) (rows1 rows2 : list QuizRow) :
  mapRows st (rows1 ++ rows2)
  = (fst (mapRows st rows1) ++ fst (mapRows (snd (mapRows st rows1)) rows2),
     snd (mapRows (snd (mapRows st rows1)) rows2)).
Proof.
  revert st. induction rows1 as [|row more IH]; intros st.
  - cbn [app Learning.mapRows fst snd]. destruct (mapRows st rows2). reflexivity.
  - rewrite <- app_comm_cons, !mapRows_cons, IH. reflexivity.
Qed.

Lemma mapRows_length (st : QuizState) (quizRows : list QuizRow) :
  length (fst (mapRows st quizRows)) = length quizRows.
Proof.
  revert st. induction quizRows as [|row more IH]; intros st; [reflexivity|].
  rewrite mapRows_cons. cbn [fst length]. rewrite IH. reflexivity.
Qed.

End QuizMore.

(** X11. [organizeQuiz] warns exactly when a non-empty question id occurs
    in more than one row. It then writes one warning, which lists each id
    that occurs twice or more once. *)
Theorem organizeQuiz_warns_of_repeated_ids (toUpperCase : jsstring -> jsstring)
    (randomSuffix : nat -> jsstring) (quizRows : list Learning.QuizRow) :
  (snd (Learning.organizeQuiz toUpperCase randomSuffix quizRows) = [] <->
   List.NoDup (List.filter truthy (map Learning.questionId quizRows)))
  /\ (snd (Learning.organizeQuiz toUpperCase randomSuffix quizRows) = []
      \/ exists uniq,
           snd (Learning.organizeQuiz toUpperCase randomSuffix quizRows)
           = [DuplicateQuestionIds uniq]
           /\ List.NoDup uniq
           /\ forall x, In x uniq <->
                truthy x = true
                /\ (2 <= count_occ jsstring_eq_dec (map Learning.questionId quizRows) x)%nat).
Proof.
  unfold Learning.organizeQuiz.
  pose proof (mapRows_duplicates toUpperCase randomSuffix
                {| Learning.seenIds := []; Learning.duplicates := []; Learning.draws := 0 |}
                quizRows) as Hd.
  destruct (Learning.mapRows toUpperCase randomSuffix _ quizRows) as [questions st].
  cbn [snd Learning.seenIds Learning.duplicates app] in *.
  rewrite Hd. split.
  - rewrite <- repeated_nil_iff.
    destruct (repeated [] (map Learning.questionId quizRows)); split; congruence.
  - destruct (repeated [] (map Learning.questionId quizRows)) as [|d ds] eqn:E;
      [left; reflexivity|].
    right. exists (setOf (d :: ds)). split; [reflexivity|]. split; [apply NoDup_setOf|].
    intros x. rewrite In_setOf, <- E, repeated_In. cbn [In]. tauto.
Qed.

Lemma parseOptions_nonempty (row : Learning.QuizRow) :
  List.Forall (fun opt => opt <> []) (Learning.parseOptions row).
Proof.
  assert (H : forall l, List.Forall (fun opt : jsstring => opt <> []) (List.filter truthy l)).
  { intros l. apply List.Forall_forall. intros x Hx. apply filter_In in Hx as [_ Hx].
    intros ->. discriminate. }
  unfold Learning.parseOptions.
  destruct (Learning.options row) as [o|]; [|apply H].
  destruct (truthy o && truthy (trim o)); apply H.
Qed.

Lemma parseOptions_columns (row : Learning.QuizRow) :
  truthy (trim (Learning.orEmpty (Learning.options row))) = false ->
  (length (Learning.parseOptions row) <= 4)%nat.
Proof.
  intros H. unfold Learning.parseOptions.
  assert (H4 : forall l : list jsstring, length l = 4%nat ->
                 (length (List.filter truthy l) <= 4)%nat).
  { intros l <-. apply List.filter_length_le. }
  destruct (Learning.options row) as [o|]; [|apply H4; reflexivity].
  cbn [Learning.orEmpty] in H. rewrite H, andb_false_r. apply H4. reflexivity.
Qed.

(** X12. Question [i] of [organizeQuiz] is built from row [i] alone: it
    carries the question id of the row when that is not empty, also when
    another row has the same id, and otherwise the lesson id of the row
    (or the word lesson), an underscore and the next random suffix, the
    [k]-th row without an id getting the [k]-th draw. Lesson id, topic id
    and question text are those of the row, no option is empty, and there
    are at most four options when the [options] column is blank. *)
Theorem organizeQuiz_question_ids (toUpperCase : jsstring -> jsstring)
    (randomSuffix : nat -> jsstring) (quizRows : list Learning.QuizRow)
    (i : nat) (row : Learning.QuizRow) :
  nth_error quizRows i = Some row ->
  exists q,
    nth_error (fst (Learning.organizeQuiz toUpperCase randomSuffix quizRows)) i = Some q
    /\ Learning.id q
       = (if truthy (Learning.questionId row) then Learning.questionId row
          else (if truthy (Learning.lessonId row) then Learning.lessonId row else js "lesson")
                 ++ js "_"
                 ++ randomSuffix
                      (length (List.filter
                                 (fun r => negb (truthy (Learning.questionId r)))
                                 (firstn i quizRows))))
    /\ Learning.q_lessonId q = Learning.lessonId row
    /\ Learning.q_topicId q = Learning.topicId row
    /\ Learning.q_question q = Learning.question row
    /\ List.Forall (fun opt => opt <> []) (Learning.q_options q)
    /\ (truthy (trim (Learning.orEmpty (Learning.options row))) = false ->
        (length (Learning.q_options q) <= 4)%nat).
Proof.
  intros Hi.
  destruct (nth_error_split quizRows i Hi) as (before & after & -> & Hlen).
  unfold Learning.organizeQuiz.
  set (st0 := {| Learning.seenIds := []; Learning.duplicates := []; Learning.draws := 0 |}).
  rewrite mapRows_app, mapRows_cons.
  destruct (Learning.mapRows toUpperCase randomSuffix _ after) as [qs st'] eqn:E.
  cbn [fst snd].
  exists (fst (Learning.organizeRow toUpperCase randomSuffix
                 (snd (Learning.mapRows toUpperCase randomSuffix st0 before)) row)).
  split.
  - rewrite nth_error_app2; rewrite mapRows_length; [|lia].
    rewrite Hlen, Nat.sub_diag. reflexivity.
  - rewrite organizeRow_question.
    cbn [Learning.id Learning.q_lessonId Learning.q_topicId Learning.q_question
         Learning.q_options].
    rewrite mapRows_draws. cbn [Learning.draws st0 Nat.add].
    rewrite <- Hlen, firstn_app, Nat.sub_diag, firstn_O, app_nil_r, firstn_all.
    split; [reflexivity|]. split; [reflexivity|]. split; [reflexivity|].
    split; [reflexivity|]. split; [apply parseOptions_nonempty | apply parseOptions_columns].
Qed.

Lemma organizeQuiz_question_ids_witness :
  nth_error [quizRow (js "q1") None; quizRow [] None; quizRow (js "q1") None] 1
  = Some (quizRow [] None)
  /\ exists q,
       nth_error (fst (Learning.organizeQuiz asciiUpper natToString
                         [quizRow (js "q1") None; quizRow [] None; quizRow (js "q1") None])) 1
       = Some q
       /\ Learning.id q = js "L1_0".
Proof.
  assert (H : nth_error [quizRow (js "q1") None; quizRow [] None; quizRow (js "q1") None] 1
              = Some (quizRow [] None)) by reflexivity.
  split; [exact H|].
  destruct (organizeQuiz_question_ids asciiUpper natToString _ 1 _ H) as (q & Hq & Hid & _).
  exists q. split; [exact Hq | exact Hid].
Defined.

Lemma organizeRow_with_id (toUpperCase : jsstring -> jsstring)
    (randomSuffix : nat -> jsstring) (st st' : Learning.QuizState) (row : Learning.QuizRow) :
  truthy (Learning.questionId row) = true ->
  fst (Learning.organizeRow toUpperCase randomSuffix st row)
  = fst (Learning.organizeRow toUpperCase randomSuffix st' row).
Proof. intros H. rewrite !organizeRow_question, H. reflexivity. Qed.

Lemma organizeRow_lessonId (toUpperCase : jsstring -> jsstring)
    (randomSuffix : nat -> jsstring) (st : Learning.QuizState) (row : Learning.QuizRow) :
  Learning.q_lessonId (fst (Learning.organizeRow toUpperCase randomSuffix st row))
  = Learning.lessonId row.
Proof. rewrite organizeRow_question. reflexivity. Qed.

Lemma mapRows_filter (toUpperCase : jsstring -> jsstring)
    (randomSuffix : nat -> jsstring) (lessonId : jsstring)
    (quizRows : list Learning.QuizRow) (st st' : Learning.QuizState) :
  List.Forall (fun r => truthy (Learning.questionId r) = true) quizRows ->
  Learning.getQuizForLesson (fst (Learning.mapRows toUpperCase randomSuffix st quizRows))
    lessonId
  = fst (Learning.mapRows toUpperCase randomSuffix st'
           (List.filter (fun r => streq (Learning.lessonId r) lessonId) quizRows)).
Proof.
  intros H. revert st st'. induction H as [|row more Hrow Hmore IH]; intros st st'.
  - reflexivity.
  - rewrite mapRows_cons. cbn [fst List.filter]. unfold Learning.getQuizForLesson in *.
    cbn [List.filter]. rewrite organizeRow_lessonId.
    destruct (streq (Learning.lessonId row) lessonId).
    + rewrite mapRows_cons. cbn [fst]. f_equal.
      * apply organizeRow_with_id, Hrow.
      * apply IH.
    + apply IH.
Qed.

(** X13. When every row has a question id, taking the quiz of a lesson
    out of the organized questions gives the questions organized from
    the rows of that lesson alone. *)
Theorem quiz_of_lesson_from_its_rows (toUpperCase : jsstring -> jsstring)
    (randomSuffix : nat -> jsstring) (quizRows : list Learning.QuizRow)
    (lessonId : jsstring) :
  List.Forall (fun r => truthy (Learning.questionId r) = true) quizRows ->
  Learning.getQuizForLesson
    (fst (Learning.organizeQuiz toUpperCase randomSuffix quizRows)) lessonId
  = fst (Learning.organizeQuiz toUpperCase randomSuffix
           (List.filter (fun r => streq (Learning.lessonId r) lessonId) quizRows)).
Proof.
  intros H. unfold Learning.organizeQuiz.
  pose proof (mapRows_filter toUpperCase randomSuffix lessonId quizRows
                {| Learning.seenIds := []; Learning.duplicates := []; Learning.draws := 0 |}
                {| Learning.seenIds := []; Learning.duplicates := []; Learning.draws := 0 |}
                H) as E.
  destruct (Learning.mapRows toUpperCase randomSuffix _ quizRows) as [qs st].
  destruct (Learning.mapRows toUpperCase randomSuffix _ (List.filter _ quizRows)) as [qs' st'].
  exact E.
Qed.

Lemma quiz_of_lesson_from_its_rows_witness :
  List.Forall (fun r => truthy (Learning.questionId r) = true)
    [quizRow (js "q1") None; quizRow (js "q2") None]
  /\ Learning.getQuizForLesson
       (fst (Learning.organizeQuiz asciiUpper natToString
               [quizRow (js "q1") None; quizRow (js "q2") None])) (js "L1")
     = fst (Learning.organizeQuiz asciiUpper natToString
              (List.filter (fun r => streq (Learning.lessonId r) (js "L1"))
                 [quizRow (js "q1") None; quizRow (js "q2") None])).
Proof.
  assert (H : List.Forall (fun r => truthy (Learning.questionId r) = true)
                [quizRow (js "q1") None; quizRow (js "q2") None]).
  { repeat constructor. }
  split; [exact H|].
  apply (quiz_of_lesson_from_its_rows asciiUpper natToString _ (js "L1") H).
Defined.

(** ** Reading quoted CSV text back *)

(** X14. The task-sheet reader reads back a quoted table: for every
    table whose rows have at least one field each, whatever the fields
    hold (commas, line breaks, double quotes), [parseCSV] of its quoted
    text, with either line ending, gives the table itself, less the rows
    at its end that consist of one empty field. *)
Theorem csv_parseCSV_reads_back_quoted_table (crlf : bool) (table : list (list jsstring)) :
  List.Forall (fun row => row <> []) table ->
  Csv.parseCSV (quotedTable crlf table) = Csv.popTrailingEmpty table.
Proof.
  intros H. unfold Csv.parseCSV.
  rewrite quotedTable_no_BOM, csv_quoted_table by exact H. reflexivity.
Qed.

Lemma csv_parseCSV_reads_back_quoted_table_witness :
  List.Forall (fun row : list jsstring => row <> [])
    [[js "id"; js "a,b"]; [Csv.quote :: js "x"; [Csv.LF]]; [[]]]
  /\ Csv.parseCSV (quotedTable true [[js "id"; js "a,b"]; [Csv.quote :: js "x"; [Csv.LF]]; [[]]])
     = [[js "id"; js "a,b"]; [Csv.quote :: js "x"; [Csv.LF]]].
Proof.
  assert (H : List.Forall (fun row : list jsstring => row <> [])
                [[js "id"; js "a,b"]; [Csv.quote :: js "x"; [Csv.LF]]; [[]]]).
  { repeat constructor; discriminate. }
  split; [exact H|].
  apply (csv_parseCSV_reads_back_quoted_table true _ H).
Defined.

(** X15. The reader of the learning sheets reads back a quoted table
    with its fields trimmed: for every table whose rows have at least one
    field each, [parseCSV] of its quoted text gives the rows with every
    field trimmed, less the rows at the end that consist of one empty
    field, each row then filled with empty fields up to the longest
    row. *)
Theorem learning_parseCSV_reads_back_quoted_table (crlf : bool)
    (table : list (list jsstring)) :
  List.Forall (fun row => row <> []) table ->
  Learning.parseCSV (quotedTable crlf table)
  = Learning.normalize (Csv.popTrailingEmpty (map (map trim) table)).
Proof.
  intros H. unfold Learning.parseCSV.
  destruct table as [|row table]; [reflexivity|].
  assert (Ht : truthy (quotedTable crlf (row :: table)) = true).
  { inversion H as [|r t Hrow Htable]; subst.
    destruct row as [|field more]; [congruence|].
    cbn [quotedTable flat_map]. rewrite <- app_assoc.
    destruct (quotedFields_head field more (lineEnd crlf ++ flat_map
               (fun row => quotedFields row ++ lineEnd crlf) table)) as (tl & ->).
    reflexivity. }
  rewrite Ht. cbn [negb]. unfold Learning.parseRows.
  rewrite quotedTable_no_BOM, learning_quoted_table by exact H. reflexivity.
Qed.

Lemma learning_parseCSV_reads_back_quoted_table_witness :
  List.Forall (fun row : list jsstring => row <> []) [[js "id"; js " a,b "]; [js "x"]]
  /\ Learning.parseCSV (quotedTable false [[js "id"; js " a,b "]; [js "x"]])
     = [[js "id"; js "a,b"]; [js "x"; []]].
Proof.
  assert (H : List.Forall (fun row : list jsstring => row <> [])
                [[js "id"; js " a,b "]; [js "x"]]).
  { repeat constructor; discriminate. }
  split; [exact H|].
  apply (learning_parseCSV_reads_back_quoted_table false _ H).
Defined.

(** ** The course tree *)

Section MapFacts.

Context {V : Type}.

Lemma keys_putOwn_fresh (o : object V) (k : jsstring) (v : V) :
  getOwn o k = None -> keys (putOwn o k v) = keys o ++ [k].
Proof.
  intros H. rewrite putOwn_fresh by (apply getOwn_None_keys, H).
  unfold keys. rewrite map_app. reflexivity.
Qed.

Lemma keys_putOwn_present (o : object V) (k : jsstring) (v w : V) :
  getOwn o k = Some w -> keys (putOwn o k v) = keys o.
Proof.
  induction o as [|[k0 u] o IH]; simpl; [discriminate|].
  destruct (streq k0 k) eqn:E; [reflexivity|].
  intros H. simpl. rewrite (IH H). reflexivity.
Qed.

Lemma keys_update (o : object V) (k : jsstring) (f : V -> V) :
  keys (Csv.update o k f) = keys o.
Proof.
  unfold Csv.update. destruct (getOwn o k) as [v|] eqn:E; [|reflexivity].
  apply (keys_putOwn_present o k (f v) v E).
Qed.

Lemma getOwn_update (o : object V) (k k' : jsstring) (f : V -> V) :
  getOwn (Csv.update o k f) k'
  = if streq k k' then option_map f (getOwn o k') else getOwn o k'.
Proof.
  unfold Csv.update. destruct (getOwn o k) as [v|] eqn:E.
  - rewrite getOwn_putOwn. destruct (streq k k') eqn:Ek; [|reflexivity].
    apply streq_true_iff in Ek. subst k'. rewrite E. reflexivity.
  - destruct (streq k k') eqn:Ek; [|reflexivity].
    apply streq_true_iff in Ek. subst k'. rewrite E. reflexivity.
Qed.

Lemma has_true_iff (o : object V) (k : jsstring) :
  Csv.has o k = true <-> exists v, getOwn o k = Some v.
Proof.
  unfold Csv.has. destruct (getOwn o k) as [v|].
  - split; [eauto | reflexivity].
  - split; [discriminate | intros [v Hv]; discriminate].
Qed.

Lemma has_false_iff (o : object V) (k : jsstring) :
  Csv.has o k = false <-> getOwn o k = None.
Proof. unfold Csv.has. destruct (getOwn o k); split; congruence. Qed.

Lemma NoDup_keys_putOwn (o : object V) (k : jsstring) (v : V) :
  List.NoDup (keys o) -> List.NoDup (keys (putOwn o k v)).
Proof.
  intros H. destruct (getOwn o k) as [w|] eqn:E.
  - rewrite (keys_putOwn_present o k v w E). exact H.
  - rewrite (keys_putOwn_fresh o k v E).
    apply NoDup_snoc_fresh; [exact H | apply getOwn_None_keys, E].
Qed.

(** The elements of the lists [p v] over the values of a map, in order. *)
Definition gather {A} (p : V -> list A) (o : object V) : list A :=
  flat_map (fun entry => p (snd entry)) o.

Lemma gather_putOwn_fresh {A} (p : V -> list A) (o : object V) (k : jsstring) (v : V) :
  getOwn o k = None -> gather p (putOwn o k v) = gather p o ++ p v.
Proof.
  intros H. rewrite putOwn_fresh by (apply getOwn_None_keys, H).
  unfold gather. rewrite flat_map_app. simpl. rewrite app_nil_r. reflexivity.
Qed.

Lemma gather_putOwn_push {A} (p : V -> list A) (o : object V) (k : jsstring)
    (v v' : V) (a : A) :
  getOwn o k = Some v -> p v' = p v ++ [a] ->
  Permutation (gather p (putOwn o k v')) (gather p o ++ [a]).
Proof.
  intros Hk Hp. induction o as [|[k0 w] o IH]; simpl in *; [discriminate|].
  destruct (streq k0 k) eqn:E.
  - injection Hk as ->. simpl. rewrite Hp, <- !app_assoc.
    apply Permutation_app_head, Permutation_app_comm.
  - simpl. rewrite <- app_assoc. apply Permutation_app_head, IH, Hk.
Qed.

Lemma gather_putOwn_same {A} (p : V -> list A) (o : object V) (k : jsstring) (v v' : V) :
  getOwn o k = Some v -> p v' = p v -> gather p (putOwn o k v') = gather p o.
Proof.
  intros Hk Hp. induction o as [|[k0 w] o IH]; simpl in *; [discriminate|].
  destruct (streq k0 k) eqn:E.
  - injection Hk as ->. simpl. rewrite Hp. reflexivity.
  - simpl. rewrite (IH Hk). reflexivity.
Qed.

Lemma gather_update_push {A} (p : V -> list A) (o : object V) (k : jsstring)
    (f : V -> V) (a : A) :
  Csv.has o k = true -> (forall v, p (f v) = p v ++ [a]) ->
  Permutation (gather p (Csv.update o k f)) (gather p o ++ [a]).
Proof.
  intros Hk Hp. apply has_true_iff in Hk as [v Hv]. unfold Csv.update. rewrite Hv.
  apply (gather_putOwn_push p o k v (f v) a Hv (Hp v)).
Qed.

Lemma gather_update_same {A} (p : V -> list A) (o : object V) (k : jsstring) (f : V -> V) :
  (forall v, p (f v) = p v) -> gather p (Csv.update o k f) = gather p o.
Proof.
  intros Hp. unfold Csv.update. destruct (getOwn o k) as [v|] eqn:Hv; [|reflexivity].
  apply (gather_putOwn_same p o k v (f v) Hv (Hp v)).
Qed.

(** Reading every key of a map gives every value. *)
Lemma flat_map_keys {A} (g : V -> list A) (o : object V) :
  List.NoDup (keys o) ->
  flat_map (fun key => match getOwn o key with Some v => g v | None => [] end) (keys o)
  = flat_map (fun entry => g (snd entry)) o.
Proof.
  intros Hnd.
  assert (H : forall l, incl l o ->
            flat_map (fun key => match getOwn o key with Some v => g v | None => [] end)
              (keys l)
            = flat_map (fun entry => g (snd entry)) l).
  { induction l as [|[k v] l IH]; intros Hl; [reflexivity|].
    cbn [keys map flat_map fst snd].
    rewrite (In_getOwn o k v Hnd (Hl _ (or_introl eq_refl))).
    f_equal. apply IH. intros e He. apply Hl. right. exact He. }
  apply H, incl_refl.
Qed.

End MapFacts.

Lemma flat_map_flat_map {A B C} (f : A -> list B) (g : B -> list C) (l : list A) :
  flat_map g (flat_map f l) = flat_map (fun x => flat_map g (f x)) l.
Proof.
  induction l as [|x l IH]; [reflexivity|].
  cbn [flat_map]. rewrite flat_map_app, IH. reflexivity.
Qed.

Lemma setOf_snoc (l : list jsstring) (x : jsstring) :
  setOf (l ++ [x]) = if includes (setOf l) x then setOf l else setOf l ++ [x].
Proof. unfold setOf. rewrite fold_left_app. reflexivity. Qed.

(** The tasks of a course tree, course by course, chapter by chapter,
    lesson by lesson. *)
Definition tasksOfChapter (chapter : Csv.Chapter) : list Csv.Task :=
  flat_map Csv.tasks (Csv.lessons chapter).

Definition tasksOfCourse (course : Csv.Course) : list Csv.Task :=
  flat_map tasksOfChapter (Csv.chapters course).

Definition allTasks (courses : list Csv.Course) : list Csv.Task :=
  flat_map tasksOfCourse courses.

Section Tree.

Import Csv.

Definition emptyMaps : Maps := {| courseMap := []; chapterMap := []; lessonMap := [] |}.

(** What holds of the three maps after the rows [done] have been read. *)
Record Shape (m : Maps) (done : list TaskRowFields) : Prop := {
  shape_courses : keys (courseMap m) = setOf (map row_courseId done);
  shape_course : forall k c, getOwn (courseMap m) k = Some c ->
    co_id c = k
    /\ exists r, find (fun r => streq (row_courseId r) k) done = Some r
                 /\ co_name c = row_courseName r;
  shape_chapterKeys : List.NoDup (keys (chapterMap m));
  shape_lessonKeys : List.NoDup (keys (lessonMap m));
  shape_chapters : Permutation (gather co_chapters (courseMap m)) (keys (chapterMap m));
  shape_lessons : Permutation (gather cho_lessons (chapterMap m)) (keys (lessonMap m));
  shape_tasks : Permutation (gather tasks (lessonMap m)) (map taskOfRow done)
}.

Lemma Shape_empty : Shape emptyMaps [].
Proof.
  split; cbn; try (constructor; fail).
  intros k c H. discriminate H.
Qed.

Lemma find_snoc {A} (f : A -> bool) (l : list A) (x : A) :
  find f (l ++ [x]) = match find f l with Some y => Some y | None => if f x then Some x else None end.
Proof.
  induction l as [|y l IH]; simpl; [reflexivity|].
  destruct (f y); [reflexivity | exact IH].
Qed.

Lemma find_none_not_in (done : list TaskRowFields) (k : jsstring) :
  ~ In k (map row_courseId done) ->
  find (fun r => streq (row_courseId r) k) done = None.
Proof.
  intros H. destruct (find _ done) as [r|] eqn:E; [|reflexivity].
  apply find_some in E as [Hr Hk]. apply streq_true_iff in Hk. subst k.
  exfalso. apply H, in_map, Hr.
Qed.

Lemma Shape_addRow (m : Maps) (done : list TaskRowFields) (taskRow : TaskRowFields) :
  Shape m done -> Shape (addRow m taskRow) (done ++ [taskRow]).
Proof.
  intros [Hc Hco Hck Hlk Hch Hle Hta].
  set (cid := row_courseId taskRow).
  set (chapterKey := chapterKeyOf (row_courseId taskRow) (row_chapterId taskRow)).
  set (lessonKey := lessonKeyOf (row_courseId taskRow) (row_chapterId taskRow)
                      (row_lessonId taskRow)).
  (* the course *)
  set (m1 := ensureCourse m taskRow).
  assert (H1 : keys (courseMap m1) = setOf (map row_courseId (done ++ [taskRow]))
               /\ (forall k c, getOwn (courseMap m1) k = Some c ->
                     co_id c = k
                     /\ exists r, find (fun r => streq (row_courseId r) k) (done ++ [taskRow])
                                  = Some r /\ co_name c = row_courseName r)
               /\ has (courseMap m1) cid = true
               /\ gather co_chapters (courseMap m1) = gather co_chapters (courseMap m)
               /\ chapterMap m1 = chapterMap m /\ lessonMap m1 = lessonMap m).
  { unfold m1, ensureCourse. fold cid. rewrite map_app. cbn [map]. rewrite setOf_snoc.
    fold cid.
    rewrite <- Hc.
    destruct (has (courseMap m) cid) eqn:E; cbn [negb].
    - assert (Hin : includes (keys (courseMap m)) cid = true).
      { apply includes_In, getOwn_Some_keys, has_true_iff, E. }
      rewrite Hin. split; [reflexivity|]. split.
      + intros k c Hk. destruct (Hco k c Hk) as (Hid & r & Hr & Hn).
        split; [exact Hid|]. exists r. rewrite find_snoc, Hr. split; [reflexivity | exact Hn].
      + repeat split; try reflexivity. exact E.
    - apply has_false_iff in E.
      assert (Hin : includes (keys (courseMap m)) cid = false).
      { apply includes_false_iff, getOwn_None_keys, E. }
      rewrite Hin. cbn [courseMap chapterMap lessonMap].
      split; [apply keys_putOwn_fresh, E|]. split.
      + intros k c. rewrite getOwn_putOwn. destruct (streq cid k) eqn:Ek.
        * apply streq_true_iff in Ek. subst k. intros [= <-]. cbn [co_id co_name].
          split; [reflexivity|]. exists taskRow. rewrite find_snoc.
          rewrite find_none_not_in.
          -- fold cid. rewrite streq_refl. split; reflexivity.
          -- rewrite <- (In_setOf (map row_courseId done)), <- Hc.
             apply getOwn_None_keys, E.
        * intros Hk. destruct (Hco k c Hk) as (Hid & r & Hr & Hn).
          split; [exact Hid|]. exists r. rewrite find_snoc, Hr.
          split; [reflexivity | exact Hn].
      + split.
        { apply has_true_iff. eexists. rewrite getOwn_putOwn, streq_refl. reflexivity. }
        split; [|split; reflexivity].
        rewrite gather_putOwn_fresh by exact E. cbn [co_chapters]. apply app_nil_r. }
  destruct H1 as (Hc1 & Hco1 & Hhas1 & Hg1 & Hkm1 & Hlm1).
  (* the chapter *)
  set (m2 := ensureChapter m1 taskRow).
  assert (H2 : keys (courseMap m2) = keys (courseMap m1)
               /\ (forall k c, getOwn (courseMap m2) k = Some c ->
                     exists c', getOwn (courseMap m1) k = Some c'
                                /\ co_id c = co_id c' /\ co_name c = co_name c')
               /\ List.NoDup (keys (chapterMap m2))
               /\ Permutation (gather co_chapters (courseMap m2)) (keys (chapterMap m2))
               /\ has (chapterMap m2) chapterKey = true
               /\ gather cho_lessons (chapterMap m2) = gather cho_lessons (chapterMap m1)
               /\ lessonMap m2 = lessonMap m1).
  { unfold m2, ensureChapter. fold chapterKey. fold cid.
    destruct (has (chapterMap m1) chapterKey) eqn:E; cbn [negb].
    - split; [reflexivity|]. split; [intros k c Hk; exists c; tauto|].
      rewrite Hkm1, Hg1. split; [exact Hck|]. split; [exact Hch|].
      rewrite <- Hkm1. split; [exact E|]. split; reflexivity.
    - apply has_false_iff in E. cbn [courseMap chapterMap lessonMap].
      split; [apply keys_update|]. split.
      + intros k c. rewrite getOwn_update.
        destruct (streq cid k); [|intros Hk; exists c; tauto].
        destruct (getOwn (courseMap m1) k) as [c'|]; [|discriminate].
        intros [= <-]. exists c'. split; [reflexivity|]. split; reflexivity.
      + split; [apply NoDup_keys_putOwn; rewrite Hkm1; exact Hck|].
        split.
        { rewrite (keys_putOwn_fresh _ _ _ E).
          etransitivity.
          - apply gather_update_push; [exact Hhas1 | reflexivity].
          - apply Permutation_app_tail. rewrite Hg1, Hkm1. exact Hch. }
        split.
        { apply has_true_iff. eexists. rewrite getOwn_putOwn, streq_refl. reflexivity. }
        split; [|reflexivity].
        rewrite gather_putOwn_fresh by exact E. cbn [cho_lessons]. apply app_nil_r. }
  destruct H2 as (Hc2 & Hco2 & Hck2 & Hch2 & Hhas2 & Hg2 & Hlm2).
  (* the lesson *)
  set (m3 := ensureLesson m2 taskRow).
  assert (H3 : courseMap m3 = courseMap m2
               /\ keys (chapterMap m3) = keys (chapterMap m2)
               /\ List.NoDup (keys (lessonMap m3))
               /\ Permutation (gather cho_lessons (chapterMap m3)) (keys (lessonMap m3))
               /\ has (lessonMap m3) lessonKey = true
               /\ gather tasks (lessonMap m3) = gather tasks (lessonMap m2)).
  { unfold m3, ensureLesson. fold lessonKey. fold chapterKey.
    destruct (has (lessonMap m2) lessonKey) eqn:E; cbn [negb].
    - split; [reflexivity|]. split; [reflexivity|].
      rewrite Hlm2, Hlm1, Hg2, Hkm1. split; [exact Hlk|]. split; [exact Hle|].
      rewrite <- Hlm1, <- Hlm2. split; [exact E | reflexivity].
    - apply has_false_iff in E. cbn [courseMap chapterMap lessonMap].
      split; [reflexivity|]. split; [apply keys_update|].
      split; [apply NoDup_keys_putOwn; rewrite Hlm2, Hlm1; exact Hlk|].
      split.
      { rewrite (keys_putOwn_fresh _ _ _ E).
        etransitivity.
        - apply gather_update_push; [exact Hhas2 | reflexivity].
        - apply Permutation_app_tail. rewrite Hg2, Hkm1, Hlm2, Hlm1. exact Hle. }
      split.
      { apply has_true_iff. eexists. rewrite getOwn_putOwn, streq_refl. reflexivity. }
      rewrite gather_putOwn_fresh by exact E. cbn [tasks]. apply app_nil_r. }
  destruct H3 as (Hcm3 & Hkm3 & Hlk3 & Hle3 & Hhas3 & Hg3).
  (* the task *)
  change (addRow m taskRow) with (pushTask m3 taskRow).
  unfold pushTask. fold lessonKey.
  split; cbn [courseMap chapterMap lessonMap].
  - rewrite Hcm3, Hc2. exact Hc1.
  - rewrite Hcm3. intros k c Hk. destruct (Hco2 k c Hk) as (c' & Hk' & -> & ->).
    apply Hco1, Hk'.
  - rewrite Hkm3. exact Hck2.
  - rewrite keys_update. exact Hlk3.
  - rewrite Hcm3, Hkm3. exact Hch2.
  - rewrite keys_update. exact Hle3.
  - rewrite map_app. cbn [map]. etransitivity.
    + apply gather_update_push; [exact Hhas3 | reflexivity].
    + apply Permutation_app_tail. rewrite Hg3, Hlm2, Hlm1. exact Hta.
Qed.

Lemma Shape_fold (rows : list TaskRowFields) (m : Maps) (done : list TaskRowFields) :
  Shape m done -> Shape (fold_left addRow rows m) (done ++ rows).
Proof.
  revert m done. induction rows as [|r rows IH]; intros m done H.
  - rewrite app_nil_r. exact H.
  - cbn [fold_left]. replace (done ++ r :: rows) with ((done ++ [r]) ++ rows)
      by (rewrite <- app_assoc; reflexivity).
    apply IH, Shape_addRow, H.
Qed.

Lemma Shape_organizeTasks (rows : list TaskRowFields) :
  Shape (fold_left addRow rows emptyMaps) rows.
Proof. apply (Shape_fold rows emptyMaps [] Shape_empty). Qed.

End Tree.

Lemma organizeTasks_unfold (rows : list Csv.TaskRowFields) :
  Csv.organizeTasks rows
  = map (fun entry => Csv.courseOf (fold_left Csv.addRow rows emptyMaps) (snd entry))
      (Csv.courseMap (fold_left Csv.addRow rows emptyMaps)).
Proof. reflexivity. Qed.

Lemma Shape_entry (m : Csv.Maps) (done : list Csv.TaskRowFields)
    (k : jsstring) (c : Csv.CourseObject) :
  Shape m done -> In (k, c) (Csv.courseMap m) -> getOwn (Csv.courseMap m) k = Some c.
Proof.
  intros H Hin. apply In_getOwn; [|exact Hin].
  rewrite (shape_courses _ _ H). apply NoDup_setOf.
Qed.

(** X16. [organizeTasks] lists the courses in the order in which their
    ids first appear in the rows, each id once, and each course carries
    the course name of the first row with its id. *)
Theorem organizeTasks_courses_in_first_seen_order (rows : list Csv.TaskRowFields) :
  map Csv.course_id (Csv.organizeTasks rows) = setOf (map Csv.row_courseId rows)
  /\ List.NoDup (map Csv.course_id (Csv.organizeTasks rows))
  /\ forall course, In course (Csv.organizeTasks rows) ->
       exists r, find (fun r => streq (Csv.row_courseId r) (Csv.course_id course)) rows
                 = Some r
                 /\ Csv.course_name course = Csv.row_courseName r.
Proof.
  pose proof (Shape_organizeTasks rows) as H. rewrite organizeTasks_unfold.
  set (m := fold_left Csv.addRow rows emptyMaps) in *.
  assert (Hids : map Csv.course_id
                   (map (fun entry => Csv.courseOf m (snd entry)) (Csv.courseMap m))
                 = setOf (map Csv.row_courseId rows)).
  { rewrite <- (shape_courses _ _ H). unfold keys. rewrite map_map.
    apply map_ext_in. intros [k c] Hin. cbn [snd fst Csv.courseOf Csv.course_id].
    apply (shape_course _ _ H k c), (Shape_entry m rows k c H Hin). }
  split; [exact Hids|]. split; [rewrite Hids; apply NoDup_setOf|].
  intros course Hin. apply in_map_iff in Hin as ([k c] & <- & Hin).
  cbn [snd Csv.courseOf Csv.course_id Csv.course_name].
  destruct (shape_course _ _ H k c (Shape_entry m rows k c H Hin)) as (-> & r & Hr & Hn).
  exists r. split; [exact Hr | exact Hn].
Qed.

Lemma allTasks_organizeTasks (m : Csv.Maps) (done : list Csv.TaskRowFields) :
  Shape m done ->
  Permutation
    (allTasks (map (fun entry => Csv.courseOf m (snd entry)) (Csv.courseMap m)))
    (map Csv.taskOfRow done).
Proof.
  intros H.
  set (TL := fun key => match getOwn (Csv.lessonMap m) key with
                        | Some lesson => Csv.tasks lesson
                        | None => []
                        end).
  set (TK := fun key => match getOwn (Csv.chapterMap m) key with
                        | Some chapter => flat_map TL (Csv.cho_lessons chapter)
                        | None => []
                        end).
  assert (HL : forall lessonKeys,
            flat_map Csv.tasks (Csv.lessonsOf m lessonKeys) = flat_map TL lessonKeys).
  { intros lessonKeys. unfold Csv.lessonsOf. rewrite flat_map_flat_map.
    apply flat_map_ext. intros key. unfold TL.
    destruct (getOwn (Csv.lessonMap m) key); [apply app_nil_r | reflexivity]. }
  assert (HK : forall chapterKeys,
            flat_map tasksOfChapter (Csv.chaptersOf m chapterKeys) = flat_map TK chapterKeys).
  { intros chapterKeys. unfold Csv.chaptersOf. rewrite flat_map_flat_map.
    apply flat_map_ext. intros key. unfold TK.
    destruct (getOwn (Csv.chapterMap m) key) as [chapter|]; [|reflexivity].
    cbn [flat_map]. rewrite app_nil_r. unfold tasksOfChapter.
    cbn [Csv.chapterOf Csv.lessons]. apply HL. }
  assert (E1 : allTasks (map (fun entry => Csv.courseOf m (snd entry)) (Csv.courseMap m))
               = flat_map TK (gather Csv.co_chapters (Csv.courseMap m))).
  { unfold allTasks, gather. rewrite flat_map_flat_map, flat_map_concat_map, map_map,
      <- flat_map_concat_map.
    apply flat_map_ext. intros [k c]. unfold tasksOfCourse.
    cbn [snd Csv.courseOf Csv.chapters]. apply HK. }
  rewrite E1.
  rewrite (Permutation_flat_map TK (shape_chapters _ _ H)).
  unfold TK. rewrite (flat_map_keys (fun chapter => flat_map TL (Csv.cho_lessons chapter))
                        (Csv.chapterMap m) (shape_chapterKeys _ _ H)).
  rewrite <- (flat_map_flat_map (fun entry => Csv.cho_lessons (snd entry)) TL).
  fold (gather Csv.cho_lessons (Csv.chapterMap m)).
  rewrite (Permutation_flat_map TL (shape_lessons _ _ H)).
  unfold TL. rewrite (flat_map_keys Csv.tasks (Csv.lessonMap m) (shape_lessonKeys _ _ H)).
  apply (shape_tasks _ _ H).
Qed.

(** X17. [organizeTasks] keeps every task: the tasks of the course tree,
    taken course by course, chapter by chapter and lesson by lesson, are
    the tasks built from the rows, each as often as its row occurs; none
    is lost and none is doubled, whatever the ids of the rows are. *)
Theorem organizeTasks_keeps_every_task (rows : list Csv.TaskRowFields) :
  Permutation (allTasks (Csv.organizeTasks rows)) (map Csv.taskOfRow rows)
  /\ length (allTasks (Csv.organizeTasks rows)) = length rows.
Proof.
  pose proof (allTasks_organizeTasks _ _ (Shape_organizeTasks rows)) as H.
  rewrite <- organizeTasks_unfold in H. split; [exact H|].
  rewrite (Permutation_length H). apply length_map.
Qed.

(** *** Finding a task again *)

(** The keys of [chapterMap] and [lessonMap] join ids with a hyphen: they
    name one chapter, one lesson, when the course and chapter ids hold no
    hyphen themselves. *)
Definition hyphenFree (s : jsstring) : Prop := ~ In 0x2D%N s.

Lemma chapterKeyOf_inj (a a' b b' : jsstring) :
  hyphenFree a -> hyphenFree a' ->
  Csv.chapterKeyOf a b = Csv.chapterKeyOf a' b' -> a = a' /\ b = b'.
Proof.
  unfold Csv.chapterKeyOf, hyphenFree. revert a'.
  induction a as [|x a IH]; intros [|y a'] Ha Ha' H; cbn in H.
  - injection H as ->. split; reflexivity.
  - injection H as <- _. exfalso. apply Ha'. left. reflexivity.
  - injection H as -> _. exfalso. apply Ha. left. reflexivity.
  - injection H as -> H. destruct (IH a') as [-> ->].
    + intros Hin. apply Ha. right. exact Hin.
    + intros Hin. apply Ha'. right. exact Hin.
    + exact H.
    + split; reflexivity.
Qed.

Lemma lessonKeyOf_chapterKeyOf (a b c : jsstring) :
  Csv.lessonKeyOf a b c = Csv.chapterKeyOf a (Csv.chapterKeyOf b c).
Proof. reflexivity. Qed.

Lemma lessonKeyOf_inj (a a' b b' c c' : jsstring) :
  hyphenFree a -> hyphenFree a' -> hyphenFree b -> hyphenFree b' ->
  Csv.lessonKeyOf a b c = Csv.lessonKeyOf a' b' c' -> a = a' /\ b = b' /\ c = c'.
Proof.
  intros Ha Ha' Hb Hb' H. rewrite !lessonKeyOf_chapterKeyOf in H.
  apply chapterKeyOf_inj in H as [-> H]; [|assumption|assumption].
  apply chapterKeyOf_inj in H as [-> ->]; [|assumption|assumption].
  repeat split.
Qed.

Section Finding.

Import Csv.

Local Abbreviation chapterKey r := (chapterKeyOf (row_courseId r) (row_chapterId r)).
Local Abbreviation lessonKey r :=
  (lessonKeyOf (row_courseId r) (row_chapterId r) (row_lessonId r)).

(** Every object sits where its ids say. *)
Record Sound (m : Maps) : Prop := {
  sound_course : forall k c, getOwn (courseMap m) k = Some c ->
    forall ck, In ck (co_chapters c) ->
      exists ch, getOwn (chapterMap m) ck = Some ch /\ cho_courseId ch = k;
  sound_chapter : forall ck ch, getOwn (chapterMap m) ck = Some ch ->
    ck = chapterKeyOf (cho_courseId ch) (cho_id ch)
    /\ hyphenFree (cho_courseId ch) /\ hyphenFree (cho_id ch)
    /\ (exists c, getOwn (courseMap m) (cho_courseId ch) = Some c /\ In ck (co_chapters c))
    /\ forall lk, In lk (cho_lessons ch) ->
         exists l, getOwn (lessonMap m) lk = Some l
                   /\ lesson_courseId l = cho_courseId ch
                   /\ lesson_chapterId l = cho_id ch;
  sound_lesson : forall lk l, getOwn (lessonMap m) lk = Some l ->
    lk = lessonKeyOf (lesson_courseId l) (lesson_chapterId l) (lesson_id l)
    /\ hyphenFree (lesson_courseId l) /\ hyphenFree (lesson_chapterId l)
    /\ (exists ch, getOwn (chapterMap m)
                     (chapterKeyOf (lesson_courseId l) (lesson_chapterId l)) = Some ch
                   /\ In lk (cho_lessons ch))
    /\ forall t, In t (tasks l) ->
         courseId t = lesson_courseId l /\ chapterId t = lesson_chapterId l
}.

(** The task of every row read is in the lesson object of its key. *)
Definition Complete (m : Maps) (done : list TaskRowFields) : Prop :=
  forall r, In r done ->
    exists l, getOwn (lessonMap m) (lessonKey r) = Some l /\ In (taskOfRow r) (tasks l).

Lemma Sound_empty : Sound emptyMaps.
Proof. split; intros k v H; discriminate H. Qed.

Ltac by_key E :=
  match goal with
  | |- context [streq ?a ?b] =>
      destruct (streq a b) eqn:E;
      [apply streq_true_iff in E | apply streq_false_iff in E]
  end.

Lemma Sound_ensureCourse (m : Maps) (r : TaskRowFields) :
  Sound m ->
  Sound (ensureCourse m r) /\ has (courseMap (ensureCourse m r)) (row_courseId r) = true.
Proof.
  intros [Hc Hk Hl]. unfold ensureCourse.
  destruct (has (courseMap m) (row_courseId r)) eqn:E; cbn [negb].
  - split; [split; assumption | exact E].
  - apply has_false_iff in E. split.
    + split; cbn [courseMap chapterMap lessonMap].
      * intros k c. rewrite getOwn_putOwn. by_key Ek.
        -- intros [= <-] ck [].
        -- apply Hc.
      * intros ck ch Hch. destruct (Hk ck ch Hch) as (H1 & H2 & H3 & (c & Hc' & Hin) & H5).
        repeat (split; [assumption|]). split; [|exact H5].
        exists c. rewrite getOwn_putOwn. by_key Ek; [congruence|]. split; assumption.
      * exact Hl.
    + apply has_true_iff. eexists. cbn [courseMap].
      rewrite getOwn_putOwn, streq_refl. reflexivity.
Qed.

Lemma Sound_ensureChapter (m : Maps) (r : TaskRowFields) :
  hyphenFree (row_courseId r) -> hyphenFree (row_chapterId r) ->
  Sound m -> has (courseMap m) (row_courseId r) = true ->
  Sound (ensureChapter m r) /\ has (chapterMap (ensureChapter m r)) (chapterKey r) = true.
Proof.
  intros HF1 HF2 [Hc Hk Hl] Hhas. unfold ensureChapter.
  destruct (has (chapterMap m) (chapterKey r)) eqn:E; cbn [negb].
  - split; [split; assumption | exact E].
  - apply has_false_iff in E. apply has_true_iff in Hhas as [c0 Hc0]. split.
    + split; cbn [courseMap chapterMap lessonMap].
      * intros k c. rewrite getOwn_update. by_key Ek.
        -- subst k. rewrite Hc0. intros [= <-] ck. cbn [co_chapters].
           rewrite in_app_iff. intros [Hin | [<- | []]].
           ++ destruct (Hc _ _ Hc0 ck Hin) as (ch & Hch & Hid).
              exists ch. rewrite getOwn_putOwn. by_key Ec; [congruence|].
              split; assumption.
           ++ eexists. rewrite getOwn_putOwn, streq_refl. split; reflexivity.
        -- intros Hk' ck Hin. destruct (Hc _ _ Hk' ck Hin) as (ch & Hch & Hid).
           exists ch. rewrite getOwn_putOwn. by_key Ec; [congruence|]. split; assumption.
      * intros ck ch. rewrite getOwn_putOwn. by_key Ec.
        -- subst ck. intros [= <-]. cbn [cho_courseId cho_id cho_lessons].
           split; [reflexivity|]. split; [exact HF1|]. split; [exact HF2|]. split.
           ++ eexists. rewrite getOwn_update, streq_refl, Hc0. cbn [option_map].
              split; [reflexivity|]. cbn [co_chapters]. apply in_app_iff. right. left.
              reflexivity.
           ++ intros lk [].
        -- intros Hch. destruct (Hk ck ch Hch) as (H1 & H2 & H3 & (c & Hc' & Hin) & H5).
           repeat (split; [assumption|]). split; [|exact H5].
           rewrite getOwn_update. by_key Ek.
           ++ rewrite <- Ek, Hc0 in Hc'. injection Hc' as <-. rewrite <- Ek, Hc0.
              eexists. split; [reflexivity|]. cbn [co_chapters]. apply in_app_iff. left.
              exact Hin.
           ++ exists c. split; assumption.
      * intros lk l Hl'. destruct (Hl lk l Hl') as (H1 & H2 & H3 & (ch & Hch & Hin) & H5).
        repeat (split; [assumption|]). split; [|exact H5].
        exists ch. rewrite getOwn_putOwn. by_key Ec; [congruence|]. split; assumption.
    + apply has_true_iff. eexists. cbn [chapterMap].
      rewrite getOwn_putOwn, streq_refl. reflexivity.
Qed.

Lemma Sound_ensureLesson (m : Maps) (r : TaskRowFields) :
  hyphenFree (row_courseId r) -> hyphenFree (row_chapterId r) ->
  Sound m -> has (chapterMap m) (chapterKey r) = true ->
  Sound (ensureLesson m r) /\ has (lessonMap (ensureLesson m r)) (lessonKey r) = true.
Proof.
  intros HF1 HF2 [Hc Hk Hl] Hhas. unfold ensureLesson.
  destruct (has (lessonMap m) (lessonKey r)) eqn:E; cbn [negb].
  - split; [split; assumption | exact E].
  - apply has_false_iff in E. apply has_true_iff in Hhas as [ch0 Hch0].
    destruct (Hk _ _ Hch0) as (Hkey0 & HF3 & HF4 & Hpar0 & Hles0).
    apply chapterKeyOf_inj in Hkey0 as [Hcid Hchid]; [|assumption|assumption].
    split.
    + split; cbn [courseMap chapterMap lessonMap].
      * intros k c Hk' ck Hin. destruct (Hc _ _ Hk' ck Hin) as (ch & Hch & Hid).
        rewrite getOwn_update. by_key Ec.
        -- rewrite <- Ec, Hch0 in Hch. injection Hch as <-. rewrite <- Ec, Hch0.
           eexists. split; [reflexivity | exact Hid].
        -- exists ch. split; assumption.
      * intros ck ch. rewrite getOwn_update. by_key Ec.
        -- subst ck. rewrite Hch0. intros [= <-].
           cbn [cho_courseId cho_id cho_lessons].
           destruct (Hk _ _ Hch0) as (H1 & H2 & H3 & H4 & H5).
           repeat (split; [assumption|]). intros lk. rewrite in_app_iff.
           intros [Hin | [<- | []]].
           ++ destruct (H5 lk Hin) as (l & Hl' & Hids). exists l.
              rewrite getOwn_putOwn. by_key El; [congruence|]. split; assumption.
           ++ eexists. rewrite getOwn_putOwn, streq_refl. split; [reflexivity|].
              cbn [lesson_courseId lesson_chapterId]. split; assumption.
        -- intros Hch. destruct (Hk ck ch Hch) as (H1 & H2 & H3 & H4 & H5).
           repeat (split; [assumption|]). intros lk Hin.
           destruct (H5 lk Hin) as (l & Hl' & Hids). exists l.
           rewrite getOwn_putOwn. by_key El; [congruence|]. split; assumption.
      * intros lk l. rewrite getOwn_putOwn. by_key El.
        -- subst lk. intros [= <-].
           cbn [lesson_courseId lesson_chapterId lesson_id tasks].
           split; [reflexivity|]. split; [exact HF1|]. split; [exact HF2|]. split.
           ++ eexists. rewrite getOwn_update, streq_refl, Hch0. cbn [option_map].
              split; [reflexivity|]. cbn [cho_lessons]. apply in_app_iff. right. left.
              reflexivity.
           ++ intros t [].
        -- intros Hl'. destruct (Hl lk l Hl') as (H1 & H2 & H3 & (ch & Hch & Hin) & H5).
           repeat (split; [assumption|]). split; [|exact H5].
           rewrite getOwn_update. by_key Ec.
           ++ rewrite <- Ec, Hch0 in Hch. injection Hch as <-. rewrite <- Ec, Hch0.
              eexists. split; [reflexivity|]. cbn [cho_lessons]. apply in_app_iff. left.
              exact Hin.
           ++ exists ch. split; assumption.
    + apply has_true_iff. eexists. cbn [lessonMap].
      rewrite getOwn_putOwn, streq_refl. reflexivity.
Qed.

Lemma Sound_pushTask (m : Maps) (r : TaskRowFields) :
  hyphenFree (row_courseId r) -> hyphenFree (row_chapterId r) ->
  Sound m -> Sound (pushTask m r).
Proof.
  intros HF1 HF2 [Hc Hk Hl]. unfold pushTask.
  split; cbn [courseMap chapterMap lessonMap].
  - exact Hc.
  - intros ck ch Hch. destruct (Hk ck ch Hch) as (H1 & H2 & H3 & H4 & H5).
    repeat (split; [assumption|]). intros lk Hin.
    destruct (H5 lk Hin) as (l & Hl' & Hids). rewrite getOwn_update. by_key El.
    + rewrite Hl'. eexists. split; [reflexivity | exact Hids].
    + exists l. split; assumption.
  - intros lk l. rewrite getOwn_update. by_key El.
    + subst lk. destruct (getOwn (lessonMap m) (lessonKey r)) as [l0|] eqn:Hl0;
        [|discriminate].
      intros [= <-]. cbn [lesson_courseId lesson_chapterId lesson_id tasks].
      destruct (Hl _ _ Hl0) as (H1 & H2 & H3 & H4 & H5).
      repeat (split; [assumption|]). intros t. rewrite in_app_iff.
      intros [Hin | [<- | []]]; [apply H5, Hin|].
      apply lessonKeyOf_inj in H1 as (E1 & E2 & _); try assumption.
      cbn [taskOfRow courseId chapterId]. split; assumption.
    + apply Hl.
Qed.

Lemma Sound_addRow (m : Maps) (r : TaskRowFields) :
  hyphenFree (row_courseId r) -> hyphenFree (row_chapterId r) ->
  Sound m ->
  Sound (addRow m r)
  /\ has (lessonMap (ensureLesson (ensureChapter (ensureCourse m r) r) r)) (lessonKey r)
     = true.
Proof.
  intros HF1 HF2 H. unfold addRow.
  destruct (Sound_ensureCourse m r H) as [H1 Hhas1].
  destruct (Sound_ensureChapter _ r HF1 HF2 H1 Hhas1) as [H2 Hhas2].
  destruct (Sound_ensureLesson _ r HF1 HF2 H2 Hhas2) as [H3 Hhas3].
  split; [apply Sound_pushTask; assumption | exact Hhas3].
Qed.

Lemma lessonMap_ensureLesson (m : Maps) (r : TaskRowFields) (lk : jsstring) (l : Lesson) :
  getOwn (lessonMap m) lk = Some l ->
  getOwn (lessonMap (ensureLesson (ensureChapter (ensureCourse m r) r) r)) lk = Some l.
Proof.
  intros H.
  assert (E : lessonMap (ensureChapter (ensureCourse m r) r) = lessonMap m).
  { unfold ensureChapter, ensureCourse.
    destruct (has (courseMap m) (row_courseId r)); cbn [negb];
      match goal with |- context [has ?o ?k] => destruct (has o k) end; reflexivity. }
  unfold ensureLesson. rewrite E.
  destruct (has (lessonMap m) (lessonKey r)) eqn:Eh; cbn [negb]; [rewrite E; exact H|].
  cbn [lessonMap]. rewrite getOwn_putOwn. by_key El; [|exact H].
  apply has_false_iff in Eh. congruence.
Qed.

Lemma Complete_addRow (m : Maps) (done : list TaskRowFields) (r : TaskRowFields) :
  has (lessonMap (ensureLesson (ensureChapter (ensureCourse m r) r) r)) (lessonKey r) = true ->
  Complete m done -> Complete (addRow m r) (done ++ [r]).
Proof.
  intros Hhas H r' Hin. unfold addRow, pushTask. cbn [lessonMap].
  set (m3 := ensureLesson (ensureChapter (ensureCourse m r) r) r) in *.
  apply has_true_iff in Hhas as [l3 Hl3].
  rewrite getOwn_update. apply in_app_iff in Hin as [Hin | [<- | []]].
  - destruct (H r' Hin) as (l & Hl & Ht).
    apply (lessonMap_ensureLesson m r) in Hl. fold m3 in Hl. by_key El.
    + rewrite Hl. eexists. split; [reflexivity|]. cbn [tasks]. apply in_app_iff. left.
      exact Ht.
    + exists l. split; assumption.
  - rewrite streq_refl, Hl3. eexists. split; [reflexivity|]. cbn [tasks].
    apply in_app_iff. right. left. reflexivity.
Qed.

Lemma Sound_fold (rows : list TaskRowFields) (m : Maps) (done : list TaskRowFields) :
  (forall r, In r rows -> hyphenFree (row_courseId r) /\ hyphenFree (row_chapterId r)) ->
  Sound m -> Complete m done ->
  Sound (fold_left addRow rows m) /\ Complete (fold_left addRow rows m) (done ++ rows).
Proof.
  revert m done. induction rows as [|r rows IH]; intros m done HF Hs Hc.
  - rewrite app_nil_r. split; assumption.
  - cbn [fold_left]. replace (done ++ r :: rows) with ((done ++ [r]) ++ rows)
      by (rewrite <- app_assoc; reflexivity).
    destruct (HF r (or_introl eq_refl)) as [HF1 HF2].
    destruct (Sound_addRow m r HF1 HF2 Hs) as [Hs' Hhas].
    apply IH.
    + intros r' Hr'. apply HF. right. exact Hr'.
    + exact Hs'.
    + apply Complete_addRow; assumption.
Qed.

End Finding.

Section FindAgain.

Import Csv.

Lemma find_course (m : Maps) (entries : object CourseObject) (k : jsstring)
    (c : CourseObject) :
  (forall k' c', In (k', c') entries -> co_id c' = k') ->
  getOwn entries k = Some c ->
  find (fun course => streq (course_id course) k)
    (map (fun entry => courseOf m (snd entry)) entries)
  = Some (courseOf m c).
Proof.
  induction entries as [|[k' c'] entries IH]; intros Hid; [discriminate|].
  cbn [getOwn map find snd courseOf course_id].
  rewrite (Hid k' c' (or_introl eq_refl)).
  destruct (streq k' k).
  - intros [= <-]. reflexivity.
  - apply IH. intros k2 c2 H2. apply Hid. right. exact H2.
Qed.

Lemma find_chapter (m : Maps) (cid chid : jsstring) (chapterKeys : list jsstring)
    (ch : ChapterObject) :
  (forall ck, In ck chapterKeys ->
     exists ch', getOwn (chapterMap m) ck = Some ch'
                 /\ ck = chapterKeyOf cid (cho_id ch')) ->
  In (chapterKeyOf cid chid) chapterKeys ->
  getOwn (chapterMap m) (chapterKeyOf cid chid) = Some ch ->
  cho_id ch = chid ->
  find (fun chapter => streq (chapter_id chapter) chid) (chaptersOf m chapterKeys)
  = Some (chapterOf m ch).
Proof.
  intros Hall Hin Hch Hid. induction chapterKeys as [|ck more IH]; [destruct Hin|].
  destruct (Hall ck (or_introl eq_refl)) as (ch' & Hch' & Hck).
  unfold chaptersOf. cbn [flat_map]. rewrite Hch'. cbn [app find chapterOf chapter_id].
  destruct (streq (cho_id ch') chid) eqn:E.
  - apply streq_true_iff in E. rewrite E in Hck. subst ck.
    rewrite Hch in Hch'. injection Hch' as <-. reflexivity.
  - apply streq_false_iff in E. apply IH.
    + intros ck' Hck'. apply Hall. right. exact Hck'.
    + destruct Hin as [Hin | Hin]; [|exact Hin].
      exfalso. apply E. subst ck. rewrite Hch in Hch'. injection Hch' as <-. exact Hid.
Qed.

Lemma findTaskIn_some (lessons : list Lesson) (taskId : jsstring) (l : Lesson) (t : Task) :
  In l lessons -> In t (tasks l) -> id t = taskId ->
  exists l' t', findTaskIn lessons taskId = Some t'
                /\ In l' lessons /\ In t' (tasks l') /\ id t' = taskId.
Proof.
  intros Hl Ht Hid. induction lessons as [|l0 more IH]; [destruct Hl|].
  cbn [findTaskIn].
  destruct (find (fun t => streq (id t) taskId) (tasks l0)) as [t0|] eqn:E.
  - apply find_some in E as [Hin0 Hid0]. apply streq_true_iff in Hid0.
    exists l0, t0. split; [reflexivity|]. split; [left; reflexivity|]. split; assumption.
  - destruct Hl as [-> | Hl].
    + exfalso. apply (find_none _ _ E) in Ht. apply streq_false_iff in Ht. congruence.
    + destruct (IH Hl) as (l' & t' & Hf & Hl' & Ht' & Hid').
      exists l', t'. split; [exact Hf|]. split; [right; exact Hl'|]. split; assumption.
Qed.

Lemma In_lessonsOf (m : Maps) (lessonKeys : list jsstring) (l : Lesson) :
  In l (lessonsOf m lessonKeys) <->
  exists lk, In lk lessonKeys /\ getOwn (lessonMap m) lk = Some l.
Proof.
  unfold lessonsOf. rewrite in_flat_map. split; intros (lk & Hin & H); exists lk;
    (split; [exact Hin|]).
  - destruct (getOwn (lessonMap m) lk) as [l0|]; [|destruct H].
    destruct H as [-> | []]. reflexivity.
  - rewrite H. left. reflexivity.
Qed.

End FindAgain.

(** X18. Every row can be found again in the tree by its ids, provided no
    course id and no chapter id of the rows holds a hyphen: [findTask] on
    the course id, chapter id and task id of a row returns a task with
    that id which lies in that course and chapter and was built from a
    row. *)
Theorem findTask_finds_every_row (rows : list Csv.TaskRowFields) (r : Csv.TaskRowFields) :
  (forall r', In r' rows ->
     hyphenFree (Csv.row_courseId r') /\ hyphenFree (Csv.row_chapterId r')) ->
  In r rows ->
  exists t,
    Csv.findTask (Csv.organizeTasks rows)
      (Csv.row_courseId r) (Csv.row_chapterId r) (Csv.row_taskId r) = Some t
    /\ Csv.id t = Csv.row_taskId r
    /\ Csv.courseId t = Csv.row_courseId r
    /\ Csv.chapterId t = Csv.row_chapterId r
    /\ In t (allTasks (Csv.organizeTasks rows)).
Proof.
  intros HF Hr.
  pose proof (Shape_organizeTasks rows) as Hshape.
  destruct (Sound_fold rows emptyMaps [] HF Sound_empty) as [Hs Hc].
  { intros r' []. }
  cbn [app] in Hc. rewrite organizeTasks_unfold.
  set (m := fold_left Csv.addRow rows emptyMaps) in *.
  destruct (HF r Hr) as [HF1 HF2].
  destruct (Hc r Hr) as (l & Hl & Ht).
  destruct (sound_lesson _ Hs _ _ Hl) as (Hlk & HF3 & HF4 & (ch & Hch & Hlin) & _).
  apply lessonKeyOf_inj in Hlk as (E1 & E2 & E3); try assumption.
  rewrite <- E1, <- E2 in Hch.
  destruct (sound_chapter _ Hs _ _ Hch) as (Hck & HF5 & HF6 & (c & Hcm & Hcin) & Hles).
  apply chapterKeyOf_inj in Hck as [E4 E5]; try assumption.
  rewrite <- E4 in Hcm.
  (* the course and the chapter that [findChapter] reaches *)
  assert (Hfc : Csv.findChapter
                  (map (fun entry => Csv.courseOf m (snd entry)) (Csv.courseMap m))
                  (Csv.row_courseId r) (Csv.row_chapterId r)
                = Some (Csv.chapterOf m ch)).
  { unfold Csv.findChapter. rewrite (find_course m _ _ c); [|
      intros k' c' Hin;
      apply (shape_course _ _ Hshape k' c'), (Shape_entry m rows k' c' Hshape Hin) |
      exact Hcm].
    cbn [Csv.courseOf Csv.chapters].
    apply (find_chapter m (Csv.row_courseId r) (Csv.row_chapterId r)).
    - intros ck Hck. destruct (sound_course _ Hs _ _ Hcm ck Hck) as (ch' & Hch' & Hid').
      exists ch'. split; [exact Hch'|].
      destruct (sound_chapter _ Hs _ _ Hch') as (Hkey & _). rewrite Hid' in Hkey. exact Hkey.
    - exact Hcin.
    - exact Hch.
    - symmetry. exact E5. }
  unfold Csv.findTask. rewrite Hfc. cbn [Csv.chapterOf Csv.lessons].
  assert (Hlin' : In l (Csv.lessonsOf m (Csv.cho_lessons ch))).
  { apply In_lessonsOf. eexists. split; [exact Hlin | exact Hl]. }
  destruct (findTaskIn_some _ (Csv.row_taskId r) l (Csv.taskOfRow r) Hlin' Ht eq_refl)
    as (l' & t' & Hfind & Hl' & Ht' & Hid').
  exists t'. split; [exact Hfind|]. split; [exact Hid'|].
  apply In_lessonsOf in Hl' as (lk' & Hlk' & Hget').
  destruct (Hles lk' Hlk') as (l2 & Hget2 & Hc2 & Hch2).
  rewrite Hget' in Hget2. injection Hget2 as <-.
  destruct (sound_lesson _ Hs _ _ Hget') as (_ & _ & _ & _ & Htasks).
  destruct (Htasks t' Ht') as [Ec Ech].
  split; [congruence|]. split; [congruence|].
  (* the task is in the tree *)
  unfold allTasks. apply in_flat_map.
  exists (Csv.courseOf m c). split.
  - apply in_map_iff. exists (Csv.row_courseId r, c). split; [reflexivity|].
    apply getOwn_In, Hcm.
  - unfold tasksOfCourse. apply in_flat_map. exists (Csv.chapterOf m ch). split.
    + cbn [Csv.courseOf Csv.chapters]. unfold Csv.chaptersOf. apply in_flat_map.
      eexists. split; [exact Hcin|]. rewrite Hch. left. reflexivity.
    + unfold tasksOfChapter. apply in_flat_map. exists l'. split; [|exact Ht'].
      cbn [Csv.chapterOf Csv.lessons]. apply In_lessonsOf. eexists.
      split; [exact Hlk' | exact Hget'].
Qed.

Definition sheetRow (courseId chapterId lessonId taskId : jsstring) : Csv.TaskRowFields :=
  {| Csv.row_courseId := courseId; Csv.row_courseName := js "Course " ++ courseId;
     Csv.row_chapterId := chapterId; Csv.row_chapterName := js "Chapter " ++ chapterId;
     Csv.row_lessonId := lessonId; Csv.row_lessonName := js "Lesson " ++ lessonId;
     Csv.row_taskId := taskId; Csv.row_taskTitle := js "Task " ++ taskId;
     Csv.row_scenario := []; Csv.row_pdfUrls := js "a.pdf; b.pdf,";
     Csv.row_tallyUrls := []; Csv.row_answerKeyUrl := [];
     Csv.row_xp := 10; Csv.row_instructions := Some (js "one\ntwo") |}.

Lemma findTask_finds_every_row_witness :
  (forall r', In r' [sheetRow (js "c1") (js "ch1") (js "L1") (js "t1");
                     sheetRow (js "c1") (js "ch2") (js "L1") (js "t2")] ->
     hyphenFree (Csv.row_courseId r') /\ hyphenFree (Csv.row_chapterId r'))
  /\ In (sheetRow (js "c1") (js "ch2") (js "L1") (js "t2"))
       [sheetRow (js "c1") (js "ch1") (js "L1") (js "t1");
        sheetRow (js "c1") (js "ch2") (js "L1") (js "t2")]
  /\ exists t,
       Csv.findTask
         (Csv.organizeTasks [sheetRow (js "c1") (js "ch1") (js "L1") (js "t1");
                             sheetRow (js "c1") (js "ch2") (js "L1") (js "t2")])
         (js "c1") (js "ch2") (js "t2") = Some t
       /\ Csv.id t = js "t2".
Proof.
  assert (H1 : forall r', In r' [sheetRow (js "c1") (js "ch1") (js "L1") (js "t1");
                                 sheetRow (js "c1") (js "ch2") (js "L1") (js "t2")] ->
                 hyphenFree (Csv.row_courseId r') /\ hyphenFree (Csv.row_chapterId r')).
  { intros r' [<- | [<- | []]]; split; intros H; vm_compute in H;
      decompose [or] H; try discriminate; assumption. }
  assert (H2 : In (sheetRow (js "c1") (js "ch2") (js "L1") (js "t2"))
                 [sheetRow (js "c1") (js "ch1") (js "L1") (js "t1");
                  sheetRow (js "c1") (js "ch2") (js "L1") (js "t2")])
    by (right; left; reflexivity).
  split; [exact H1|]. split; [exact H2|].
  destruct (findTask_finds_every_row _ _ H1 H2) as (t & Ht & Hid & _).
  exists t. split; [exact Ht | exact Hid].
Defined.

(** Without the proviso a row can be lost to [findTask]: the course id
    [a-b] with chapter [c] and the course id [a] with chapter [b-c] give
    the same chapter key, so the second row finds the chapter object of
    the first and its course gets no chapter. *)
Example hyphen_in_ids_merges_chapters :
  let rows := [sheetRow (js "a-b") (js "c") (js "L1") (js "t1");
               sheetRow (js "a") (js "b-c") (js "L1") (js "t2")] in
  map (fun course => (Csv.course_id course, map Csv.chapter_id (Csv.chapters course)))
    (Csv.organizeTasks rows)
  = [(js "a-b", [js "c"]); (js "a", [])]
  /\ Csv.findTask (Csv.organizeTasks rows) (js "a") (js "b-c") (js "t2") = None
  /\ map Csv.id (allTasks (Csv.organizeTasks rows)) = [js "t1"; js "t2"].
Proof. vm_compute. repeat split. Qed.

(** The resources and the instructions of a task: the URL list is split
    at semicolons, bars and commas, trimmed, and loses its empty pieces;
    a backslash followed by n becomes a line feed. *)
Example taskOfRow_sample :
  let task := Csv.taskOfRow (sheetRow (js "c1") (js "ch1") (js "L1") (js "t1")) in
  Csv.pdfs (Csv.resources task) = [js "a.pdf"; js "b.pdf"]
  /\ Csv.forms (Csv.resources task) = []
  /\ Csv.instructions task = Some (js "one" ++ [Csv.LF] ++ js "two").
Proof. vm_compute. repeat split. Qed.

(** ** The pages that write the completion lists *)

Section StorageKeys.

(** The key families of the program never meet. *)
Lemma tasksKey_lessonsKey (a b : jsstring) :
  Csv.completedKey a <> TaskPage.completedLessonsKey b.
Proof.
  unfold Csv.completedKey, TaskPage.completedLessonsKey. intros H.
  apply (f_equal (@rev N)) in H. rewrite !rev_app_distr in H.
  vm_compute in H. discriminate H.
Qed.

Lemma watchedKey_learningDoneKey (a b : jsstring) :
  Learning.watchedKey a <> LearningPage.learningDoneKey b.
Proof.
  unfold Learning.watchedKey, LearningPage.learningDoneKey. intros H.
  apply (f_equal (@rev N)) in H. rewrite !rev_app_distr in H.
  vm_compute in H. discriminate H.
Qed.

Lemma watchedKey_lessonsKey (a b : jsstring) :
  Learning.watchedKey a <> TaskPage.completedLessonsKey b.
Proof.
  unfold Learning.watchedKey, TaskPage.completedLessonsKey. intros H.
  vm_compute in H. discriminate H.
Qed.

Lemma learningDoneKey_lessonsKey (a b : jsstring) :
  LearningPage.learningDoneKey a <> TaskPage.completedLessonsKey b.
Proof.
  unfold LearningPage.learningDoneKey, TaskPage.completedLessonsKey. intros H.
  vm_compute in H. discriminate H.
Qed.

Lemma learningDoneKey_inj (a b : jsstring) :
  LearningPage.learningDoneKey a = LearningPage.learningDoneKey b -> a = b.
Proof.
  unfold LearningPage.learningDoneKey. intros H.
  apply app_inv_head in H. apply app_inv_tail in H. exact H.
Qed.

Lemma getItem_setItem (st : storage) (k k' : jsstring) (v : item) :
  getItem (setItem st k v) k' = if jsstring_eq_dec k k' then Some v else getItem st k'.
Proof.
  unfold getItem, setItem. destruct (jsstring_eq_dec k k') as [-> | Hne].
  - apply lookup_insert_eq.
  - apply lookup_insert_ne, Hne.
Qed.

Lemma getItem_setItem_other (st : storage) (k k' : jsstring) (v : item) :
  k <> k' -> getItem (setItem st k v) k' = getItem st k'.
Proof. intros H. rewrite getItem_setItem. destruct (jsstring_eq_dec k k'); congruence. Qed.

Lemma getItem_setItem_same (st : storage) (k : jsstring) (v : item) :
  getItem (setItem st k v) k = Some v.
Proof. rewrite getItem_setItem. destruct (jsstring_eq_dec k k); congruence. Qed.

End StorageKeys.

Lemma lessonTaskIds_findLesson (courses : list Csv.Course)
    (courseId chapterId lessonId : jsstring) (lesson : Csv.Lesson) :
  Csv.findLesson courses courseId chapterId lessonId = Some lesson ->
  TaskPage.lessonTaskIds courses courseId (Some chapterId) (Some lessonId)
  = map Csv.id (Csv.tasks lesson)
  /\ Csv.lesson_id lesson = lessonId.
Proof.
  unfold Csv.findLesson, Csv.findChapter, TaskPage.lessonTaskIds.
  destruct (find _ courses) as [course|]; [|discriminate].
  destruct (find _ (Csv.chapters course)) as [chapter|]; [|discriminate].
  intros H. rewrite H. split; [reflexivity|].
  apply find_some in H as [_ H]. apply streq_true_iff, H.
Qed.

Lemma markLessonCompleted_list (st st' : storage) (courseId lessonId : jsstring) :
  TaskPage.markLessonCompleted st courseId lessonId = Some st' ->
  exists arr,
    parseList (getItem st (TaskPage.completedLessonsKey courseId)) = Some arr
    /\ parseList (getItem st' (TaskPage.completedLessonsKey courseId))
       = Some (if includes arr lessonId then arr else arr ++ [lessonId])
    /\ forall k, k <> TaskPage.completedLessonsKey courseId -> getItem st' k = getItem st k.
Proof.
  unfold TaskPage.markLessonCompleted.
  destruct (parseList (getItem st (TaskPage.completedLessonsKey courseId))) as [arr|] eqn:E;
    [|discriminate].
  intros H. exists arr. split; [reflexivity|].
  destruct (includes arr lessonId); cbn [negb] in H; injection H as <-.
  - split; [exact E | reflexivity].
  - rewrite getItem_setItem_same. split; [reflexivity|].
    intros k Hk. apply getItem_setItem_other. congruence.
Qed.

(** X19. Completing the last open task of a lesson on the task page marks
    the lesson completed, and the chapter page then shows it complete in
    the header and on the card; while a task of the lesson is still open
    the completed-lesson list is left as it was. The lesson is the one
    [findLesson] gives for the ids of the page in the fetched sheet. *)
Theorem completing_last_task_completes_lesson
    (localStorage localStorage' sessionStorage : storage)
    (lessonHasLearning : object bool) (courseId taskId chapterId : jsstring)
    (task : Csv.Task) (rows : list Csv.TaskRowFields) (lesson : Csv.Lesson)
    (sessionTasks : list jsstring) :
  truthy courseId = true -> truthy taskId = true -> truthy (Csv.lessonId task) = true ->
  Csv.findLesson (Csv.organizeTasks rows) courseId chapterId (Csv.lessonId task)
  = Some lesson ->
  Csv.tasks lesson <> [] ->
  Csv.getCompletedTasks sessionStorage courseId = Some sessionTasks ->
  TaskPage.handleTaskCompleted localStorage (Some courseId) (Some taskId) (Some chapterId)
    (Some task) (Some rows) = Some localStorage' ->
  exists stored,
    parseList (getItem localStorage (Csv.completedKey courseId)) = Some stored
    /\ ((forall t, In t (Csv.tasks lesson) -> Csv.id t = taskId \/ In (Csv.id t) stored) ->
        exists completedLessons,
          ChapterPage.getCompletedLessonsList courseId localStorage' = Some completedLessons
          /\ In (Csv.lesson_id lesson) completedLessons
          /\ ChapterPage.isLessonFullyComplete courseId localStorage' sessionStorage
               lessonHasLearning lesson = Some true
          /\ ChapterPage.isComplete courseId localStorage' sessionStorage lessonHasLearning
               (setOf completedLessons) lesson = Some true)
    /\ (~ (forall t, In t (Csv.tasks lesson) -> Csv.id t = taskId \/ In (Csv.id t) stored) ->
        ChapterPage.getCompletedLessonsList courseId localStorage'
        = ChapterPage.getCompletedLessonsList courseId localStorage).
Proof.
  intros Tc Tt Tl Hfind Hne Hsess H.
  destruct (lessonTaskIds_findLesson _ _ _ _ _ Hfind) as [Hids Hlid].
  unfold TaskPage.handleTaskCompleted in H. rewrite Tc, Tt in H. cbn [andb] in H.
  destruct (parseList (getItem localStorage (Csv.completedKey courseId)))
    as [stored|] eqn:Hstored; [|discriminate].
  cbn [option_map] in H. rewrite Hids, Tl, andb_true_r in H.
  set (completed := if negb (includes stored taskId) then stored ++ [taskId] else stored) in *.
  set (st1 := if negb (includes stored taskId)
              then setItem localStorage (Csv.completedKey courseId) (JSONArray completed)
              else localStorage) in *.
  assert (Hst1 : parseList (getItem st1 (Csv.completedKey courseId)) = Some completed
                 /\ forall k, k <> Csv.completedKey courseId ->
                      getItem st1 k = getItem localStorage k).
  { unfold st1, completed. destruct (includes stored taskId); cbn [negb].
    - split; [exact Hstored | reflexivity].
    - rewrite getItem_setItem_same. split; [reflexivity|].
      intros k Hk. apply getItem_setItem_other. congruence. }
  destruct Hst1 as [Htasks1 Hother1].
  assert (Hcompleted : forall x, In x completed <-> x = taskId \/ In x stored).
  { intros x. unfold completed. destruct (includes stored taskId) eqn:E; cbn [negb].
    - apply includes_In in E. split; [tauto|]. intros [-> | Hx]; assumption.
    - rewrite in_app_iff. cbn [In]. split.
      + intros [Hx | [<- | []]]; [right; exact Hx | left; reflexivity].
      + intros [-> | Hx]; [right; left; reflexivity | left; exact Hx]. }
  assert (Hall : (if (0 <? length (map Csv.id (Csv.tasks lesson)))%nat
                  then forallb (includes completed) (map Csv.id (Csv.tasks lesson))
                  else false) = true
                 <-> forall t, In t (Csv.tasks lesson) ->
                       Csv.id t = taskId \/ In (Csv.id t) stored).
  { destruct (Csv.tasks lesson) as [|t0 ts] eqn:Et; [congruence|].
    change (0 <? length (map Csv.id (t0 :: ts)))%nat with true. cbv iota.
    rewrite forallb_forall. split.
    - intros Hf t Ht. apply Hcompleted, includes_In, Hf, in_map, Ht.
    - intros Hf x Hx. apply in_map_iff in Hx as (t & <- & Ht).
      apply includes_In, Hcompleted, Hf, Ht. }
  assert (Hkeys : TaskPage.completedLessonsKey courseId <> Csv.completedKey courseId).
  { intros E. symmetry in E. exact (tasksKey_lessonsKey _ _ E). }
  exists stored. split; [reflexivity|].
  destruct (if (0 <? length (map Csv.id (Csv.tasks lesson)))%nat
            then forallb (includes completed) (map Csv.id (Csv.tasks lesson))
            else false) eqn:Eall.
  - (* every task of the lesson is completed *)
    split; [|intros Hn; exfalso; tauto]. intros _.
    destruct (markLessonCompleted_list _ _ _ _ H) as (arr & Harr & Harr' & Hother).
    set (done := if includes arr (Csv.lessonId task) then arr
                 else arr ++ [Csv.lessonId task]) in *.
    exists done.
    assert (Hin : In (Csv.lesson_id lesson) done).
    { rewrite Hlid. unfold done. destruct (includes arr (Csv.lessonId task)) eqn:E.
      - apply includes_In, E.
      - apply in_app_iff. right. left. reflexivity. }
    assert (Hinc : includes done (Csv.lesson_id lesson) = true) by (apply includes_In, Hin).
    assert (Hinc' : includes (setOf done) (Csv.lesson_id lesson) = true)
      by (apply includes_In, In_setOf, Hin).
    assert (Hmerged : ChapterPage.allCompletedTasks courseId localStorage' sessionStorage
                      = Some (setOf (completed ++ sessionTasks))).
    { unfold ChapterPage.allCompletedTasks.
      rewrite (Hother _ (fun E => tasksKey_lessonsKey _ _ E)), Htasks1, Hsess. reflexivity. }
    assert (Hht : ChapterPage.hasTasks lesson = true).
    { unfold ChapterPage.hasTasks. destruct (Csv.tasks lesson); [congruence | reflexivity]. }
    assert (Hld : ChapterPage.learningDone localStorage' done lesson = true).
    { unfold ChapterPage.learningDone. rewrite Hinc. apply orb_true_r. }
    assert (Hhl : ChapterPage.hasLearning localStorage' lessonHasLearning done lesson = true).
    { unfold ChapterPage.hasLearning. rewrite Hld. apply orb_true_r. }
    assert (Hlist : ChapterPage.getCompletedLessonsList courseId localStorage' = Some done)
      by exact Harr'.
    split; [exact Hlist|]. split; [exact Hin|]. split.
    + unfold ChapterPage.isLessonFullyComplete, ChapterPage.getLessonCompletedTasks.
      rewrite Hmerged, Hlist. cbv zeta. rewrite Hht, Hhl, Hld. cbn [andb].
      rewrite orb_true_r. reflexivity.
    + unfold ChapterPage.isComplete, ChapterPage.getLessonCompletedTasks.
      rewrite Hmerged, Hlist. cbv zeta. rewrite Hht, Hhl, Hinc'. cbn [andb].
      rewrite orb_true_r. reflexivity.
  - (* a task of the lesson is still open *)
    split; [intros Hf; apply Hall in Hf; discriminate Hf|]. intros _.
    cbn [andb] in H. injection H as <-.
    unfold ChapterPage.getCompletedLessonsList.
    change (js "course_" ++ courseId ++ js "_completed_lessons")
      with (TaskPage.completedLessonsKey courseId).
    rewrite (Hother1 _ Hkeys). reflexivity.
Qed.

Definition sheetLesson : Csv.Lesson :=
  {| Csv.lesson_id := js "L1"; Csv.lesson_name := js "Lesson L1";
     Csv.lesson_chapterId := js "ch1"; Csv.lesson_courseId := js "c1";
     Csv.tasks := [Csv.taskOfRow (sheetRow (js "c1") (js "ch1") (js "L1") (js "t1"))] |}.

Lemma completing_last_task_completes_lesson_witness :
  Csv.findLesson (Csv.organizeTasks [sheetRow (js "c1") (js "ch1") (js "L1") (js "t1")])
    (js "c1") (js "ch1") (js "L1") = Some sheetLesson
  /\ TaskPage.handleTaskCompleted ∅ (Some (js "c1")) (Some (js "t1")) (Some (js "ch1"))
       (Some (Csv.taskOfRow (sheetRow (js "c1") (js "ch1") (js "L1") (js "t1"))))
       (Some [sheetRow (js "c1") (js "ch1") (js "L1") (js "t1")])
     = Some (setItem (setItem ∅ (Csv.completedKey (js "c1")) (JSONArray [js "t1"]))
               (TaskPage.completedLessonsKey (js "c1")) (JSONArray [js "L1"]))
  /\ exists completedLessons,
       ChapterPage.getCompletedLessonsList (js "c1")
         (setItem (setItem ∅ (Csv.completedKey (js "c1")) (JSONArray [js "t1"]))
            (TaskPage.completedLessonsKey (js "c1")) (JSONArray [js "L1"]))
       = Some completedLessons
       /\ In (js "L1") completedLessons.
Proof.
  assert (H1 : Csv.findLesson
                 (Csv.organizeTasks [sheetRow (js "c1") (js "ch1") (js "L1") (js "t1")])
                 (js "c1") (js "ch1") (js "L1") = Some sheetLesson) by reflexivity.
  assert (H2 : TaskPage.handleTaskCompleted ∅ (Some (js "c1")) (Some (js "t1"))
                 (Some (js "ch1"))
                 (Some (Csv.taskOfRow (sheetRow (js "c1") (js "ch1") (js "L1") (js "t1"))))
                 (Some [sheetRow (js "c1") (js "ch1") (js "L1") (js "t1")])
               = Some (setItem (setItem ∅ (Csv.completedKey (js "c1")) (JSONArray [js "t1"]))
                         (TaskPage.completedLessonsKey (js "c1")) (JSONArray [js "L1"])))
    by reflexivity.
  split; [exact H1|]. split; [exact H2|].
  destruct (completing_last_task_completes_lesson ∅ _ ∅ [] (js "c1") (js "t1") (js "ch1")
              (Csv.taskOfRow (sheetRow (js "c1") (js "ch1") (js "L1") (js "t1")))
              [sheetRow (js "c1") (js "ch1") (js "L1") (js "t1")]
              sheetLesson [] eq_refl eq_refl eq_refl H1 ltac:(discriminate) eq_refl H2)
    as (stored & Hstored & Hdone & _).
  destruct Hdone as (completedLessons & Hlist & Hin & _).
  - intros t [<- | []]. left. reflexivity.
  - exists completedLessons. split; [exact Hlist | exact Hin].
Defined.

Lemma NoDup_same_length_iff (l ids : list jsstring) :
  List.NoDup l -> List.NoDup ids -> incl l ids ->
  length l = length ids <-> incl ids l.
Proof.
  intros Hl Hids Hsub. split.
  - intros Hlen. apply (List.NoDup_length_incl Hl); [lia | exact Hsub].
  - intros Hincl. pose proof (List.NoDup_incl_length Hids Hincl).
    pose proof (List.NoDup_incl_length Hl Hsub). lia.
Qed.

Lemma markTopicWatched_storage (st st' : storage) (lessonId topicId : jsstring) :
  Learning.markTopicWatched st lessonId topicId = Some st' ->
  exists watched,
    Learning.getWatchedTopics st lessonId = Some watched
    /\ Learning.getWatchedTopics st' lessonId
       = Some (if includes watched topicId then watched else watched ++ [topicId])
    /\ forall k, k <> Learning.watchedKey lessonId -> getItem st' k = getItem st k.
Proof.
  unfold Learning.markTopicWatched.
  destruct (Learning.getWatchedTopics st lessonId) as [watched|] eqn:E; [|discriminate].
  intros H. exists watched. split; [reflexivity|].
  destruct (includes watched topicId); cbn [negb] in H; injection H as <-.
  - split; [exact E | reflexivity].
  - unfold Learning.getWatchedTopics. rewrite getItem_setItem_same.
    split; [reflexivity|]. intros k Hk. apply getItem_setItem_other. congruence.
Qed.

(** X20. Selecting a topic on the learning page records it as watched.
    When the topic ids of the lesson are pairwise distinct and the
    watched list holds only topics of the lesson, the call sets the
    learning-done flag of the lesson and enters the lesson in the
    completed-lesson list of the course exactly when every topic of the
    lesson is watched after it; otherwise flag and list are as before. *)
Theorem watching_every_topic_marks_learning_done
    (localStorage localStorage' : storage) (courseId lessonId : jsstring)
    (topics : list Learning.Topic) (topic : Learning.Topic) (watched : list jsstring) :
  truthy lessonId = true -> truthy courseId = true ->
  truthy (Learning.topic_id topic) = true ->
  In topic topics ->
  List.NoDup (map Learning.topic_id topics) ->
  Learning.getWatchedTopics localStorage lessonId = Some watched ->
  List.NoDup watched ->
  incl watched (map Learning.topic_id topics) ->
  LearningPage.handleTopicSelect localStorage (Some courseId) (Some lessonId) topics topic
  = Some localStorage' ->
  (exists updated,
     Learning.getWatchedTopics localStorage' lessonId = Some updated
     /\ In (Learning.topic_id topic) updated /\ incl watched updated)
  /\ ((forall x, In x (map Learning.topic_id topics) ->
         x = Learning.topic_id topic \/ In x watched) ->
      ChapterPage.isLessonLearningDone localStorage' lessonId = true
      /\ exists completedLessons,
           ChapterPage.getCompletedLessonsList courseId localStorage' = Some completedLessons
           /\ In lessonId completedLessons)
  /\ (~ (forall x, In x (map Learning.topic_id topics) ->
           x = Learning.topic_id topic \/ In x watched) ->
      ChapterPage.isLessonLearningDone localStorage' lessonId
      = ChapterPage.isLessonLearningDone localStorage lessonId
      /\ ChapterPage.getCompletedLessonsList courseId localStorage'
         = ChapterPage.getCompletedLessonsList courseId localStorage).
Proof.
  intros Tl Tc Tt Hin Hids Hw Hwnd Hwsub H.
  unfold LearningPage.handleTopicSelect in H. rewrite Tl, Tt, Tc in H. cbn [andb] in H.
  destruct (Learning.markTopicWatched localStorage lessonId (Learning.topic_id topic))
    as [st1|] eqn:Hmark; [|discriminate].
  destruct (markTopicWatched_storage _ _ _ _ Hmark) as (w & Hw' & Hupdated & Hother1).
  rewrite Hw in Hw'. injection Hw' as <-.
  rewrite Hupdated in H.
  set (tid := Learning.topic_id topic) in *.
  set (updated := if includes watched tid then watched else watched ++ [tid]) in *.
  assert (Hu : forall x, In x updated <-> x = tid \/ In x watched).
  { intros x. unfold updated. destruct (includes watched tid) eqn:E.
    - apply includes_In in E. split; [tauto|]. intros [-> | Hx]; assumption.
    - rewrite in_app_iff. cbn [In]. split.
      + intros [Hx | [<- | []]]; [right; exact Hx | left; reflexivity].
      + intros [-> | Hx]; [right; left; reflexivity | left; exact Hx]. }
  assert (Hund : List.NoDup updated).
  { unfold updated. destruct (includes watched tid) eqn:E; [exact Hwnd|].
    apply NoDup_snoc_fresh; [exact Hwnd | apply includes_false_iff, E]. }
  assert (Husub : incl updated (map Learning.topic_id topics)).
  { intros x Hx. apply Hu in Hx as [-> | Hx]; [apply in_map, Hin | apply Hwsub, Hx]. }
  assert (Hlen : (length updated =? length topics)%nat && (0 <? length topics)%nat = true
                 <-> forall x, In x (map Learning.topic_id topics) ->
                       x = tid \/ In x watched).
  { assert (H0 : (0 <? length topics)%nat = true).
    { destruct topics; [destruct Hin | reflexivity]. }
    rewrite H0, andb_true_r, Nat.eqb_eq.
    rewrite <- (length_map Learning.topic_id topics).
    rewrite (NoDup_same_length_iff updated _ Hund Hids Husub).
    split; intros Hf x Hx; apply Hu, Hf, Hx. }
  assert (Hread1 : ChapterPage.isLessonLearningDone st1 lessonId
                   = ChapterPage.isLessonLearningDone localStorage lessonId
                   /\ ChapterPage.getCompletedLessonsList courseId st1
                      = ChapterPage.getCompletedLessonsList courseId localStorage).
  { unfold ChapterPage.isLessonLearningDone, ChapterPage.getCompletedLessonsList.
    change (js "lesson_" ++ lessonId ++ js "_learningDone")
      with (LearningPage.learningDoneKey lessonId).
    change (js "course_" ++ courseId ++ js "_completed_lessons")
      with (TaskPage.completedLessonsKey courseId).
    rewrite !Hother1; [split; reflexivity | |].
    - intros E. symmetry in E. exact (watchedKey_lessonsKey _ _ E).
    - intros E. symmetry in E. exact (watchedKey_learningDoneKey _ _ E). }
  split.
  { (* the watched list *)
    exists updated.
    assert (Hkeep : forall st2 : storage,
              (forall k, k = Learning.watchedKey lessonId -> getItem st2 k = getItem st1 k) ->
              Learning.getWatchedTopics st2 lessonId = Some updated).
    { intros st2 Hk. unfold Learning.getWatchedTopics. rewrite (Hk _ eq_refl).
      exact Hupdated. }
    split; [|split; [apply Hu; left; reflexivity | intros x Hx; apply Hu; right; exact Hx]].
    destruct ((length updated =? length topics)%nat && (0 <? length topics)%nat).
    - destruct (parseList _) as [done|] in H; [|discriminate].
      destruct (negb (includes done lessonId)) in H; injection H as <-; apply Hkeep;
        intros k ->; rewrite ?getItem_setItem_other; try reflexivity.
      + intros E. symmetry in E. exact (watchedKey_learningDoneKey _ _ E).
      + intros E. symmetry in E. exact (watchedKey_lessonsKey _ _ E).
      + intros E. symmetry in E. exact (watchedKey_learningDoneKey _ _ E).
    - injection H as <-. exact Hupdated. }
  destruct ((length updated =? length topics)%nat && (0 <? length topics)%nat) eqn:Eall.
  - split; [|intros Hn; exfalso; apply Hn, Hlen; reflexivity]. intros _.
    set (st2 := setItem st1 (LearningPage.learningDoneKey lessonId) (Text (js "true"))) in *.
    destruct (parseList (getItem st2 (TaskPage.completedLessonsKey courseId)))
      as [done|] eqn:Hdone; [|discriminate].
    assert (Hflag2 : getItem st2 (LearningPage.learningDoneKey lessonId)
                     = Some (Text (js "true"))) by apply getItem_setItem_same.
    destruct (includes done lessonId) eqn:Einc; cbn [negb] in H; injection H as <-.
    + split.
      * unfold ChapterPage.isLessonLearningDone.
        change (js "lesson_" ++ lessonId ++ js "_learningDone")
          with (LearningPage.learningDoneKey lessonId).
        rewrite Hflag2. reflexivity.
      * exists done. split; [exact Hdone | apply includes_In, Einc].
    + split.
      * unfold ChapterPage.isLessonLearningDone.
        change (js "lesson_" ++ lessonId ++ js "_learningDone")
          with (LearningPage.learningDoneKey lessonId).
        rewrite getItem_setItem_other, Hflag2; [reflexivity|].
        intros E. symmetry in E. exact (learningDoneKey_lessonsKey _ _ E).
      * exists (done ++ [lessonId]). split.
        -- unfold ChapterPage.getCompletedLessonsList.
           change (js "course_" ++ courseId ++ js "_completed_lessons")
             with (TaskPage.completedLessonsKey courseId).
           rewrite getItem_setItem_same. reflexivity.
        -- apply in_app_iff. right. left. reflexivity.
  - split; [intros Hf; apply Hlen in Hf; discriminate Hf|]. intros _.
    injection H as <-. exact Hread1.
Qed.

Definition sheetTopic (topicId : jsstring) (order : Z) : Learning.Topic :=
  {| Learning.topic_id := topicId; Learning.topic_title := js "Topic " ++ topicId;
     Learning.topic_videoUrl := js "https://youtu.be/dQw4w9WgXcQ";
     Learning.topic_description := []; Learning.topic_order := order;
     Learning.topic_lessonId := js "L1"; Learning.topic_chapterId := js "ch1";
     Learning.topic_courseId := js "c1";
     Learning.topic_youtubeId := Some (js "dQw4w9WgXcQ") |}.

Definition oneWatchedStorage : storage :=
  setItem ∅ (Learning.watchedKey (js "L1")) (JSONArray [js "T1"]).

Definition allWatchedStorage : storage :=
  setItem
    (setItem
       (setItem ∅ (Learning.watchedKey (js "L1")) (JSONArray [js "T1"; js "T2"]))
       (LearningPage.learningDoneKey (js "L1")) (Text (js "true")))
    (TaskPage.completedLessonsKey (js "c1")) (JSONArray [js "L1"]).

Lemma watching_every_topic_marks_learning_done_witness :
  In (sheetTopic (js "T2") 2) [sheetTopic (js "T1") 1; sheetTopic (js "T2") 2]
  /\ List.NoDup (map Learning.topic_id [sheetTopic (js "T1") 1; sheetTopic (js "T2") 2])
  /\ Learning.getWatchedTopics oneWatchedStorage (js "L1") = Some [js "T1"]
  /\ incl [js "T1"] (map Learning.topic_id [sheetTopic (js "T1") 1; sheetTopic (js "T2") 2])
  /\ LearningPage.handleTopicSelect oneWatchedStorage (Some (js "c1")) (Some (js "L1"))
       [sheetTopic (js "T1") 1; sheetTopic (js "T2") 2] (sheetTopic (js "T2") 2)
     = Some allWatchedStorage
  /\ ChapterPage.isLessonLearningDone allWatchedStorage (js "L1") = true.
Proof.
  assert (H1 : In (sheetTopic (js "T2") 2) [sheetTopic (js "T1") 1; sheetTopic (js "T2") 2])
    by (right; left; reflexivity).
  assert (H2 : List.NoDup
                 (map Learning.topic_id [sheetTopic (js "T1") 1; sheetTopic (js "T2") 2])).
  { cbn. constructor; [intros [[=] | []] | constructor; [intros [] | constructor]]. }
  assert (H3 : Learning.getWatchedTopics oneWatchedStorage (js "L1") = Some [js "T1"])
    by reflexivity.
  assert (H4 : List.NoDup [js "T1"]) by (constructor; [intros [] | constructor]).
  assert (H5 : incl [js "T1"]
                 (map Learning.topic_id [sheetTopic (js "T1") 1; sheetTopic (js "T2") 2])).
  { intros x [<- | []]. left. reflexivity. }
  assert (H6 : LearningPage.handleTopicSelect oneWatchedStorage (Some (js "c1"))
                 (Some (js "L1")) [sheetTopic (js "T1") 1; sheetTopic (js "T2") 2]
                 (sheetTopic (js "T2") 2)
               = Some allWatchedStorage) by reflexivity.
  split; [exact H1|]. split; [exact H2|]. split; [exact H3|]. split; [exact H5|].
  split; [exact H6|].
  destruct (watching_every_topic_marks_learning_done oneWatchedStorage allWatchedStorage
              (js "c1") (js "L1") [sheetTopic (js "T1") 1; sheetTopic (js "T2") 2]
              (sheetTopic (js "T2") 2) [js "T1"] eq_refl eq_refl eq_refl H1 H2 H3 H4 H5 H6)
    as (_ & Hdone & _).
  apply Hdone. intros x [<- | [<- | []]]; [right; left; reflexivity | left; reflexivity].
Defined.

(** ** The course page against the chapter page *)

Lemma tasksDone_forallb (lesson : Csv.Lesson) (merged : list jsstring) :
  forallb (fun task => includes merged (Csv.id task)) (Csv.tasks lesson) = true ->
  (Csv.completedTasks
     (Csv.calculateProgress (Csv.tasks lesson)
        (List.filter (fun taskId => includes (map Csv.id (Csv.tasks lesson)) taskId) merged))
   =? Z.of_nat (length (Csv.tasks lesson))) = true.
Proof.
  intros H. apply Z.eqb_eq, all_tasks_counted. intros t Ht.
  rewrite forallb_forall in H. apply includes_In, H, Ht.
Qed.

(** X21. The course page is the stricter of the two pages: a lesson that
    it counts complete is complete on the lesson card of the chapter
    page, whatever [lesson.hasLearning] and [lessonHasLearning] are. On
    the lessons of [organizeTasks], which have no [hasLearning] property,
    the course page counts a lesson with tasks complete exactly when
    every task id is stored completed, and a lesson without tasks exactly
    when its id is in the completed-lesson list. *)
Theorem course_page_complete_implies_card_complete (courseId : jsstring)
    (localStorage sessionStorage : storage) (lessonHasLearning : object bool)
    (hasLearning : Csv.Lesson -> bool) (lesson : Csv.Lesson)
    (merged completedLessons : list jsstring) :
  CoursePage.getCompletedTasks courseId localStorage sessionStorage = Some merged ->
  CoursePage.getCompletedLessons courseId localStorage = Some completedLessons ->
  (CoursePage.isLessonFullyComplete courseId localStorage sessionStorage hasLearning lesson
   = Some true ->
   ChapterPage.isLessonFullyComplete courseId localStorage sessionStorage lessonHasLearning
     lesson = Some true)
  /\ (CoursePage.isLessonFullyComplete courseId localStorage sessionStorage
        (fun _ => false) lesson = Some true
      <-> (Csv.tasks lesson <> []
           /\ forall t, In t (Csv.tasks lesson) -> In (Csv.id t) merged)
          \/ (Csv.tasks lesson = [] /\ In (Csv.lesson_id lesson) completedLessons)).
Proof.
  intros Hm Hl. split.
  - unfold CoursePage.isLessonFullyComplete. rewrite Hm, Hl. cbv zeta.
    unfold ChapterPage.isLessonFullyComplete, ChapterPage.getLessonCompletedTasks.
    change (ChapterPage.allCompletedTasks courseId localStorage sessionStorage)
      with (CoursePage.getCompletedTasks courseId localStorage sessionStorage).
    change (ChapterPage.getCompletedLessonsList courseId localStorage)
      with (CoursePage.getCompletedLessons courseId localStorage).
    rewrite Hm, Hl. cbv zeta. unfold ChapterPage.hasTasks, ChapterPage.hasLearning,
      ChapterPage.learningDone.
    set (inList := includes completedLessons (Csv.lesson_id lesson)).
    set (flag := ChapterPage.isLessonLearningDone localStorage (Csv.lesson_id lesson)).
    set (content := ChapterPage.hasLearningContent lessonHasLearning (Csv.lesson_id lesson)).
    set (all := forallb (fun task => includes merged (Csv.id task)) (Csv.tasks lesson)).
    pose proof (tasksDone_forallb lesson merged) as Hdone. fold all in Hdone.
    set (counted := Csv.completedTasks _ =? _) in *.
    set (some := (0 <? length (Csv.tasks lesson))%nat).
    set (prop := hasLearning lesson).
    clearbody counted all inList flag content some prop.
    destruct all, counted, inList, flag, content, some, prop; cbn; intros E;
      try reflexivity; try discriminate E; specialize (Hdone eq_refl); discriminate Hdone.
  - unfold CoursePage.isLessonFullyComplete. rewrite Hm, Hl. cbv zeta.
    rewrite andb_false_r.
    destruct (Csv.tasks lesson) as [|t0 ts] eqn:Et.
    + cbn. split.
      * intros [= E]. right. split; [reflexivity | apply includes_In, E].
      * intros [[Hne _] | [_ Hin]]; [congruence|]. f_equal. apply includes_In, Hin.
    + change (0 <? length (t0 :: ts))%nat with true. cbn [andb].
      split.
      * intros [= E]. left. split; [discriminate|]. intros t Ht.
        change (forallb (fun task => includes merged (Csv.id task)) (t0 :: ts) = true) in E.
        apply includes_In. apply (proj1 (forallb_forall _ _) E t Ht).
      * intros [[_ Hall] | [[=] _]]. f_equal. apply forallb_forall.
        intros t Ht. apply includes_In, Hall, Ht.
Qed.

Lemma course_page_complete_implies_card_complete_witness :
  CoursePage.getCompletedTasks (js "c1")
    (setItem ∅ (Csv.completedKey (js "c1")) (JSONArray [js "t1"])) ∅ = Some [js "t1"]
  /\ CoursePage.getCompletedLessons (js "c1")
       (setItem ∅ (Csv.completedKey (js "c1")) (JSONArray [js "t1"])) = Some []
  /\ CoursePage.isLessonFullyComplete (js "c1")
       (setItem ∅ (Csv.completedKey (js "c1")) (JSONArray [js "t1"])) ∅ (fun _ => false)
       flagOnlyLesson = Some true
  /\ ChapterPage.isLessonFullyComplete (js "c1")
       (setItem ∅ (Csv.completedKey (js "c1")) (JSONArray [js "t1"])) ∅ [] flagOnlyLesson
     = Some true.
Proof.
  assert (H1 : CoursePage.getCompletedTasks (js "c1")
                 (setItem ∅ (Csv.completedKey (js "c1")) (JSONArray [js "t1"])) ∅
               = Some [js "t1"]) by reflexivity.
  assert (H2 : CoursePage.getCompletedLessons (js "c1")
                 (setItem ∅ (Csv.completedKey (js "c1")) (JSONArray [js "t1"])) = Some [])
    by reflexivity.
  assert (H3 : CoursePage.isLessonFullyComplete (js "c1")
                 (setItem ∅ (Csv.completedKey (js "c1")) (JSONArray [js "t1"])) ∅
                 (fun _ => false) flagOnlyLesson = Some true) by reflexivity.
  split; [exact H1|]. split; [exact H2|]. split; [exact H3|].
  apply (proj1 (course_page_complete_implies_card_complete (js "c1") _ ∅ []
                  (fun _ => false) flagOnlyLesson _ _ H1 H2)), H3.
Defined.

(** The converse fails: with its learning done and its task open, the
    lesson is complete on the card of the chapter page and not on the
    course page. *)
Example card_complete_not_course_page_complete :
  ChapterPage.isLessonFullyComplete (js "c1") flagAndListStorage ∅ [(js "L1", true)]
    flagOnlyLesson = Some true
  /\ CoursePage.isLessonFullyComplete (js "c1") flagAndListStorage ∅ (fun _ => false)
       flagOnlyLesson = Some false.
Proof. vm_compute. split; reflexivity. Qed.

(** ** The unlock date of a lesson in closed form *)

(** The number of days from the course start to the unlock date of the
    lesson at position [i], when the course starts on local weekday [w]
    (0 is Sunday): one day for each lesson before it, and one more for
    each Sunday passed over. *)
Definition unlockOffset (w : Z) (i : nat) : Z :=
  Z.of_nat i + (if (i =? 0)%nat then 0 else (Z.of_nat i + w - 1) / 6).

Section ScheduleFormula.

Import LessonUnlock.

Variable LocalTZA : Z.

Lemma getDay_range (d : Z) : 0 <= getDay LocalTZA d < 7.
Proof. unfold getDay, WeekDay. apply Z.mod_pos_bound. lia. Qed.

Lemma getDay_shift (d k : Z) :
  getDay LocalTZA (d + k * msPerDay) = (getDay LocalTZA d + k) mod 7.
Proof.
  unfold getDay, WeekDay, Day, LocalTime.
  replace (d + k * msPerDay + LocalTZA) with (d + LocalTZA + k * msPerDay) by lia.
  rewrite Z.div_add by (unfold msPerDay; lia).
  rewrite Zplus_mod_idemp_l. f_equal. lia.
Qed.

Lemma unlockOffset_next (w : Z) (i : nat) :
  0 <= w <= 5 -> unlockOffset w (S i) = 1 + unlockOffset (w + 1) i.
Proof.
  intros Hw. unfold unlockOffset. cbn [Nat.eqb]. destruct i as [|i]; cbn [Nat.eqb].
  - rewrite Z.div_small by lia. lia.
  - replace (Z.of_nat (S (S i)) + w - 1) with (Z.of_nat (S i) + (w + 1) - 1) by lia. lia.
Qed.

Lemma unlockOffset_sunday (i : nat) : unlockOffset 6 (S i) = 2 + unlockOffset 1 i.
Proof.
  unfold unlockOffset. cbn [Nat.eqb]. destruct i as [|i]; cbn [Nat.eqb].
  - reflexivity.
  - replace (Z.of_nat (S (S i)) + 6 - 1) with (Z.of_nat (S i) + 1 - 1 + 1 * 6) by lia.
    rewrite Z.div_add by lia. lia.
Qed.

Lemma chain_offsets (l : list Z) (a : Z) :
  LocallySorted (nextUnlockDay LocalTZA) (a :: l) ->
  forall i d, nth_error (a :: l) i = Some d ->
    d = a + unlockOffset (getDay LocalTZA a) i * msPerDay.
Proof.
  revert a. induction l as [|b l IH]; intros a Hs i d Hi.
  - destruct i as [|[|i]]; [|discriminate Hi|discriminate Hi].
    injection Hi as <-. unfold unlockOffset. cbn. lia.
  - destruct i as [|i].
    { injection Hi as <-. unfold unlockOffset. cbn. lia. }
    inversion Hs as [| |a' b' l' Hs' Hab]; subst.
    cbn [nth_error] in Hi. specialize (IH b Hs' i d Hi). rewrite IH.
    pose proof (getDay_range a) as Ha.
    destruct Hab as [[-> Hb] | [-> Hb]].
    + replace (a + msPerDay) with (a + 1 * msPerDay) in * by lia.
      rewrite getDay_shift in *.
      assert (Hw : 0 <= getDay LocalTZA a <= 5).
      { destruct (Z.eq_dec (getDay LocalTZA a) 6) as [E | E]; [|lia].
        rewrite E in Hb. exfalso. apply Hb. reflexivity. }
      rewrite Z.mod_small by lia. rewrite (unlockOffset_next _ i Hw). lia.
    + replace (a + msPerDay) with (a + 1 * msPerDay) in Hb by lia.
      rewrite getDay_shift in *.
      assert (Hw : getDay LocalTZA a = 6).
      { destruct (Z.eq_dec (getDay LocalTZA a) 6) as [E | E]; [exact E|].
        rewrite Z.mod_small in Hb by lia. lia. }
      rewrite Hw. change ((6 + 2) mod 7) with 1. rewrite unlockOffset_sunday. lia.
Qed.

Lemma unlockOffset_bounds (w : Z) (i : nat) :
  0 <= w < 7 ->
  Z.of_nat i <= unlockOffset w i <= Z.of_nat i + (Z.of_nat i + 5) / 6.
Proof.
  intros Hw. unfold unlockOffset. destruct i as [|i]; cbn [Nat.eqb].
  - cbn [Z.of_nat]. rewrite Z.div_small by lia. lia.
  - assert (0 <= (Z.of_nat (S i) + w - 1) / 6) by (apply Z.div_pos; lia).
    assert ((Z.of_nat (S i) + w - 1) / 6 <= (Z.of_nat (S i) + 5) / 6)
      by (apply Z.div_le_mono; lia).
    lia.
Qed.

End ScheduleFormula.

(** X22. The unlock date in closed form: for every start date and fixed
    local offset, the lesson at position [i] of the enumeration unlocks
    [i] days after the course start plus one day for each Sunday passed
    over, which is the quotient of [i + w - 1] by 6 for [i] at least 1
    and a start on local weekday [w]; so between [i] and
    [i + (i + 5) / 6] days after the start. *)
Theorem unlock_date_in_closed_form (LocalTZA start : Z) (i : nat)
    (info : LessonUnlock.LessonInfo) :
  nth_error LessonUnlock.generateLessonIds i = Some info ->
  LessonUnlock.getLessonUnlockDate (LessonUnlock.new LocalTZA start) (LessonUnlock.id info)
  = Some (Some (start + unlockOffset (getDay LocalTZA start) i * msPerDay))
  /\ Z.of_nat i <= unlockOffset (getDay LocalTZA start) i
     <= Z.of_nat i + (Z.of_nat i + 5) / 6.
Proof.
  intros Hi. split; [|apply unlockOffset_bounds, getDay_range].
  destruct (entry_at LocalTZA start i info Hi) as (e & He & Hd).
  unfold LessonUnlock.getLessonUnlockDate.
  rewrite (getMember_own _ _ _ He). cbn [LessonUnlock.unlockDateOf].
  pose proof (schedule_steps LocalTZA start) as Hs.
  destruct (schedule_dates LocalTZA start) as (rest & Hdates & _).
  rewrite Hdates in Hs, Hd.
  rewrite (chain_offsets LocalTZA rest start Hs i _ Hd). reflexivity.
Qed.

Lemma unlock_date_in_closed_form_witness :
  nth_error LessonUnlock.generateLessonIds 1 = Some les_1_2
  /\ LessonUnlock.getLessonUnlockDate (LessonUnlock.new 0 (dateOnly 2025 7 26))
       (LessonUnlock.id les_1_2)
     = Some (Some (dateOnly 2025 7 28)).
Proof.
  assert (H : nth_error LessonUnlock.generateLessonIds 1 = Some les_1_2)
    by (rewrite first_lessons; reflexivity).
  split; [exact H|].
  rewrite (proj1 (unlock_date_in_closed_form 0 (dateOnly 2025 7 26) 1 les_1_2 H)).
  reflexivity.
Defined.

(** ** The YouTube id of a video URL *)

Section YouTube.

Import Learning.

Definition delimiterFree (s : jsstring) : Prop :=
  forallb (fun c => negb (isDelimiter c)) s = true.

Lemma classRun_delimiterFree (s : jsstring) : delimiterFree (classRun s).
Proof.
  unfold delimiterFree. induction s as [|c s IH]; [reflexivity|].
  cbn [classRun]. destruct (isDelimiter c) eqn:E; [reflexivity|].
  cbn [forallb]. rewrite E, IH. reflexivity.
Qed.

Lemma classRun_app (id rest : jsstring) :
  delimiterFree id ->
  rest = [] \/ (exists c more, rest = c :: more /\ isDelimiter c = true) ->
  classRun (id ++ rest) = id.
Proof.
  unfold delimiterFree. intros Hid Hrest. induction id as [|c id IH].
  - destruct Hrest as [-> | (c & more & -> & Hc)]; [reflexivity|].
    cbn [app classRun]. rewrite Hc. reflexivity.
  - cbn [forallb] in Hid. apply andb_true_iff in Hid as [Hc Hid].
    apply negb_true_iff in Hc. cbn [app classRun]. rewrite Hc, (IH Hid). reflexivity.
Qed.

Lemma afterLiteral_app (p s : jsstring) : afterLiteral p (p ++ s) = Some s.
Proof.
  induction p as [|a p IH]; [destruct s; reflexivity|].
  cbn [app afterLiteral]. rewrite N.eqb_refl. exact IH.
Qed.

Lemma afterLiteral_Some (p s rest : jsstring) :
  afterLiteral p s = Some rest -> s = p ++ rest.
Proof.
  revert s. induction p as [|a p IH]; intros s H.
  - destruct s; injection H as <-; reflexivity.
  - destruct s as [|b s]; [discriminate H|]. cbn [afterLiteral] in H.
    destruct (N.eqb_spec a b) as [-> | Hne]; [|discriminate H].
    rewrite (IH s H). reflexivity.
Qed.

Lemma matchMarkers_Some (markers : list jsstring) (s r : jsstring) :
  matchMarkers markers s = Some r -> r <> [] /\ delimiterFree r.
Proof.
  induction markers as [|m more IH]; [discriminate|].
  cbn [matchMarkers]. destruct (afterLiteral m s) as [rest|]; [|exact IH].
  pose proof (classRun_delimiterFree rest) as Hrun.
  destruct (classRun rest) as [|c run]; [exact IH|].
  intros [= <-]. split; [discriminate | exact Hrun].
Qed.

Lemma matchUrl_Some (s r : jsstring) :
  matchUrl s = Some r -> r <> [] /\ delimiterFree r.
Proof.
  induction s as [|c s IH]; cbn [matchUrl];
    destruct (matchMarkers youtubeMarkers _) as [r'|] eqn:E.
  - intros [= <-]. apply (matchMarkers_Some _ _ _ E).
  - discriminate.
  - intros [= <-]. apply (matchMarkers_Some _ _ _ E).
  - exact IH.
Qed.

Lemma isIdUnit_not_delimiter (c : N) : isIdUnit c = true -> isDelimiter c = false.
Proof.
  unfold isDelimiter. intros H.
  destruct (N.eqb_spec c 0x26) as [-> | _]; [discriminate H|].
  destruct (N.eqb_spec c 0x0A) as [-> | _]; [discriminate H|].
  destruct (N.eqb_spec c 0x3F) as [-> | _]; [discriminate H|].
  destruct (N.eqb_spec c 0x23) as [-> | _]; [discriminate H|].
  reflexivity.
Qed.

Lemma matchMarkers_idUnits (s : jsstring) :
  forallb isIdUnit s = true -> matchMarkers youtubeMarkers s = None.
Proof.
  intros Hs.
  assert (Hno : forall m rest, In 0x2F%N m -> afterLiteral m s = Some rest -> False).
  { intros m rest Hm H. apply afterLiteral_Some in H. subst s.
    rewrite forallb_forall in Hs. specialize (Hs 0x2F%N).
    rewrite in_app_iff in Hs. discriminate Hs. left. exact Hm. }
  assert (Hin : forall m, existsb (N.eqb 0x2F) m = true -> In 0x2F%N m).
  { intros m Hm. apply existsb_exists in Hm as (x & Hx & E).
    apply N.eqb_eq in E. subst x. exact Hx. }
  unfold youtubeMarkers. cbn [matchMarkers].
  destruct (afterLiteral (js "youtube.com/watch?v=") s) eqn:E1.
  { exfalso. apply (Hno _ _ (Hin (js "youtube.com/watch?v=") eq_refl) E1). }
  destruct (afterLiteral (js "youtu.be/") s) eqn:E2.
  { exfalso. apply (Hno _ _ (Hin (js "youtu.be/") eq_refl) E2). }
  destruct (afterLiteral (js "youtube.com/embed/") s) eqn:E3.
  { exfalso. apply (Hno _ _ (Hin (js "youtube.com/embed/") eq_refl) E3). }
  reflexivity.
Qed.

Lemma matchUrl_idUnits (s : jsstring) : forallb isIdUnit s = true -> matchUrl s = None.
Proof.
  induction s as [|c s IH]; intros Hs.
  - reflexivity.
  - cbn [matchUrl]. rewrite (matchMarkers_idUnits _ Hs).
    cbn [forallb] in Hs. apply andb_true_iff in Hs as [_ Hs]. apply IH, Hs.
Qed.

(** No pattern starts before the first letter y. *)
Lemma matchMarkers_other_unit (c : N) (s : jsstring) :
  c <> 0x79%N -> matchMarkers youtubeMarkers (c :: s) = None.
Proof.
  intros Hc. apply N.eqb_neq in Hc. rewrite N.eqb_sym in Hc.
  unfold youtubeMarkers. cbn [matchMarkers].
  change (js "youtube.com/watch?v=") with (0x79%N :: js "outube.com/watch?v=").
  change (js "youtu.be/") with (0x79%N :: js "outu.be/").
  change (js "youtube.com/embed/") with (0x79%N :: js "outube.com/embed/").
  cbn [afterLiteral]. rewrite Hc. reflexivity.
Qed.

Lemma matchUrl_skip (p s : jsstring) :
  List.Forall (fun c => c <> 0x79%N) p -> matchUrl (p ++ s) = matchUrl s.
Proof.
  induction 1 as [|c p Hc Hp IH]; [reflexivity|].
  cbn [app matchUrl]. rewrite (matchMarkers_other_unit c _ Hc). exact IH.
Qed.

Lemma matchUrl_marker (before marker id rest : jsstring) :
  List.Forall (fun c => c <> 0x79%N) before ->
  matchMarkers youtubeMarkers (marker ++ id ++ rest) = Some id ->
  matchUrl (before ++ marker ++ id ++ rest) = Some id.
Proof.
  intros Hb Hm. rewrite (matchUrl_skip before _ Hb).
  destruct (marker ++ id ++ rest) as [|c s]; cbn [matchUrl]; rewrite Hm; reflexivity.
Qed.

Lemma matchMarkers_run (marker id rest : jsstring) (earlier later : list jsstring) :
  id <> [] -> delimiterFree id ->
  rest = [] \/ (exists c more, rest = c :: more /\ isDelimiter c = true) ->
  (forall m, In m earlier -> afterLiteral m (marker ++ id ++ rest) = None) ->
  matchMarkers (earlier ++ marker :: later) (marker ++ id ++ rest) = Some id.
Proof.
  intros Hne Hid Hrest Hearlier. induction earlier as [|m earlier IH].
  - cbn [app matchMarkers]. rewrite afterLiteral_app, (classRun_app id rest Hid Hrest).
    destruct id; [congruence | reflexivity].
  - cbn [app matchMarkers]. rewrite (Hearlier m (or_introl eq_refl)).
    apply IH. intros m' Hm'. apply Hearlier. right. exact Hm'.
Qed.

End YouTube.

(** X23. [extractYouTubeId] reads the video id of the usual URLs: for an
    id that is not empty and holds none of the units ampersand, question
    mark, hash and line feed, followed by nothing or by one of these
    units, the three URL shapes give the id; a bare id of eleven letters,
    digits, underscores and hyphens gives itself; and whatever the
    function returns is not empty and holds none of the four units. *)
Theorem extractYouTubeId_reads_the_id (url r id rest : jsstring) :
  (Learning.extractYouTubeId url = Some r -> r <> [] /\ delimiterFree r)
  /\ (length id = 11%nat -> forallb Learning.isIdUnit id = true ->
      Learning.extractYouTubeId id = Some id)
  /\ (id <> [] -> delimiterFree id ->
      rest = [] \/ (exists c more, rest = c :: more /\ Learning.isDelimiter c = true) ->
      Learning.extractYouTubeId (js "https://www.youtube.com/watch?v=" ++ id ++ rest)
      = Some id
      /\ Learning.extractYouTubeId (js "https://youtu.be/" ++ id ++ rest) = Some id
      /\ Learning.extractYouTubeId (js "https://www.youtube.com/embed/" ++ id ++ rest)
         = Some id).
Proof.
  split; [|split].
  - unfold Learning.extractYouTubeId. destruct (negb (truthy url)); [discriminate|].
    destruct (Learning.matchUrl url) as [r'|] eqn:E.
    + intros [= <-]. apply (matchUrl_Some _ _ E).
    + unfold Learning.matchDirectId.
      destruct ((length url =? 11)%nat && forallb Learning.isIdUnit url) eqn:Ed;
        [|discriminate].
      intros [= <-]. apply andb_true_iff in Ed as [Hlen Hids]. split.
      * destruct url; [discriminate Hlen | discriminate].
      * unfold delimiterFree. apply forallb_forall. intros c Hc.
        rewrite forallb_forall in Hids.
        rewrite (isIdUnit_not_delimiter c (Hids c Hc)). reflexivity.
  - intros Hlen Hids. unfold Learning.extractYouTubeId.
    assert (Ht : truthy id = true) by (destruct id; [discriminate Hlen | reflexivity]).
    rewrite Ht, (matchUrl_idUnits id Hids). cbn [negb].
    unfold Learning.matchDirectId. rewrite Hlen, Hids. reflexivity.
  - intros Hne Hid Hrest.
    assert (Hmatch : forall before marker earlier later,
              Learning.youtubeMarkers = earlier ++ marker :: later ->
              List.Forall (fun c => c <> 0x79%N) before ->
              before <> [] ->
              (forall m, In m earlier ->
                 Learning.afterLiteral m (marker ++ id ++ rest) = None) ->
              Learning.extractYouTubeId (before ++ marker ++ id ++ rest) = Some id).
    { intros before marker earlier later Hms Hb Hbne Hearlier.
      unfold Learning.extractYouTubeId.
      assert (Ht : truthy (before ++ marker ++ id ++ rest) = true)
        by (destruct before; [congruence | reflexivity]).
      rewrite Ht. cbn [negb]. rewrite (matchUrl_marker before marker id rest Hb);
        [reflexivity|].
      rewrite Hms. apply matchMarkers_run; assumption. }
    split; [|split].
    + apply (Hmatch (js "https://www.") (js "youtube.com/watch?v=") []
               [js "youtu.be/"; js "youtube.com/embed/"]).
      * reflexivity.
      * repeat constructor; discriminate.
      * discriminate.
      * intros m [].
    + apply (Hmatch (js "https://") (js "youtu.be/") [js "youtube.com/watch?v="]
               [js "youtube.com/embed/"]).
      * reflexivity.
      * repeat constructor; discriminate.
      * discriminate.
      * intros m [<- | []]. reflexivity.
    + apply (Hmatch (js "https://www.") (js "youtube.com/embed/")
               [js "youtube.com/watch?v="; js "youtu.be/"] []).
      * reflexivity.
      * repeat constructor; discriminate.
      * discriminate.
      * intros m [<- | [<- | []]]; reflexivity.
Qed.

Lemma extractYouTubeId_reads_the_id_witness :
  (length (js "dQw4w9WgXcQ") = 11%nat
   /\ forallb Learning.isIdUnit (js "dQw4w9WgXcQ") = true
   /\ Learning.extractYouTubeId (js "dQw4w9WgXcQ") = Some (js "dQw4w9WgXcQ"))
  /\ (js "dQw4w9WgXcQ" <> []
      /\ delimiterFree (js "dQw4w9WgXcQ")
      /\ Learning.extractYouTubeId (js "https://youtu.be/" ++ js "dQw4w9WgXcQ" ++ js "?t=42")
         = Some (js "dQw4w9WgXcQ"))
  /\ (Learning.extractYouTubeId (js "https://youtu.be/dQw4w9WgXcQ?t=42")
      = Some (js "dQw4w9WgXcQ")
      /\ js "dQw4w9WgXcQ" <> []).
Proof.
  destruct (extractYouTubeId_reads_the_id (js "https://youtu.be/dQw4w9WgXcQ?t=42")
              (js "dQw4w9WgXcQ") (js "dQw4w9WgXcQ") (js "?t=42")) as (H1 & H2 & H3).
  split; [|split].
  - split; [reflexivity|]. split; [reflexivity|]. apply H2; reflexivity.
  - split; [discriminate|]. split; [reflexivity|].
    apply H3; [discriminate | reflexivity |].
    right. eexists. eexists. split; reflexivity.
  - split; [reflexivity|]. apply H1. reflexivity.
Defined.

(** ** The passed flag of a quiz *)

Lemma quizPassedKey_inj (a b : jsstring) :
  Learning.quizPassedKey a = Learning.quizPassedKey b -> a = b.
Proof.
  unfold Learning.quizPassedKey. intros H.
  apply app_inv_head in H. apply app_inv_tail in H. exact H.
Qed.

Lemma quizPassedKey_watchedKey (a b : jsstring) :
  Learning.quizPassedKey a <> Learning.watchedKey b.
Proof.
  unfold Learning.quizPassedKey, Learning.watchedKey. intros H.
  apply (f_equal (@rev N)) in H. rewrite !rev_app_distr in H.
  vm_compute in H. discriminate H.
Qed.

Lemma quizPassedKey_learningDoneKey (a b : jsstring) :
  Learning.quizPassedKey a <> LearningPage.learningDoneKey b.
Proof.
  unfold Learning.quizPassedKey, LearningPage.learningDoneKey. intros H.
  apply (f_equal (@rev N)) in H. rewrite !rev_app_distr in H.
  vm_compute in H. discriminate H.
Qed.

(** X24. [isQuizPassed] reads back what [setQuizPassed] stored for the
    lesson, and the call changes neither the passed flag of another
    lesson nor any watched-topic list or learning-done flag. *)
Theorem quiz_passed_flag_reads_back (localStorage : storage) (lessonId other : jsstring)
    (passed : bool) :
  Learning.isQuizPassed (Learning.setQuizPassed localStorage lessonId passed) lessonId
  = passed
  /\ (other <> lessonId ->
      Learning.isQuizPassed (Learning.setQuizPassed localStorage lessonId passed) other
      = Learning.isQuizPassed localStorage other)
  /\ Learning.getWatchedTopics (Learning.setQuizPassed localStorage lessonId passed) other
     = Learning.getWatchedTopics localStorage other
  /\ ChapterPage.isLessonLearningDone
       (Learning.setQuizPassed localStorage lessonId passed) other
     = ChapterPage.isLessonLearningDone localStorage other.
Proof.
  unfold Learning.isQuizPassed, Learning.setQuizPassed, Learning.getWatchedTopics,
    ChapterPage.isLessonLearningDone.
  change (js "lesson_" ++ other ++ js "_learningDone")
    with (LearningPage.learningDoneKey other).
  split; [|split; [|split]].
  - rewrite getItem_setItem_same. destruct passed; reflexivity.
  - intros Hne. rewrite getItem_setItem_other; [reflexivity|].
    intros E. apply quizPassedKey_inj in E. congruence.
  - rewrite getItem_setItem_other; [reflexivity | apply quizPassedKey_watchedKey].
  - rewrite getItem_setItem_other; [reflexivity | apply quizPassedKey_learningDoneKey].
Qed.

Lemma quiz_passed_flag_reads_back_witness :
  js "L2" <> js "L1"
  /\ Learning.isQuizPassed (Learning.setQuizPassed ∅ (js "L1") true) (js "L2")
     = Learning.isQuizPassed ∅ (js "L2").
Proof.
  assert (H : js "L2" <> js "L1") by discriminate.
  split; [exact H|].
  apply (proj1 (proj2 (quiz_passed_flag_reads_back ∅ (js "L1") (js "L2") true))), H.
Defined.

(** ** Topics in order *)

Section Topics.

Import Learning.

Definition byOrder (a b : Topic) : Prop := topic_order a <= topic_order b.

Lemma insertByOrder_perm (t : Topic) (l : list Topic) :
  Permutation (insertByOrder t l) (t :: l).
Proof.
  induction l as [|u l IH]; cbn [insertByOrder]; [reflexivity|].
  destruct (topic_order t <=? topic_order u); [reflexivity|].
  rewrite IH. apply perm_swap.
Qed.

Lemma sortByOrder_perm (l : list Topic) : Permutation (sortByOrder l) l.
Proof.
  induction l as [|t l IH]; [reflexivity|].
  cbn [sortByOrder fold_right]. fold (sortByOrder l).
  rewrite insertByOrder_perm, IH. reflexivity.
Qed.

Lemma insertByOrder_sorted (t : Topic) (l : list Topic) :
  StronglySorted byOrder l -> StronglySorted byOrder (insertByOrder t l).
Proof.
  intros Hs. induction Hs as [|u l Hs IH Hall]; cbn [insertByOrder].
  - constructor; constructor.
  - destruct (Z.leb_spec (topic_order t) (topic_order u)) as [Hle | Hgt].
    + constructor; [constructor; assumption|].
      constructor; [exact Hle|].
      rewrite List.Forall_forall in *. intros x Hx. specialize (Hall x Hx).
      unfold byOrder in *. lia.
    + constructor; [exact IH|].
      rewrite List.Forall_forall in *. intros x Hx.
      apply (Permutation_in _ (insertByOrder_perm t l)) in Hx.
      destruct Hx as [<- | Hx]; [unfold byOrder; lia | apply Hall, Hx].
Qed.

Lemma sortByOrder_sorted (l : list Topic) : StronglySorted byOrder (sortByOrder l).
Proof.
  induction l as [|t l IH]; [constructor|].
  cbn [sortByOrder fold_right]. apply insertByOrder_sorted, IH.
Qed.

Lemma insertByOrder_same_order (k : Z) (t : Topic) (l : list Topic) :
  List.filter (fun x => topic_order x =? k) (insertByOrder t l)
  = List.filter (fun x => topic_order x =? k) (t :: l).
Proof.
  induction l as [|u l IH]; cbn [insertByOrder]; [reflexivity|].
  destruct (Z.leb_spec (topic_order t) (topic_order u)) as [Hle | Hgt]; [reflexivity|].
  cbn [List.filter] in *. rewrite IH.
  destruct (Z.eqb_spec (topic_order t) k) as [Et | Et];
    destruct (Z.eqb_spec (topic_order u) k) as [Eu | Eu]; try reflexivity. lia.
Qed.

Lemma sortByOrder_same_order (k : Z) (l : list Topic) :
  List.filter (fun x => topic_order x =? k) (sortByOrder l)
  = List.filter (fun x => topic_order x =? k) l.
Proof.
  induction l as [|t l IH]; [reflexivity|].
  cbn [sortByOrder fold_right]. fold (sortByOrder l).
  rewrite insertByOrder_same_order. cbn [List.filter]. rewrite IH. reflexivity.
Qed.

Lemma insertByOrder_first (t : Topic) (l : list Topic) :
  List.Forall (byOrder t) l -> insertByOrder t l = t :: l.
Proof.
  intros H. destruct H as [|u l Hu Hl]; [reflexivity|].
  cbn [insertByOrder]. unfold byOrder in Hu. apply Z.leb_le in Hu. rewrite Hu. reflexivity.
Qed.

Lemma insertByOrder_filter (q : Topic -> bool) (t : Topic) (l : list Topic) :
  StronglySorted byOrder l ->
  List.filter q (insertByOrder t l)
  = if q t then insertByOrder t (List.filter q l) else List.filter q l.
Proof.
  intros Hs. induction Hs as [|u l Hs IH Hall]; cbn [insertByOrder List.filter].
  - destruct (q t); reflexivity.
  - destruct (Z.leb_spec (topic_order t) (topic_order u)) as [Hle | Hgt].
    + cbn [List.filter]. destruct (q t); [|reflexivity].
      symmetry. apply insertByOrder_first.
      assert (Hall' : List.Forall (byOrder t) (u :: l)).
      { constructor; [exact Hle|]. rewrite List.Forall_forall in *. intros x Hx.
        specialize (Hall x Hx). unfold byOrder in *. lia. }
      rewrite List.Forall_forall in *. intros x Hx.
      change (In x (List.filter q (u :: l))) in Hx.
      apply filter_In in Hx as [Hx _]. apply Hall', Hx.
    + cbn [List.filter]. rewrite IH. destruct (q u), (q t); try reflexivity.
      cbn [insertByOrder]. apply Z.leb_gt in Hgt. rewrite Hgt. reflexivity.
Qed.

Lemma sortByOrder_filter (q : Topic -> bool) (l : list Topic) :
  List.filter q (sortByOrder l) = sortByOrder (List.filter q l).
Proof.
  induction l as [|t l IH]; [reflexivity|].
  cbn [sortByOrder fold_right List.filter]. fold (sortByOrder l).
  rewrite insertByOrder_filter by apply sortByOrder_sorted.
  rewrite IH. destruct (q t); reflexivity.
Qed.

End Topics.

(** X25. [organizeTopics] gives the topics of the rows sorted by their
    order number, topics with the same number in the order of their
    rows, each with the YouTube id read from its video URL; and the
    topics of one lesson taken out of it are the organized topics of the
    rows of that lesson. *)
Theorem organizeTopics_sorted_and_stable (topicRows : list Learning.TopicRow)
    (lessonId : jsstring) (k : Z) :
  Permutation (Learning.organizeTopics topicRows) (map Learning.topicOfRow topicRows)
  /\ StronglySorted byOrder (Learning.organizeTopics topicRows)
  /\ List.filter (fun t => Learning.topic_order t =? k) (Learning.organizeTopics topicRows)
     = map Learning.topicOfRow
         (List.filter (fun r => Learning.tr_order r =? k) topicRows)
  /\ (forall t, In t (Learning.organizeTopics topicRows) ->
        Learning.topic_youtubeId t = Learning.extractYouTubeId (Learning.topic_videoUrl t))
  /\ Learning.getTopicsForLesson (Learning.organizeTopics topicRows) lessonId
     = Learning.organizeTopics
         (List.filter (fun r => streq (Learning.tr_lessonId r) lessonId) topicRows).
Proof.
  unfold Learning.organizeTopics, Learning.getTopicsForLesson.
  split; [apply sortByOrder_perm|]. split; [apply sortByOrder_sorted|].
  assert (Hfm : forall (q : Learning.Topic -> bool) (l : list Learning.TopicRow),
            List.filter q (map Learning.topicOfRow l)
            = map Learning.topicOfRow (List.filter (fun r => q (Learning.topicOfRow r)) l)).
  { intros q l. induction l as [|r l IH]; [reflexivity|].
    cbn [map List.filter]. destruct (q (Learning.topicOfRow r)); cbn [map]; rewrite IH;
      reflexivity. }
  split; [rewrite sortByOrder_same_order; apply Hfm|]. split.
  - intros t Ht. apply (Permutation_in _ (sortByOrder_perm _)) in Ht.
    apply in_map_iff in Ht as (r & <- & _). reflexivity.
  - rewrite sortByOrder_filter. f_equal. apply Hfm.
Qed.

(** ** The lessons of the schedule *)

Lemma generateLessonIds_ids :
  map LessonUnlock.id LessonUnlock.generateLessonIds
  = flat_map (fun chapter => map (LessonUnlock.lessonId chapter)
                               (seq 1 (lessonsInChapter chapter)))
      (seq 1 12).
Proof. vm_compute. reflexivity. Qed.

Lemma generateLessonIds_indices :
  forallb (fun p => LessonUnlock.globalIndex (snd p) =? Z.of_nat (fst p))
    (combine (seq 0 (length LessonUnlock.generateLessonIds)) LessonUnlock.generateLessonIds)
  = true.
Proof. vm_compute. reflexivity. Qed.

Lemma nth_error_combine_seq {A} (l : list A) (i : nat) (x : A) (from : nat) :
  nth_error l i = Some x -> In ((from + i)%nat, x) (combine (seq from (length l)) l).
Proof.
  revert i from. induction l as [|y l IH]; intros i from H.
  - destruct i; discriminate H.
  - destruct i as [|i]; cbn [length seq combine].
    + injection H as ->. left. f_equal. lia.
    + right. replace (from + S i)%nat with (S from + i)%nat by lia. apply IH, H.
Qed.

(** X26. The schedule knows the lessons les_c_l of chapters 1 to 12, with
    9 lessons in chapter 1, 11 in chapter 5 and 10 in the others: for
    every start date, [getAllLessonIds] lists these 120 ids, each once,
    chapter by chapter, and the [globalIndex] of a lesson is its position
    in the enumeration. *)
Theorem schedule_lists_the_course_lessons (LocalTZA start : Z) (lessonId : jsstring)
    (i : nat) (info : LessonUnlock.LessonInfo) :
  LessonUnlock.getAllLessonIds (LessonUnlock.new LocalTZA start)
  = flat_map (fun chapter => map (LessonUnlock.lessonId chapter)
                               (seq 1 (lessonsInChapter chapter)))
      (seq 1 12)
  /\ length (LessonUnlock.getAllLessonIds (LessonUnlock.new LocalTZA start)) = 120%nat
  /\ List.NoDup (LessonUnlock.getAllLessonIds (LessonUnlock.new LocalTZA start))
  /\ (In lessonId (LessonUnlock.getAllLessonIds (LessonUnlock.new LocalTZA start)) <->
      exists chapter lesson,
        (1 <= chapter <= 12)%nat /\ (1 <= lesson <= lessonsInChapter chapter)%nat
        /\ lessonId = LessonUnlock.lessonId chapter lesson)
  /\ (nth_error LessonUnlock.generateLessonIds i = Some info ->
      LessonUnlock.globalIndex info = Z.of_nat i).
Proof.
  assert (E : LessonUnlock.getAllLessonIds (LessonUnlock.new LocalTZA start)
              = flat_map (fun chapter => map (LessonUnlock.lessonId chapter)
                                           (seq 1 (lessonsInChapter chapter)))
                  (seq 1 12)).
  { unfold LessonUnlock.getAllLessonIds. rewrite unlockSchedule_new, schedule_keys.
    apply generateLessonIds_ids. }
  split; [exact E|]. split; [rewrite E; vm_compute; reflexivity|]. split.
  { unfold LessonUnlock.getAllLessonIds. rewrite unlockSchedule_new. apply schedule_NoDup. }
  split.
  - rewrite E, in_flat_map. split.
    + intros (chapter & Hc & Hl). apply in_map_iff in Hl as (lesson & <- & Hl).
      apply in_seq in Hc, Hl. exists chapter, lesson. repeat split; lia.
    + intros (chapter & lesson & Hc & Hl & ->). exists chapter. split.
      * apply in_seq. lia.
      * apply in_map, in_seq. lia.
  - intros Hi. pose proof (nth_error_combine_seq _ i info 0 Hi) as Hin.
    pose proof generateLessonIds_indices as Hall. rewrite forallb_forall in Hall.
    specialize (Hall _ Hin). cbn [fst snd Nat.add] in Hall. apply Z.eqb_eq, Hall.
Qed.

Lemma schedule_lists_the_course_lessons_witness :
  nth_error LessonUnlock.generateLessonIds 1 = Some les_1_2
  /\ LessonUnlock.globalIndex les_1_2 = 1.
Proof.
  assert (H : nth_error LessonUnlock.generateLessonIds 1 = Some les_1_2)
    by (rewrite first_lessons; reflexivity).
  split; [exact H|].
  apply (proj2 (proj2 (proj2 (proj2
           (schedule_lists_the_course_lessons 0 0 (js "les_1_2") 1 les_1_2))))), H.
Defined.

(** ** The rows of the task-sheet reader *)

Section CsvShape.

Import Csv.

Lemma parseLoop_rows_nonempty (n : nat) (text : jsstring) (st : ParseState) :
  (length text <= n)%nat ->
  List.Forall (fun row => row <> []) (rows st) ->
  List.Forall (fun row => row <> []) (rows (parseLoop text st)).
Proof.
  revert text st. induction n as [|n IH]; intros text st Hlen Hrows.
  - destruct text; [exact Hrows | cbn in Hlen; lia].
  - destruct text as [|ch rest]; [exact Hrows|].
    cbn [length] in Hlen.
    assert (Hpush : forall field : jsstring,
              List.Forall (fun row : list jsstring => row <> [])
                (rows st ++ [curRow st ++ [field]])).
    { intros field. apply List.Forall_app. split; [exact Hrows|].
      constructor; [|constructor]. destruct (curRow st); discriminate. }
    cbn [parseLoop].
    destruct (N.eqb ch quote).
    + destruct rest as [|next rest'].
      * apply IH; [cbn; lia | exact Hrows].
      * cbn [length] in Hlen.
        destruct (inQuotes st && N.eqb next quote); apply IH; cbn [length rows];
          try lia; exact Hrows.
    + destruct (negb (inQuotes st) && N.eqb ch comma);
        [apply IH; [lia | exact Hrows]|].
      destruct (negb (inQuotes st) && N.eqb ch CR).
      * destruct rest as [|next rest'].
        -- apply IH; [cbn; lia | apply Hpush].
        -- cbn [length] in Hlen. destruct (N.eqb next LF); apply IH; cbn [length rows];
             try lia; apply Hpush.
      * destruct (negb (inQuotes st) && N.eqb ch LF); apply IH; cbn [rows];
          try lia; try exact Hrows; apply Hpush.
Qed.

Lemma popEmptyRev_incl (revRows : list (list jsstring)) :
  incl (popEmptyRev revRows) revRows.
Proof.
  induction revRows as [|r more IH]; [apply incl_refl|].
  cbn [popEmptyRev]. destruct (isEmptyRow r); [|apply incl_refl].
  intros x Hx. right. apply IH, Hx.
Qed.

Lemma popEmptyRev_head (revRows : list (list jsstring)) (r : list jsstring)
    (more : list (list jsstring)) :
  popEmptyRev revRows = r :: more -> isEmptyRow r = false.
Proof.
  induction revRows as [|r0 rows IH]; [discriminate|].
  cbn [popEmptyRev]. destruct (isEmptyRow r0) eqn:E; [exact IH|].
  intros [= <- _]. exact E.
Qed.

End CsvShape.

(** X27. Whatever the text is, the task-sheet reader returns no row
    without a field, and its last row is never a lone empty field. *)
Theorem csv_parseCSV_rows_have_fields (csvText : jsstring) :
  List.Forall (fun row => row <> []) (Csv.parseCSV csvText)
  /\ forall init r, Csv.parseCSV csvText = init ++ [r] -> r <> [[]].
Proof.
  unfold Csv.parseCSV, Csv.popTrailingEmpty.
  set (st := Csv.parseLoop (Csv.stripBOM csvText) _).
  set (all := if truthy (Csv.curField st) || (0 <? length (Csv.curRow st))%nat
              then Csv.rows st ++ [Csv.curRow st ++ [Csv.curField st]]
              else Csv.rows st).
  assert (Hst : List.Forall (fun row : list jsstring => row <> []) (Csv.rows st)).
  { apply (parseLoop_rows_nonempty (length (Csv.stripBOM csvText))); [lia | constructor]. }
  assert (Hall : List.Forall (fun row : list jsstring => row <> []) all).
  { unfold all. destruct (truthy (Csv.curField st) || (0 <? length (Csv.curRow st))%nat);
      [|exact Hst].
    apply List.Forall_app. split; [exact Hst|].
    constructor; [|constructor]. destruct (Csv.curRow st); discriminate. }
  split.
  - rewrite List.Forall_forall in *. intros row Hrow. apply Hall.
    apply in_rev, popEmptyRev_incl, in_rev in Hrow. exact Hrow.
  - intros init r E. apply (f_equal (@rev (list jsstring))) in E.
    rewrite rev_involutive, rev_app_distr in E. cbn [rev app] in E.
    apply popEmptyRev_head in E. intros ->. discriminate E.
Qed.

(** ** The theorems above at concrete inputs *)

Lemma organizeTasks_courses_in_first_seen_order_witness :
  exists course,
    In course (Csv.organizeTasks [sheetRow (js "c1") (js "ch1") (js "L1") (js "t1");
                                  sheetRow (js "c2") (js "ch1") (js "L1") (js "t2");
                                  sheetRow (js "c1") (js "ch2") (js "L9") (js "t3")])
    /\ exists r,
         find (fun r => streq (Csv.row_courseId r) (Csv.course_id course))
           [sheetRow (js "c1") (js "ch1") (js "L1") (js "t1");
            sheetRow (js "c2") (js "ch1") (js "L1") (js "t2");
            sheetRow (js "c1") (js "ch2") (js "L9") (js "t3")] = Some r
         /\ Csv.course_name course = Csv.row_courseName r.
Proof.
  destruct (organizeTasks_courses_in_first_seen_order
              [sheetRow (js "c1") (js "ch1") (js "L1") (js "t1");
               sheetRow (js "c2") (js "ch1") (js "L1") (js "t2");
               sheetRow (js "c1") (js "ch2") (js "L9") (js "t3")]) as (_ & _ & H).
  assert (Hin : exists course,
            In course (Csv.organizeTasks
                         [sheetRow (js "c1") (js "ch1") (js "L1") (js "t1");
                          sheetRow (js "c2") (js "ch1") (js "L1") (js "t2");
                          sheetRow (js "c1") (js "ch2") (js "L9") (js "t3")])).
  { eexists. vm_compute. left. reflexivity. }
  destruct Hin as [course Hcourse]. exists course.
  split; [exact Hcourse | apply H, Hcourse].
Defined.

Definition sheetTopicRow (topicId : jsstring) (order : Z) : Learning.TopicRow :=
  {| Learning.tr_courseId := js "c1"; Learning.tr_chapterId := js "ch1";
     Learning.tr_lessonId := js "L1"; Learning.tr_topicId := topicId;
     Learning.tr_topicTitle := js "Topic " ++ topicId;
     Learning.tr_videoUrl := js "https://youtu.be/dQw4w9WgXcQ";
     Learning.tr_description := []; Learning.tr_order := order |}.

Lemma organizeTopics_sorted_and_stable_witness :
  map Learning.topic_id
    (Learning.organizeTopics [sheetTopicRow (js "T3") 2; sheetTopicRow (js "T1") 1;
                              sheetTopicRow (js "T2") 2])
  = [js "T1"; js "T3"; js "T2"]
  /\ exists t,
       In t (Learning.organizeTopics [sheetTopicRow (js "T3") 2; sheetTopicRow (js "T1") 1;
                                      sheetTopicRow (js "T2") 2])
       /\ Learning.topic_youtubeId t
          = Learning.extractYouTubeId (Learning.topic_videoUrl t).
Proof.
  split; [reflexivity|].
  destruct (organizeTopics_sorted_and_stable
              [sheetTopicRow (js "T3") 2; sheetTopicRow (js "T1") 1;
               sheetTopicRow (js "T2") 2] (js "L1") 2) as (_ & _ & _ & H & _).
  assert (Hin : exists t,
            In t (Learning.organizeTopics
                    [sheetTopicRow (js "T3") 2; sheetTopicRow (js "T1") 1;
                     sheetTopicRow (js "T2") 2])).
  { eexists. vm_compute. left. reflexivity. }
  destruct Hin as [t Ht]. exists t. split; [exact Ht | apply H, Ht].
Defined.

Lemma csv_parseCSV_rows_have_fields_witness :
  Csv.parseCSV (js "a,b" ++ [Csv.LF] ++ [Csv.LF]) = [] ++ [[js "a"; js "b"]]
  /\ [js "a"; js "b"] <> [[]].
Proof.
  assert (H : Csv.parseCSV (js "a,b" ++ [Csv.LF] ++ [Csv.LF]) = [] ++ [[js "a"; js "b"]])
    by reflexivity.
  split; [exact H|].
  apply (proj2 (csv_parseCSV_rows_have_fields (js "a,b" ++ [Csv.LF] ++ [Csv.LF])) _ _ H).
Defined.
